(** * NovaScript compiler (src/compiler.py): lexer, parser, code generator

    A shallow embedding of the three stages of [NovaScriptCompiler] and of
    the orchestrating [compile] method, followed by the properties of the
    specification that were checked against it.

    Conventions of the embedding.
    - A Python [str] is a Rocq [string]; a character is an [ascii], read as
      the code point of the same number (0 to 255).  The character classes
      [str.isspace], [str.isdigit], [str.isalpha], [str.isalnum] and the
      case mapping [str.upper] are those of CPython on these code points.
    - Python integers (line, column, indentation level) are [N] or [Z].
    - A raised exception is the outcome [Raise e]; the objects a method
      mutates are threaded explicitly, and the state reached when the
      exception was raised is kept, as it is in Python.
    - The recursive-descent methods recurse on the remaining input, not on
      a structure; they take a [fuel] argument and [OutOfFuel] is a third
      outcome, shown below never to be the outcome of [compile].
    - The interpreter's recursion limit is not modelled. *)

From Stdlib Require Import String Ascii List ZArith NArith Lia Bool.
From Stdlib Require Import DecimalString.
Import ListNotations.
Local Open Scope string_scope.
Local Open Scope N_scope.

(* ------------------------------------------------------------------ *)
(** * Python built-ins used by the compiler *)

(** The line-feed character and the double-quote character. *)
Definition LF : ascii := ascii_of_N 10.
Definition DQUOTE : ascii := ascii_of_N 34.
Definition nl : string := String LF EmptyString.

Definition between (lo hi n : N) : bool := (lo <=? n) && (n <=? hi).

(** [c.isspace()] *)
Definition isspace (c : ascii) : bool :=
  let n := N_of_ascii c in
  between 9 13 n || between 28 32 n || (n =? 133) || (n =? 160).

(** [c.isdigit()]: the decimal digits and the superscripts 1, 2, 3. *)
Definition isdigit (c : ascii) : bool :=
  let n := N_of_ascii c in
  between 48 57 n || (n =? 178) || (n =? 179) || (n =? 185).

(** [c.isalpha()]: the code points of general category L. *)
Definition isalpha (c : ascii) : bool :=
  let n := N_of_ascii c in
  between 65 90 n || between 97 122 n || (n =? 170) || (n =? 181)
  || (n =? 186) || between 192 214 n || between 216 246 n
  || between 248 255 n.

(** [c.isalnum()]: alphabetic, digit, or numeric (the vulgar fractions). *)
Definition isalnum (c : ascii) : bool :=
  isalpha c || isdigit c || between 188 190 (N_of_ascii c).

(** [str(n)] for a non-negative integer. *)
Definition str_of_N (n : N) : string := NilEmpty.string_of_uint (N.to_uint n).

(** [s * n] for a string [s] and an integer [n] (empty when [n <= 0]). *)
Fixpoint str_repeat (s : string) (n : nat) : string :=
  match n with
  | O => ""
  | S n' => s ++ str_repeat s n'
  end.

Definition str_mul (s : string) (n : Z) : string := str_repeat s (Z.to_nat n).

(** The code points of [c.upper()].  Three characters of the range leave
    it or grow: the sharp s becomes [SS], the micro sign becomes the Greek
    capital mu and y with diaeresis becomes U+0178. *)
Definition upper_char (c : ascii) : list N :=
  let n := N_of_ascii c in
  if between 97 122 n then [n - 32]
  else if n =? 181 then [924]
  else if n =? 223 then [83; 83]
  else if between 224 246 n || between 248 254 n then [n - 32]
  else if n =? 255 then [376]
  else [n].

Fixpoint code_points (s : string) : list N :=
  match s with
  | EmptyString => []
  | String c s' => N_of_ascii c :: code_points s'
  end.

(** The code points of [s.upper()]. *)
Fixpoint upper (s : string) : list N :=
  match s with
  | EmptyString => []
  | String c s' => upper_char c ++ upper s'
  end.

(** [s.upper() == k] for a string [k] of the range. *)
Definition upper_is (s k : string) : bool :=
  if list_eq_dec N.eq_dec (upper s) (code_points k) then true else false.

(* ------------------------------------------------------------------ *)
(** * Tokens *)

Inductive TokenType : Type :=
  (* Keywords *)
  | PROGRAM | BEGIN | END | FUNC | RETURN | IF | THEN | ELSE | WHILE | FOR
  | DO | IN | CLASS | TRY | EXCEPT | USE | DISPLAY
  (* Types *)
  | NUM | STR | BOOL | LIST
  (* Literals *)
  | NUMBER | STRING | TRUE | FALSE
  (* Operators *)
  | PLUS | MINUS | MULTIPLY | DIVIDE | ASSIGN | EQUALS | NOT_EQUALS
  | GREATER | LESS | GREATER_EQUAL | LESS_EQUAL
  (* Punctuation *)
  | LPAREN | RPAREN | LBRACKET | RBRACKET | COMMA | DOT | COLON
  (* Other *)
  | IDENTIFIER | COMMENT | EOF.

(** The member name, as [Enum] prints it after the class name. *)
Definition TokenType_name (t : TokenType) : string :=
  match t with
  | PROGRAM => "PROGRAM" | BEGIN => "BEGIN" | END => "END" | FUNC => "FUNC"
  | RETURN => "RETURN" | IF => "IF" | THEN => "THEN" | ELSE => "ELSE"
  | WHILE => "WHILE" | FOR => "FOR" | DO => "DO" | IN => "IN"
  | CLASS => "CLASS" | TRY => "TRY" | EXCEPT => "EXCEPT" | USE => "USE"
  | DISPLAY => "DISPLAY" | NUM => "NUM" | STR => "STR" | BOOL => "BOOL"
  | LIST => "LIST" | NUMBER => "NUMBER" | STRING => "STRING"
  | TRUE => "TRUE" | FALSE => "FALSE" | PLUS => "PLUS" | MINUS => "MINUS"
  | MULTIPLY => "MULTIPLY" | DIVIDE => "DIVIDE" | ASSIGN => "ASSIGN"
  | EQUALS => "EQUALS" | NOT_EQUALS => "NOT_EQUALS" | GREATER => "GREATER"
  | LESS => "LESS" | GREATER_EQUAL => "GREATER_EQUAL"
  | LESS_EQUAL => "LESS_EQUAL" | LPAREN => "LPAREN" | RPAREN => "RPAREN"
  | LBRACKET => "LBRACKET" | RBRACKET => "RBRACKET" | COMMA => "COMMA"
  | DOT => "DOT" | COLON => "COLON" | IDENTIFIER => "IDENTIFIER"
  | COMMENT => "COMMENT" | EOF => "EOF"
  end.

(** The value [auto()] gives the member: its rank in the class body. *)
Definition TokenType_value (t : TokenType) : N :=
  match t with
  | PROGRAM => 1 | BEGIN => 2 | END => 3 | FUNC => 4 | RETURN => 5
  | IF => 6 | THEN => 7 | ELSE => 8 | WHILE => 9 | FOR => 10 | DO => 11
  | IN => 12 | CLASS => 13 | TRY => 14 | EXCEPT => 15 | USE => 16
  | DISPLAY => 17 | NUM => 18 | STR => 19 | BOOL => 20 | LIST => 21
  | NUMBER => 22 | STRING => 23 | TRUE => 24 | FALSE => 25 | PLUS => 26
  | MINUS => 27 | MULTIPLY => 28 | DIVIDE => 29 | ASSIGN => 30
  | EQUALS => 31 | NOT_EQUALS => 32 | GREATER => 33 | LESS => 34
  | GREATER_EQUAL => 35 | LESS_EQUAL => 36 | LPAREN => 37 | RPAREN => 38
  | LBRACKET => 39 | RBRACKET => 40 | COMMA => 41 | DOT => 42
  | COLON => 43 | IDENTIFIER => 44 | COMMENT => 45 | EOF => 46
  end.

(** [str(t)], as an f-string renders a member: [TokenType.NAME]. *)
Definition TokenType_str (t : TokenType) : string :=
  "TokenType." ++ TokenType_name t.

(** [repr(t)]: [<TokenType.NAME: value>]. *)
Definition TokenType_repr (t : TokenType) : string :=
  "<TokenType." ++ TokenType_name t ++ ": " ++ str_of_N (TokenType_value t)
  ++ ">".

(** Members are compared by identity; they carry distinct values. *)
Definition TokenType_eqb (a b : TokenType) : bool :=
  TokenType_value a =? TokenType_value b.

Record Token : Type := mkToken {
  tok_type : TokenType;
  tok_value : string;
  tok_line : N;
  tok_column : N
}.

(* ------------------------------------------------------------------ *)
(** * Exceptions and outcomes *)

(** The exceptions the three stages raise. *)
Inductive exn : Type :=
  | SyntaxError (msg : string)
  | ValueError (msg : string)
  | KeyError (key : TokenType).

(** [str(e)] *)
Definition exn_str (e : exn) : string :=
  match e with
  | SyntaxError msg => msg
  | ValueError msg => msg
  | KeyError key => TokenType_repr key
  end.

Inductive outcome (A : Type) : Type :=
  | Ok (a : A)
  | Raise (e : exn)
  | OutOfFuel.
Arguments Ok {A} a.
Arguments Raise {A} e.
Arguments OutOfFuel {A}.

(** A method of an object of state [St]. *)
Definition M (St A : Type) : Type := St -> outcome A * St.

Definition ret {St A} (a : A) : M St A := fun s => (Ok a, s).

Definition raise {St A} (e : exn) : M St A := fun s => (Raise e, s).

Definition out_of_fuel {St A} : M St A := fun s => (OutOfFuel, s).

Definition bind {St A B} (m : M St A) (f : A -> M St B) : M St B :=
  fun s =>
    match m s with
    | (Ok a, s') => f a s'
    | (Raise e, s') => (Raise e, s')
    | (OutOfFuel, s') => (OutOfFuel, s')
    end.

Notation "x <- m ;; k" := (bind m (fun x => k))
  (at level 61, m at next level, right associativity).
Notation "m ;;; k" := (bind m (fun _ => k))
  (at level 61, right associativity).

(* ------------------------------------------------------------------ *)
(** * Lexer *)

(** The lexer object.  [lex_rest] is [source[pos:]], the input not yet
    consumed: [current_char] is its first character and [peek()] its
    second.  [pos] never exceeds [len(source)], because [advance] is only
    called on a character. *)
Record Lexer : Type := mkLexer {
  lex_rest : string;
  lex_line : N;
  lex_column : N
}.

(** [Lexer.__init__] *)
Definition Lexer_init (source : string) : Lexer :=
  {| lex_rest := source; lex_line := 1; lex_column := 1 |}.

Definition current_char (l : Lexer) : option ascii :=
  match lex_rest l with
  | String c _ => Some c
  | EmptyString => None
  end.

Definition peek (l : Lexer) : option ascii :=
  match lex_rest l with
  | String _ (String c _) => Some c
  | _ => None
  end.

(** [o == c] for an optional character [o], as in
    [self.current_char == '*'] and [self.peek() == '/']. *)
Definition char_is (o : option ascii) (c : ascii) : bool :=
  match o with
  | Some c' => Ascii.eqb c' c
  | None => false
  end.

Definition advance (l : Lexer) : Lexer :=
  {| lex_rest := match lex_rest l with
                 | String _ r => r
                 | EmptyString => EmptyString
                 end;
     lex_line := lex_line l;
     lex_column := lex_column l + 1 |}.

Definition keywords : list (string * TokenType) :=
  [ ("PROGRAM", PROGRAM); ("BEGIN", BEGIN); ("END", END); ("func", FUNC);
    ("return", RETURN); ("if", IF); ("then", THEN); ("else", ELSE);
    ("while", WHILE); ("for", FOR); ("do", DO); ("in", IN);
    ("class", CLASS); ("try", TRY); ("except", EXCEPT); ("use", USE);
    ("display", DISPLAY); ("num", NUM); ("str", STR); ("bool", BOOL);
    ("list", LIST); ("true", TRUE); ("false", FALSE) ].

(** [keywords.get(k, default)] *)
Fixpoint dict_get {V} (d : list (string * V)) (k : string) (default : V) : V :=
  match d with
  | [] => default
  | (k', v) :: d' => if String.eqb k k' then v else dict_get d' k default
  end.

(** [skip_whitespace]: the loop, by recursion on the unread input. *)
Fixpoint skip_whitespace_from (rest : string) (line column : N) : Lexer :=
  match rest with
  | String c rest' =>
      if isspace c then
        if Ascii.eqb c LF
        then skip_whitespace_from rest' (line + 1) (0 + 1)
        else skip_whitespace_from rest' line (column + 1)
      else mkLexer rest line column
  | EmptyString => mkLexer rest line column
  end.

Definition skip_whitespace (l : Lexer) : Lexer :=
  skip_whitespace_from (lex_rest l) (lex_line l) (lex_column l).

(** The loop shared by [read_number], [read_identifier], [read_string] and
    the line comment:
    [while self.current_char and keep(self.current_char):
       result += self.current_char; self.advance()]. *)
Fixpoint scan_from (keep : ascii -> bool) (rest result : string)
    (line column : N) : string * Lexer :=
  match rest with
  | String c rest' =>
      if keep c
      then scan_from keep rest' (result ++ String c EmptyString) line
             (column + 1)
      else (result, mkLexer rest line column)
  | EmptyString => (result, mkLexer rest line column)
  end.

Definition scan (keep : ascii -> bool) (result : string) (l : Lexer)
    : string * Lexer :=
  scan_from keep (lex_rest l) result (lex_line l) (lex_column l).

Definition read_number (l : Lexer) : Token * Lexer :=
  let start_column := lex_column l in
  let (result, l') := scan (fun c => isdigit c || Ascii.eqb c ".") "" l in
  (mkToken NUMBER result (lex_line l') start_column, l').

Definition read_identifier (l : Lexer) : Token * Lexer :=
  let start_column := lex_column l in
  let (result, l') := scan (fun c => isalnum c || Ascii.eqb c "_") "" l in
  let token_type := dict_get keywords result IDENTIFIER in
  (mkToken token_type result (lex_line l') start_column, l').

Definition read_string (l : Lexer) : Token * Lexer :=
  let start_column := lex_column l in
  let l0 := advance l in
  let (result, l1) := scan (fun c => negb (Ascii.eqb c DQUOTE)) "" l0 in
  let l2 := if char_is (current_char l1) DQUOTE then advance l1 else l1 in
  (mkToken STRING result (lex_line l2) start_column, l2).

(** The loop of the block comment, by recursion on the unread input;
    it returns the comment text and the lexer after the loop. *)
Fixpoint block_comment_from (rest comment : string) (line column : N)
    : string * Lexer :=
  match rest with
  | String c rest' =>
      let l := mkLexer rest line column in
      if Ascii.eqb c "*" && char_is (peek l) "/"
      then (comment, advance (advance l))
      else
        if Ascii.eqb c LF
        then block_comment_from rest' (comment ++ String c EmptyString)
               (line + 1) (0 + 1)
        else block_comment_from rest' (comment ++ String c EmptyString)
               line (column + 1)
  | EmptyString => (comment, mkLexer rest line column)
  end.

Definition read_comment (l : Lexer) : option Token * Lexer :=
  if char_is (current_char l) "#" then
    let start_column := lex_column l in
    let (comment, l') := scan (fun c => negb (Ascii.eqb c LF)) "" l in
    (Some (mkToken COMMENT comment (lex_line l') start_column), l')
  else if char_is (current_char l) "/" && char_is (peek l) "*" then
    let start_column := lex_column l in
    let l0 := advance (advance l) in
    let (comment, l') :=
      block_comment_from (lex_rest l0) "" (lex_line l0) (lex_column l0) in
    (Some (mkToken COMMENT comment (lex_line l') start_column), l')
  else (None, l).

(** The one-character tokens, in the order the method tests them. *)
Definition punctuation : list (ascii * TokenType) :=
  [ ("+"%char, PLUS); ("-"%char, MINUS); ("*"%char, MULTIPLY);
    ("/"%char, DIVIDE); ("("%char, LPAREN); (")"%char, RPAREN);
    ("["%char, LBRACKET); ("]"%char, RBRACKET); (","%char, COMMA);
    ("."%char, DOT); (":"%char, COLON) ].

Fixpoint punctuation_get (d : list (ascii * TokenType)) (c : ascii)
    : option TokenType :=
  match d with
  | [] => None
  | (c', t) :: d' => if Ascii.eqb c c' then Some t else punctuation_get d' c
  end.

Definition invalid_character (c : ascii) (line column : N) : exn :=
  SyntaxError ("Invalid character '" ++ String c EmptyString ++ "' at line "
               ++ str_of_N line ++ ", column " ++ str_of_N column).

(** One pass of the body of the [while] loop of [get_next_token] on a
    character that is not white space. *)
Definition scan_token (c : ascii) (l : Lexer) : outcome Token * Lexer :=
  match read_comment l with
  | (Some comment_token, l') => (Ok comment_token, l')
  | (None, l) =>
      if isdigit c then let (t, l') := read_number l in (Ok t, l')
      else if isalpha c || Ascii.eqb c "_"
      then let (t, l') := read_identifier l in (Ok t, l')
      else if Ascii.eqb c DQUOTE
      then let (t, l') := read_string l in (Ok t, l')
      else if Ascii.eqb c "=" then
        let start_column := lex_column l in
        let l1 := advance l in
        if char_is (current_char l1) "=" then
          let l2 := advance l1 in
          (Ok (mkToken EQUALS "==" (lex_line l2) start_column), l2)
        else (Ok (mkToken ASSIGN "=" (lex_line l1) start_column), l1)
      else
        match punctuation_get punctuation c with
        | Some t =>
            (Ok (mkToken t (String c EmptyString) (lex_line l)
                   (lex_column l)), advance l)
        | None => (Raise (invalid_character c (lex_line l) (lex_column l)), l)
        end
  end.

(** [get_next_token].  On white space the loop calls [skip_whitespace] and
    starts over; [skip_whitespace] stops at the end of the input or on a
    character that is not white space (lemma [skip_whitespace_stops]), so
    the second pass is the last one.  Lemma [get_next_token_loop] is the
    equation of the loop. *)
Definition get_next_token : M Lexer Token := fun l =>
  let l :=
    match current_char l with
    | Some c => if isspace c then skip_whitespace l else l
    | None => l
    end in
  match current_char l with
  | Some c => scan_token c l
  | None => (Ok (mkToken EOF "" (lex_line l) (lex_column l)), l)
  end.

(* ------------------------------------------------------------------ *)
(** * Floating-point literals: [float(s)] and [str(x)] *)

Local Open Scope Z_scope.

(** The values [float] returns on a NUMBER lexeme: zero, a positive
    binary64 number [m * 2^e] (with [2^52 <= m < 2^53], or [e = -1074] for
    a subnormal), or infinity.  A lexeme carries no sign. *)
Inductive float64 : Type :=
  | Fzero
  | Ffinite (m e : Z)
  | Finf.

Definition float64_eqb (x y : float64) : bool :=
  match x, y with
  | Fzero, Fzero => true
  | Ffinite m e, Ffinite m' e' => (m =? m') && (e =? e')
  | Finf, Finf => true
  | _, _ => false
  end.

(** The binary64 number nearest to [P / Q] (ties to even), for [0 <= P]
    and [0 < Q]. *)
Definition round_ratio (P Q : Z) : float64 :=
  if P =? 0 then Fzero
  else
    let d := Z.log2 P - Z.log2 Q in
    let L := if (if 0 <=? d then Q * 2 ^ d <=? P else Q <=? P * 2 ^ (- d))
             then d else d - 1 in
    let e := Z.max (L - 52) (-1074) in
    let num := if 0 <=? e then P else P * 2 ^ (- e) in
    let den := if 0 <=? e then Q * 2 ^ e else Q in
    let q := num / den in
    let r := num mod den in
    let m := if (den <? 2 * r) || ((den =? 2 * r) && Z.odd q)
             then q + 1 else q in
    let e := if m =? 2 ^ 53 then e + 1 else e in
    let m := if m =? 2 ^ 53 then 2 ^ 52 else m in
    if m =? 0 then Fzero else if 971 <? e then Finf else Ffinite m e.

Definition decimal_digit (c : ascii) : option Z :=
  let n := N_of_ascii c in
  if between 48 57 n then Some (Z.of_N n - 48) else None.

Fixpoint read_digits (s : string) (acc : Z) : option Z :=
  match s with
  | EmptyString => Some acc
  | String c s' =>
      match decimal_digit c with
      | Some d => read_digits s' (10 * acc + d)
      | None => None
      end
  end.

(** The text before the first dot, and the text after it if there is one. *)
Fixpoint split_dot (s : string) : string * option string :=
  match s with
  | EmptyString => (EmptyString, None)
  | String c s' =>
      if Ascii.eqb c "."
      then (EmptyString, Some s')
      else let (a, b) := split_dot s' in (String c a, b)
  end.

(** [float(s)] on a text without sign, exponent, blanks or underscores
    (a NUMBER lexeme has none): digits with at most one dot and at least
    one digit; anything else is a [ValueError]. *)
Definition py_float (s : string) : option float64 :=
  let (int_part, frac) := split_dot s in
  let frac_part := match frac with Some f => f | None => EmptyString end in
  if Nat.eqb (String.length int_part + String.length frac_part) 0 then None
  else
    match read_digits (int_part ++ frac_part) 0 with
    | Some P => Some (round_ratio P (10 ^ Z.of_nat (String.length frac_part)))
    | None => None
    end.

Definition float_error (s : string) : exn :=
  ValueError ("could not convert string to float: '" ++ s ++ "'").

(** [x = n / d] for a finite [x]. *)
Definition float_ratio (m e : Z) : Z * Z :=
  if 0 <=? e then (m * 2 ^ e, 1) else (m, 2 ^ (- e)).

(** The least [k >= 1] with [d <= n * 10^k], for [n / d < 1]. *)
Fixpoint small_exponent (fuel : nat) (n d k : Z) : Z :=
  match fuel with
  | O => k
  | S fuel' =>
      if d <=? n * 10 ^ k then k else small_exponent fuel' n d (k + 1)
  end.

(** The decimal exponent [p] of [n / d]: [10^(p-1) <= n / d < 10^p]. *)
Definition decimal_exponent (n d : Z) : Z :=
  if d <=? n
  then Z.of_nat (String.length (str_of_N (Z.to_N (n / d))))
  else 1 - small_exponent 400 n d 1.

(** The [nd]-digit decimal [c * 10^j] nearest to [m * 2^e] that reads back
    as [m * 2^e], if one of the two neighbours does (ties to the even
    one). *)
Definition short_candidate (m e p nd : Z) : option (Z * Z) :=
  let j := p - nd in
  let (n, d) := float_ratio m e in
  let xn := if 0 <=? j then n else n * 10 ^ (- j) in
  let xd := if 0 <=? j then d * 10 ^ j else d in
  let lo := xn / xd in
  let r := xn mod xd in
  let hi := lo + 1 in
  let reads_back c :=
    float64_eqb
      (if 0 <=? j then round_ratio (c * 10 ^ j) 1
       else round_ratio c (10 ^ (- j)))
      (Ffinite m e) in
  let lower_first := (2 * r <? xd) || ((2 * r =? xd) && Z.even lo) in
  let c1 := if lower_first then lo else hi in
  let c2 := if lower_first then hi else lo in
  if reads_back c1 then Some (c1, j)
  else if reads_back c2 then Some (c2, j)
  else None.

(** The shortest decimal that reads back, trying 1, 2, ... digits. *)
Fixpoint shortest_from (fuel : nat) (m e p nd : Z) : Z * Z :=
  match fuel with
  | O => (m, 0)
  | S fuel' =>
      match short_candidate m e p nd with
      | Some cj => cj
      | None => shortest_from fuel' m e p (nd + 1)
      end
  end.

Fixpoint strip_zeros_rev (s : list ascii) : list ascii :=
  match s with
  | "0"%char :: s' => strip_zeros_rev s'
  | _ => s
  end.

Definition strip_trailing_zeros (s : string) : string :=
  string_of_list_ascii
    (rev (strip_zeros_rev (rev (list_ascii_of_string s)))).

Definition str_of_Z (z : Z) : string :=
  if z <? 0 then "-" ++ str_of_N (Z.to_N (- z)) else str_of_N (Z.to_N z).

(** [str(x)] (the same as [repr(x)]) of a float: the shortest digits that
    read back, in positional notation when the decimal point falls within
    [-4 < decpt <= 16] and in exponent notation otherwise. *)
Definition py_str_float (x : float64) : string :=
  match x with
  | Fzero => "0.0"
  | Finf => "inf"
  | Ffinite m e =>
      let (n, d) := float_ratio m e in
      let p := decimal_exponent n d in
      let (c, j) := shortest_from 17 m e p 1 in
      let all := str_of_N (Z.to_N c) in
      let digits := strip_trailing_zeros all in
      let ndigits := Z.of_nat (String.length digits) in
      let decpt := j + Z.of_nat (String.length all) in
      if (decpt <=? -4) || (16 <? decpt) then
        let x10 := decpt - 1 in
        let mantissa :=
          match digits with
          | String d0 EmptyString => digits
          | String d0 ds => String d0 ("." ++ ds)
          | EmptyString => digits
          end in
        let ex := str_of_N (Z.to_N (Z.abs x10)) in
        mantissa ++ "e" ++ (if x10 <? 0 then "-" else "+")
        ++ (if Nat.ltb (String.length ex) 2 then "0" ++ ex else ex)
      else if decpt <=? 0 then
        "0." ++ str_repeat "0" (Z.to_nat (- decpt)) ++ digits
      else if ndigits <=? decpt then
        digits ++ str_repeat "0" (Z.to_nat (decpt - ndigits)) ++ ".0"
      else
        substring 0 (Z.to_nat decpt) digits ++ "."
        ++ substring (Z.to_nat decpt) (Z.to_nat (ndigits - decpt)) digits
  end.

Local Close Scope Z_scope.

(* ------------------------------------------------------------------ *)
(** * AST nodes *)

(** The subclasses of [ASTNode].  The class [String] is [StringLit] here,
    the name being taken by the constructor of Rocq strings. *)
#[warnings="-register-all"]
Inductive ASTNode : Type :=
  | Program (description author date : option string) (body : list ASTNode)
  | FunctionDecl (name : string) (params : list (string * option string))
      (return_type : option string) (body : list ASTNode)
  | VariableDecl (name : string) (type : option string) (value : ASTNode)
  | Assignment (target : string) (value : ASTNode)
  | BinaryOp (left : ASTNode) (operator : TokenType) (right : ASTNode)
  | Number (value : float64)
  | StringLit (value : string)
  | Boolean (value : bool)
  | Identifier (name : string)
  | Display (value : ASTNode).

(* ------------------------------------------------------------------ *)
(** * Parser *)

Record Parser : Type := mkParser {
  lexer : Lexer;
  current_token : Token
}.

(** [Parser.__init__]: the first token is read at once; a lexical error
    leaves no parser. *)
Definition Parser_init (l : Lexer) : outcome Parser * Lexer :=
  match get_next_token l with
  | (Ok t, l') => (Ok (mkParser l' t), l')
  | (Raise e, l') => (Raise e, l')
  | (OutOfFuel, l') => (OutOfFuel, l')
  end.

Definition error {A} (message : string) : M Parser A := fun p =>
  (Raise (SyntaxError
            (message ++ " at line " ++ str_of_N (tok_line (current_token p))
             ++ ", column " ++ str_of_N (tok_column (current_token p)))), p).

Definition eat (token_type : TokenType) : M Parser unit := fun p =>
  if TokenType_eqb (tok_type (current_token p)) token_type then
    match get_next_token (lexer p) with
    | (Ok t, l') => (Ok tt, mkParser l' t)
    | (Raise e, l') => (Raise e, mkParser l' (current_token p))
    | (OutOfFuel, l') => (OutOfFuel, mkParser l' (current_token p))
    end
  else
    error ("Expected " ++ TokenType_str token_type ++ ", got "
           ++ TokenType_str (tok_type (current_token p))) p.

(** Reading [self.current_token]. *)
Definition current : M Parser Token := fun p => (Ok (current_token p), p).

(** [while cond: acc = body(acc)], one unit of fuel for each pass. *)
Fixpoint while (fuel : nat) {St A} (cond : St -> bool) (body : A -> M St A)
    (acc : A) : M St A := fun s =>
  if cond s then
    match fuel with
    | O => (OutOfFuel, s)
    | S fuel' => (a <- body acc ;; while fuel' cond body a) s
    end
  else (Ok acc, s).

Definition current_in (types : list TokenType) (p : Parser) : bool :=
  existsb (TokenType_eqb (tok_type (current_token p))) types.

Definition parse_factor (parse_expression : M Parser ASTNode)
    : M Parser ASTNode :=
  token <- current ;;
  match tok_type token with
  | NUMBER =>
      eat NUMBER ;;;
      match py_float (tok_value token) with
      | Some x => ret (Number x)
      | None => raise (float_error (tok_value token))
      end
  | STRING => eat STRING ;;; ret (StringLit (tok_value token))
  | TRUE | FALSE =>
      eat (tok_type token) ;;;
      ret (Boolean (TokenType_eqb (tok_type token) TRUE))
  | IDENTIFIER => eat IDENTIFIER ;;; ret (Identifier (tok_value token))
  | LPAREN =>
      eat LPAREN ;;;
      node <- parse_expression ;;
      eat RPAREN ;;;
      ret node
  | _ => error ("Unexpected factor token: " ++ TokenType_str (tok_type token))
  end.

Definition parse_term (fuel : nat) (parse_expression : M Parser ASTNode)
    : M Parser ASTNode :=
  node <- parse_factor parse_expression ;;
  while fuel (current_in [MULTIPLY; DIVIDE])
    (fun node =>
       token <- current ;;
       let operator := tok_type token in
       eat operator ;;;
       right <- parse_factor parse_expression ;;
       ret (BinaryOp node operator right))
    node.

Fixpoint parse_expression (fuel : nat) : M Parser ASTNode :=
  match fuel with
  | O => out_of_fuel
  | S fuel' =>
      node <- parse_term fuel' (parse_expression fuel') ;;
      while fuel' (current_in [PLUS; MINUS])
        (fun node =>
           token <- current ;;
           let operator := tok_type token in
           eat operator ;;;
           right <- parse_term fuel' (parse_expression fuel') ;;
           ret (BinaryOp node operator right))
        node
  end.

Definition parse_display (fuel : nat) : M Parser ASTNode :=
  eat DISPLAY ;;;
  value <- parse_expression fuel ;;
  ret (Display value).

Definition parse_assignment (fuel : nat) : M Parser ASTNode :=
  token <- current ;;
  let name := tok_value token in
  eat IDENTIFIER ;;;
  eat ASSIGN ;;;
  value <- parse_expression fuel ;;
  ret (Assignment name value).

Definition parse_variable_declaration (fuel : nat) : M Parser ASTNode :=
  token <- current ;;
  let var_type := tok_value token in
  eat (tok_type token) ;;;
  token <- current ;;
  let name := tok_value token in
  eat IDENTIFIER ;;;
  eat ASSIGN ;;;
  value <- parse_expression fuel ;;
  ret (VariableDecl name (Some var_type) value).

(** [body.append(statement)] when the statement is not [None]. *)
Definition append_statement (body : list ASTNode)
    (statement : option ASTNode) : list ASTNode :=
  match statement with
  | Some node => (body ++ [node])%list
  | None => body
  end.

(** One pass of the parameter loop of [parse_function]. *)
Definition parse_param (params : list (string * option string))
    : M Parser (list (string * option string)) :=
  token <- current ;;
  let param_name := tok_value token in
  eat IDENTIFIER ;;;
  token <- current ;;
  param_type <-
    (if TokenType_eqb (tok_type token) COLON then
       eat COLON ;;;
       token <- current ;;
       eat IDENTIFIER ;;;
       ret (Some (tok_value token))
     else ret None) ;;
  token <- current ;;
  (if TokenType_eqb (tok_type token) COMMA then eat COMMA else ret tt) ;;;
  ret (params ++ [(param_name, param_type)])%list.

(** The parameter loop of [parse_function]. *)
Definition parse_function_params (fuel : nat)
    : M Parser (list (string * option string)) :=
  while fuel (fun p => negb (current_in [RPAREN] p)) parse_param [].

Definition parse_function (fuel : nat)
    (parse_statement : M Parser (option ASTNode)) : M Parser ASTNode :=
  eat FUNC ;;;
  token <- current ;;
  let name := tok_value token in
  eat IDENTIFIER ;;;
  eat LPAREN ;;;
  params <- parse_function_params fuel ;;
  eat RPAREN ;;;
  token <- current ;;
  return_type <-
    (if TokenType_eqb (tok_type token) RETURN then
       eat RETURN ;;;
       token <- current ;;
       eat IDENTIFIER ;;;
       ret (Some (tok_value token))
     else ret None) ;;
  body <-
    while fuel (fun p => negb (current_in [END] p))
      (fun body =>
         statement <- parse_statement ;;
         ret (append_statement body statement))
      [] ;;
  eat END ;;;
  ret (FunctionDecl name params return_type body).

Fixpoint parse_statement (fuel : nat) : M Parser (option ASTNode) :=
  match fuel with
  | O => out_of_fuel
  | S fuel' =>
      token <- current ;;
      match tok_type token with
      | COMMENT => eat COMMENT ;;; ret None
      | FUNC =>
          node <- parse_function fuel' (parse_statement fuel') ;;
          ret (Some node)
      | NUM | STR | BOOL | LIST =>
          node <- parse_variable_declaration fuel' ;; ret (Some node)
      | IDENTIFIER => node <- parse_assignment fuel' ;; ret (Some node)
      | DISPLAY => node <- parse_display fuel' ;; ret (Some node)
      | _ => error ("Unexpected token " ++ TokenType_str (tok_type token))
      end
  end.

(** The metadata fields of [parse_program]. *)
Record metadata : Type := mkMetadata {
  md_description : option string;
  md_author : option string;
  md_date : option string
}.

Definition parse_program (fuel : nat) : M Parser ASTNode :=
  eat PROGRAM ;;;
  eat BEGIN ;;;
  md <-
    while fuel (current_in [IDENTIFIER])
      (fun md =>
         token <- current ;;
         let metadata_type := tok_value token in
         eat IDENTIFIER ;;;
         token <- current ;;
         let value := tok_value token in
         eat STRING ;;;
         ret (if upper_is metadata_type "DESCRIPTION"
              then mkMetadata (Some value) (md_author md) (md_date md)
              else if upper_is metadata_type "AUTHOR"
              then mkMetadata (md_description md) (Some value) (md_date md)
              else if upper_is metadata_type "DATE"
              then mkMetadata (md_description md) (md_author md) (Some value)
              else md))
      (mkMetadata None None None) ;;
  body <-
    while fuel (fun p => negb (current_in [PROGRAM] p))
      (fun body =>
         token <- current ;;
         (if TokenType_eqb (tok_type token) EOF
          then error "Unexpected end of file" else ret tt) ;;;
         statement <- parse_statement fuel ;;
         ret (append_statement body statement))
      [] ;;
  eat PROGRAM ;;;
  eat END ;;;
  ret (Program (md_description md) (md_author md) (md_date md) body).

(* ------------------------------------------------------------------ *)
(** * Code generator *)

(** What a visitor returns: [None] (the statement visitors) or a string. *)
Inductive pyval : Type :=
  | PyNone
  | PyStr (s : string).

(** A value inside an f-string. *)
Definition format (v : pyval) : string :=
  match v with
  | PyNone => "None"
  | PyStr s => s
  end.

(** [str(b)] *)
Definition str_of_bool (b : bool) : string := if b then "True" else "False".

(** The entry [{"type": symbol_type, "value": value}] of the table. *)
Record symbol : Type := mkSymbol {
  sym_type : option string;
  sym_value : pyval
}.

#[warnings="-register-all"]
Inductive SymbolTable : Type :=
  | mkSymbolTable (symbols : list (string * symbol))
      (parent : option SymbolTable).

Definition symbols (t : SymbolTable) : list (string * symbol) :=
  match t with mkSymbolTable s _ => s end.

Definition parent (t : SymbolTable) : option SymbolTable :=
  match t with mkSymbolTable _ p => p end.

(** [d[k] = v]: the entry of an existing key is replaced in place. *)
Fixpoint dict_set {V} (d : list (string * V)) (k : string) (v : V)
    : list (string * V) :=
  match d with
  | [] => [(k, v)]
  | (k', v') :: d' =>
      if String.eqb k k' then (k, v) :: d' else (k', v') :: dict_set d' k v
  end.

Fixpoint dict_find {V} (d : list (string * V)) (k : string) : option V :=
  match d with
  | [] => None
  | (k', v) :: d' => if String.eqb k k' then Some v else dict_find d' k
  end.

Definition define (name : string) (symbol_type : option string)
    (value : pyval) (t : SymbolTable) : SymbolTable :=
  mkSymbolTable (dict_set (symbols t) name (mkSymbol symbol_type value))
    (parent t).

Fixpoint lookup (name : string) (t : SymbolTable) : option symbol :=
  match t with
  | mkSymbolTable s p =>
      match dict_find s name, p with
      | None, Some t' => lookup name t'
      | found, _ => found
      end
  end.

Record CodeGenerator : Type := mkCodeGenerator {
  symbol_table : SymbolTable;
  output : list string;
  indent_level : Z
}.

(** [CodeGenerator.__init__] *)
Definition CodeGenerator_init : CodeGenerator :=
  {| symbol_table := mkSymbolTable [] None; output := []; indent_level := 0 |}.

Definition indent : M CodeGenerator unit := fun g =>
  (Ok tt, mkCodeGenerator (symbol_table g) (output g) (indent_level g + 1)).

Definition dedent : M CodeGenerator unit := fun g =>
  (Ok tt, mkCodeGenerator (symbol_table g) (output g) (indent_level g - 1)).

Definition emit (code : string) : M CodeGenerator unit := fun g =>
  (Ok tt,
   mkCodeGenerator (symbol_table g)
     (output g ++ [(str_mul "    " (indent_level g) ++ code)%string])%list
     (indent_level g)).

Definition symbol_table_define (name : string) (symbol_type : option string)
    (value : pyval) : M CodeGenerator unit := fun g =>
  (Ok tt,
   mkCodeGenerator (define name symbol_type value (symbol_table g))
     (output g) (indent_level g)).

(** The truth value of an optional string: neither [None] nor empty. *)
Definition truthy (s : option string) : bool :=
  match s with
  | Some (String _ _) => true
  | _ => false
  end.

Definition when {St} (b : bool) (m : M St unit) : M St unit :=
  if b then m else ret tt.

Definition some_str (s : option string) : string :=
  match s with
  | Some s => s
  | None => "None"
  end.

(** [op_map[operator]] *)
Definition op_map (operator : TokenType) : option string :=
  match operator with
  | PLUS => Some "+"
  | MINUS => Some "-"
  | MULTIPLY => Some "*"
  | DIVIDE => Some "/"
  | _ => None
  end.

(** The comment lines of the typed parameters of a function. *)
Fixpoint emit_params (params : list (string * option string))
    : M CodeGenerator unit :=
  match params with
  | [] => ret tt
  | (name, param_type) :: params' =>
      when (truthy param_type)
        (emit ("# Parameter " ++ name ++ ": " ++ some_str param_type)) ;;;
      emit_params params'
  end.

(** [visit]: every class of node has its [visit_] method, so the dispatch
    on the class name is a match and [generic_visit] is never chosen. *)
Fixpoint visit (node : ASTNode) : M CodeGenerator pyval :=
  let visit_all :=
    fix visit_all (body : list ASTNode) : M CodeGenerator unit :=
      match body with
      | [] => ret tt
      | statement :: body' => visit statement ;;; visit_all body'
      end in
  match node with
  | Program description author date body =>
      emit "# Generated Python code" ;;;
      when (truthy description)
        (emit ("# Description: " ++ some_str description)) ;;;
      when (truthy author) (emit ("# Author: " ++ some_str author)) ;;;
      when (truthy date) (emit ("# Date: " ++ some_str date)) ;;;
      emit "" ;;;
      visit_all body ;;;
      (fun g => (Ok (PyStr (String.concat nl (output g))), g))
  | FunctionDecl name params return_type body =>
      let params_text := String.concat ", " (map fst params) in
      emit ("def " ++ name ++ "(" ++ params_text ++ "):") ;;;
      indent ;;;
      emit_params params ;;;
      when (truthy return_type)
        (emit ("# Returns: " ++ some_str return_type)) ;;;
      visit_all body ;;;
      dedent ;;;
      emit "" ;;;
      ret PyNone
  | VariableDecl name type value =>
      value <- visit value ;;
      symbol_table_define name type value ;;;
      emit (name ++ " = " ++ format value) ;;;
      ret PyNone
  | Assignment target value =>
      value <- visit value ;;
      emit (target ++ " = " ++ format value) ;;;
      ret PyNone
  | BinaryOp left_node operator right_node =>
      left <- visit left_node ;;
      right <- visit right_node ;;
      match op_map operator with
      | Some op =>
          ret (PyStr ("(" ++ format left ++ " " ++ op ++ " " ++ format right
                      ++ ")"))
      | None => raise (KeyError operator)
      end
  | Number value => ret (PyStr (py_str_float value))
  | StringLit value =>
      ret (PyStr (String DQUOTE value ++ String DQUOTE EmptyString))
  | Boolean value => ret (PyStr (str_of_bool value))
  | Identifier name => ret (PyStr name)
  | Display value =>
      value <- visit value ;;
      emit ("print(" ++ format value ++ ")") ;;;
      ret PyNone
  end.

(** The statements of a body, visited in order. *)
Fixpoint visit_all (body : list ASTNode) : M CodeGenerator unit :=
  match body with
  | [] => ret tt
  | statement :: body' => visit statement ;;; visit_all body'
  end.

(* ------------------------------------------------------------------ *)
(** * The compiler object *)

Record NovaScriptCompiler : Type := mkCompiler {
  self_lexer : option Lexer;
  self_parser : option Parser;
  self_code_generator : option CodeGenerator
}.

(** [NovaScriptCompiler.__init__] *)
Definition NovaScriptCompiler_init : NovaScriptCompiler :=
  mkCompiler None None None.

(** Enough fuel for a source text (theorem [compile_total]). *)
Definition fuel_for (source_code : string) : nat :=
  S (S (String.length source_code)).

Definition compilation_error (e : exn) : pyval :=
  PyStr ("Compilation error: " ++ exn_str e).

(** [compile].  The lexer object is shared with the parser, so the
    attribute [lexer] ends in the state the parser left it in. *)
Definition compile (source_code : string) : M NovaScriptCompiler pyval :=
  fun self =>
    let l0 := Lexer_init source_code in
    match Parser_init l0 with
    | (Raise e, l1) =>
        (Ok (compilation_error e),
         mkCompiler (Some l1) (self_parser self) (self_code_generator self))
    | (OutOfFuel, l1) =>
        (OutOfFuel,
         mkCompiler (Some l1) (self_parser self) (self_code_generator self))
    | (Ok p0, _) =>
        match parse_program (fuel_for source_code) p0 with
        | (Raise e, p1) =>
            (Ok (compilation_error e),
             mkCompiler (Some (lexer p1)) (Some p1)
               (self_code_generator self))
        | (OutOfFuel, p1) =>
            (OutOfFuel,
             mkCompiler (Some (lexer p1)) (Some p1)
               (self_code_generator self))
        | (Ok ast, p1) =>
            match visit ast CodeGenerator_init with
            | (Ok python_code, g1) =>
                (Ok python_code,
                 mkCompiler (Some (lexer p1)) (Some p1) (Some g1))
            | (Raise e, g1) =>
                (Ok (compilation_error e),
                 mkCompiler (Some (lexer p1)) (Some p1) (Some g1))
            | (OutOfFuel, g1) =>
                (OutOfFuel,
                 mkCompiler (Some (lexer p1)) (Some p1) (Some g1))
            end
        end
    end.

(* ------------------------------------------------------------------ *)
(** * Definitions used to state the properties *)

(** ** Termination measure and weakest preconditions *)

(** The number of characters not yet consumed. *)
Definition remaining (l : Lexer) : nat := String.length (lex_rest l).

Definition is_eof (t : Token) : bool := TokenType_eqb (tok_type t) EOF.

(** [wp m Q s]: from [s] the method [m] does not run out of fuel, and if
    it returns [a] in state [s'] then [Q a s'] (an exception is a proper
    outcome). *)
Definition wp {St A} (m : M St A) (Q : A -> St -> Prop) (s : St) : Prop :=
  match m s with
  | (Ok a, s') => Q a s'
  | (Raise _, _) => True
  | (OutOfFuel, _) => False
  end.

(** The measure that every successful [eat] decreases: the characters not
    yet consumed, and one more while the current token is not EOF. *)
Definition measure (p : Parser) : nat :=
  remaining (lexer p) + (if is_eof (current_token p) then 0 else 1).

(** ** The trees of the grammar *)

(** The operators of the arithmetic expressions. *)
Definition is_arith (operator : TokenType) : bool :=
  existsb (TokenType_eqb operator) [PLUS; MINUS; MULTIPLY; DIVIDE].

(** Every [BinaryOp] of the tree carries an arithmetic operator. *)
Fixpoint operators_ok (node : ASTNode) : bool :=
  match node with
  | Program _ _ _ body => forallb operators_ok body
  | FunctionDecl _ _ _ body => forallb operators_ok body
  | VariableDecl _ _ value => operators_ok value
  | Assignment _ value => operators_ok value
  | BinaryOp left_node operator right_node =>
      is_arith operator && operators_ok left_node && operators_ok right_node
  | Number _ | StringLit _ | Boolean _ | Identifier _ => true
  | Display value => operators_ok value
  end.

(** An expression is a literal, an identifier or an arithmetic operation
    on expressions. *)
Fixpoint expr_ok (node : ASTNode) : bool :=
  match node with
  | BinaryOp left_node operator right_node =>
      is_arith operator && expr_ok left_node && expr_ok right_node
  | Number _ | StringLit _ | Boolean _ | Identifier _ => true
  | _ => false
  end.

(** A statement is a function of statements, or a declaration, an
    assignment or a display of an expression. *)
Fixpoint stmt_ok (node : ASTNode) : bool :=
  match node with
  | FunctionDecl _ _ _ body => forallb stmt_ok body
  | VariableDecl _ _ value => expr_ok value
  | Assignment _ value => expr_ok value
  | Display value => expr_ok value
  | _ => false
  end.

(** A program is a [Program] node of statements. *)
Definition program_ok (node : ASTNode) : bool :=
  match node with
  | Program _ _ _ body => forallb stmt_ok body
  | _ => false
  end.

(** A parsed node: it satisfies [ok] and the parser has moved on from
    [p]. *)
Definition parsed (ok : ASTNode -> bool) (p : Parser) (node : ASTNode)
    (p' : Parser) : Prop :=
  ok node = true /\ (measure p' < measure p)%nat.

(** A parsed statement ([None] for a comment). *)
Definition parsed_statement (p : Parser) (statement : option ASTNode)
    (p' : Parser) : Prop :=
  (forall node, statement = Some node -> stmt_ok node = true)
  /\ (measure p' < measure p)%nat.

(** Induction on a tree, with the property on every statement of a body. *)
Section ASTNode_induction.
Variable P : ASTNode -> Prop.
Hypothesis HProgram : forall description author date body,
  Forall P body -> P (Program description author date body).
Hypothesis HFunctionDecl : forall name params return_type body,
  Forall P body -> P (FunctionDecl name params return_type body).
Hypothesis HVariableDecl : forall name type value,
  P value -> P (VariableDecl name type value).
Hypothesis HAssignment : forall target value,
  P value -> P (Assignment target value).
Hypothesis HBinaryOp : forall left_node operator right_node,
  P left_node -> P right_node -> P (BinaryOp left_node operator right_node).
Hypothesis HNumber : forall value, P (Number value).
Hypothesis HStringLit : forall value, P (StringLit value).
Hypothesis HBoolean : forall value, P (Boolean value).
Hypothesis HIdentifier : forall name, P (Identifier name).
Hypothesis HDisplay : forall value, P value -> P (Display value).

Fixpoint ASTNode_nested_ind (node : ASTNode) : P node :=
  let all :=
    fix all (body : list ASTNode) : Forall P body :=
      match body with
      | [] => Forall_nil P
      | statement :: body' =>
          Forall_cons statement (ASTNode_nested_ind statement) (all body')
      end in
  match node with
  | Program description author date body =>
      HProgram description author date body (all body)
  | FunctionDecl name params return_type body =>
      HFunctionDecl name params return_type body (all body)
  | VariableDecl name type value =>
      HVariableDecl name type value (ASTNode_nested_ind value)
  | Assignment target value =>
      HAssignment target value (ASTNode_nested_ind value)
  | BinaryOp left_node operator right_node =>
      HBinaryOp left_node operator right_node
        (ASTNode_nested_ind left_node) (ASTNode_nested_ind right_node)
  | Number value => HNumber value
  | StringLit value => HStringLit value
  | Boolean value => HBoolean value
  | Identifier name => HIdentifier name
  | Display value => HDisplay value (ASTNode_nested_ind value)
  end.
End ASTNode_induction.

(** ** The text of an expression and the lines of a statement *)

(** The text of an arithmetic operator. *)
Definition op_text (operator : TokenType) : string :=
  match op_map operator with
  | Some op => op
  | None => ""
  end.

Fixpoint expr_text (node : ASTNode) : string :=
  match node with
  | BinaryOp left_node operator right_node =>
      "(" ++ expr_text left_node ++ " " ++ op_text operator ++ " "
      ++ expr_text right_node ++ ")"
  | Number value => py_str_float value
  | StringLit value => String DQUOTE value ++ String DQUOTE EmptyString
  | Boolean value => str_of_bool value
  | Identifier name => name
  | _ => ""
  end.

(** A line of code at a nesting depth. *)
Definition indented (level : Z) (code : string) : string :=
  str_mul "    " level ++ code.

Fixpoint param_lines (level : Z) (params : list (string * option string))
    : list string :=
  match params with
  | [] => []
  | (name, param_type) :: params' =>
      ((if truthy param_type
        then [indented level
                ("# Parameter " ++ name ++ ": " ++ some_str param_type)%string]
        else []) ++ param_lines level params')%list
  end.

(** The lines of a statement at nesting depth [level]: the body of a
    function is one level deeper than its header and its closing blank
    line. *)
Fixpoint stmt_lines (level : Z) (node : ASTNode) {struct node}
    : list string :=
  match node with
  | FunctionDecl name params return_type body =>
      ([indented level
          ("def " ++ name ++ "(" ++ String.concat ", " (map fst params)
           ++ "):")]
       ++ param_lines (level + 1) params
       ++ (if truthy return_type
           then [indented (level + 1)
                   ("# Returns: " ++ some_str return_type)%string]
           else [])
       ++ flat_map (stmt_lines (level + 1)) body
       ++ [indented level ""])%list
  | VariableDecl name _ value =>
      [indented level (name ++ " = " ++ expr_text value)]
  | Assignment target value =>
      [indented level (target ++ " = " ++ expr_text value)]
  | Display value => [indented level ("print(" ++ expr_text value ++ ")")]
  | _ => []
  end.

(** The symbol table after a statement. *)
Fixpoint stmt_symbols (node : ASTNode) (t : SymbolTable) : SymbolTable :=
  match node with
  | FunctionDecl _ _ _ body =>
      fold_left (fun t statement => stmt_symbols statement t) body t
  | VariableDecl name type value =>
      define name type (PyStr (expr_text value)) t
  | _ => t
  end.

(** The lines of a whole program, the header first. *)
Definition program_lines_at (level : Z) (node : ASTNode) : list string :=
  match node with
  | Program description author date body =>
      ([indented level "# Generated Python code"]
       ++ (if truthy description
           then [indented level
                   ("# Description: " ++ some_str description)%string]
           else [])
       ++ (if truthy author
           then [indented level ("# Author: " ++ some_str author)%string]
           else [])
       ++ (if truthy date
           then [indented level ("# Date: " ++ some_str date)%string]
           else [])
       ++ [indented level ""]
       ++ flat_map (stmt_lines level) body)%list
  | _ => []
  end.

Definition program_lines (node : ASTNode) : list string :=
  program_lines_at 0 node.

(** ** Texts and positions *)

Fixpoint contains_char (c : ascii) (s : string) : bool :=
  match s with
  | EmptyString => false
  | String c' s' => Ascii.eqb c' c || contains_char c s'
  end.

(** The text contains the two characters that close a block comment. *)
Fixpoint contains_comment_end (s : string) : bool :=
  match s with
  | EmptyString => false
  | String c s' =>
      (Ascii.eqb c "*"
       && match s' with
          | String c' _ => Ascii.eqb c' "/"
          | EmptyString => false
          end)
      || contains_comment_end s'
  end.

(** The line and column reached after a text in which line feeds are
    counted. *)
Fixpoint end_position (s : string) (line column : N) : N * N :=
  match s with
  | EmptyString => (line, column)
  | String c s' =>
      if Ascii.eqb c LF then end_position s' (line + 1) 1
      else end_position s' line (column + 1)
  end.

(** ** The stages on a source text *)

(** The first two stages on a source text, with the fuel [compile] gives
    them. *)
Definition parse_source (source_code : string) : outcome ASTNode :=
  match Parser_init (Lexer_init source_code) with
  | (Ok p0, _) => fst (parse_program (fuel_for source_code) p0)
  | (Raise e, _) => Raise e
  | (OutOfFuel, _) => OutOfFuel
  end.

(** [node_in n ast]: the node [n] occurs in the tree [ast]. *)
Inductive node_in (n : ASTNode) : ASTNode -> Prop :=
  | in_here : node_in n n
  | in_Program description author date body statement :
      In statement body -> node_in n statement ->
      node_in n (Program description author date body)
  | in_FunctionDecl name params return_type body statement :
      In statement body -> node_in n statement ->
      node_in n (FunctionDecl name params return_type body)
  | in_VariableDecl name type value :
      node_in n value -> node_in n (VariableDecl name type value)
  | in_Assignment target value :
      node_in n value -> node_in n (Assignment target value)
  | in_BinaryOp_left left_node operator right_node :
      node_in n left_node -> node_in n (BinaryOp left_node operator right_node)
  | in_BinaryOp_right left_node operator right_node :
      node_in n right_node ->
      node_in n (BinaryOp left_node operator right_node)
  | in_Display value : node_in n value -> node_in n (Display value).

(** A parser about to read a small program, and the tree of that program. *)
Definition sample_parser : Parser :=
  mkParser (mkLexer " BEGIN display 1 + 2 PROGRAM END" 1 8)
    (mkToken PROGRAM "PROGRAM" 1 1).

Definition sample_ast : ASTNode :=
  Program None None None
    [Display
       (BinaryOp (Number (Ffinite 4503599627370496 (-52))) PLUS
          (Number (Ffinite 4503599627370496 (-51))))].

(** The method leaves [indent_level] as it found it. *)
Definition keeps_indent {A} (m : M CodeGenerator A) : Prop :=
  forall g, wp m (fun _ g' => indent_level g' = indent_level g) g.

(** The character starts no token: it is not white space and none of the
    tests of [get_next_token] accepts it. *)
Definition no_rule (c : ascii) : bool :=
  negb (isspace c) && negb (Ascii.eqb c "#") && negb (isdigit c)
  && negb (isalpha c || Ascii.eqb c "_") && negb (Ascii.eqb c DQUOTE)
  && negb (Ascii.eqb c "=")
  && match punctuation_get punctuation c with
     | Some _ => false
     | None => true
     end.

Fixpoint all_chars (f : ascii -> bool) (s : string) : bool :=
  match s with
  | EmptyString => true
  | String c s' => f c && all_chars f s'
  end.


(** An expression text parsed by [parse_expression]. *)
Definition parse_expression_source (source_code : string) : outcome ASTNode :=
  match Parser_init (Lexer_init source_code) with
  | (Ok p, _) => fst (parse_expression (fuel_for source_code) p)
  | (Raise e, _) => Raise e
  | (OutOfFuel, _) => OutOfFuel
  end.

(** An expression text parsed by [parse_expression] and rendered by
    [visit]. *)
Definition generate_expression (source_code : string) : outcome pyval :=
  match parse_expression_source source_code with
  | Ok node => fst (visit node CodeGenerator_init)
  | Raise e => Raise e
  | OutOfFuel => OutOfFuel
  end.

(** The floats 2.0, 3.0 and 4.0. *)
Definition two : float64 := Ffinite 4503599627370496 (-51).
Definition three : float64 := Ffinite 6755399441055744 (-51).
Definition four : float64 := Ffinite 4503599627370496 (-50).

(** ** The tokens ahead of the parser *)

(** [tokens_ahead ts p = Some p']: the tokens the parser [p] is about to
    read, its current token first, have the kinds and texts [ts], and [p']
    is the parser after them. *)
Fixpoint tokens_ahead (ts : list (TokenType * string)) (p : Parser)
    : option Parser :=
  match ts with
  | [] => Some p
  | (token_type, text) :: ts' =>
      if TokenType_eqb (tok_type (current_token p)) token_type
         && String.eqb (tok_value (current_token p)) text
      then match eat token_type p with
           | (Ok _, p') => tokens_ahead ts' p'
           | _ => None
           end
      else None
  end.

(** A parameter as it is written: its name, its type if it has one, and
    whether a comma follows it. *)
Definition written_param : Type := (string * option string * bool)%type.

Definition param_tokens (x : written_param) : list (TokenType * string) :=
  let '(name, param_type, comma) := x in
  ([(IDENTIFIER, name)]
   ++ match param_type with
      | Some t => [(COLON, ":"); (IDENTIFIER, t)]
      | None => []
      end
   ++ (if comma then [(COMMA, ",")] else []))%list.

Definition param_pair (x : written_param) : string * option string :=
  let '(name, param_type, _) := x in (name, param_type).

(** A parser about to read a function of three parameters, the first
    typed and only the second followed by a comma, and the same parser at
    the closing parenthesis and after END. *)
Definition sample_function_parser : Parser :=
  mkParser (mkLexer " f(a: int b, c) END PROGRAM END" 1 5)
    (mkToken FUNC "func" 1 1).

Definition sample_function_parser_rparen : Parser :=
  mkParser (mkLexer " END PROGRAM END" 1 20) (mkToken RPAREN ")" 1 19).

Definition sample_function_parser_end : Parser :=
  mkParser (mkLexer " END" 1 32) (mkToken PROGRAM "PROGRAM" 1 25).

(** ** Definitions for the further properties *)

(** The method only appends to [output], whether it returns or raises. *)
Definition appends_output {A} (m : M CodeGenerator A) : Prop :=
  forall g, exists lines, output (snd (m g)) = (output g ++ lines)%list.

(** The table of a chain of scopes, the innermost first, each table the
    parent of the one before. *)
Fixpoint table_chain (scopes : list (list (string * symbol)))
    : option SymbolTable :=
  match scopes with
  | [] => None
  | s :: up => Some (mkSymbolTable s (table_chain up))
  end.

(** The entry of the innermost scope that holds the name. *)
Fixpoint innermost (scopes : list (list (string * symbol))) (name : string)
    : option symbol :=
  match scopes with
  | [] => None
  | s :: up =>
      match dict_find s name with
      | Some x => Some x
      | None => innermost up name
      end
  end.

(** A table with one entry, and a child of it. *)
Definition sample_table : SymbolTable :=
  mkSymbolTable [("x", mkSymbol (Some "num") (PyStr "1.0"))] None.

Definition sample_child_table : SymbolTable :=
  mkSymbolTable [("y", mkSymbol (Some "str") PyNone)] (Some sample_table).

(** [forward l l']: the lexer [l'] is [l] further on in the same text:
    its input is a suffix of the input of [l] and its line count is not
    smaller. *)
Definition forward (l l' : Lexer) : Prop :=
  (exists consumed, lex_rest l = consumed ++ lex_rest l')
  /\ (lex_line l <= lex_line l')%N.

(** The kinds of token that [get_next_token] can return. *)
Definition lexed_kinds : list TokenType :=
  [COMMENT; NUMBER; IDENTIFIER; STRING; EQUALS; ASSIGN; EOF]
  ++ map snd keywords ++ map snd punctuation.

(** The kinds that are declared and that no rule of the lexer returns. *)
Definition dead_kinds : list TokenType :=
  [NOT_EQUALS; GREATER; LESS; GREATER_EQUAL; LESS_EQUAL].

(** The characters that start and that continue an identifier, and those
    that continue a number. *)
Definition ident_start (c : ascii) : bool := isalpha c || Ascii.eqb c "_".

Definition ident_char (c : ascii) : bool := isalnum c || Ascii.eqb c "_".

Definition number_char (c : ascii) : bool := isdigit c || Ascii.eqb c ".".

(** The text is empty or begins with a character that [keep] rejects. *)
Definition stops (keep : ascii -> bool) (rest : string) : bool :=
  match rest with
  | EmptyString => true
  | String c _ => negb (keep c)
  end.

Fixpoint count_char (c : ascii) (s : string) : nat :=
  match s with
  | EmptyString => O
  | String c' s' => (if Ascii.eqb c' c then 1 else 0) + count_char c s'
  end.

(** A product as it is written: a first identifier, then operators and
    identifiers; and a sum of products. *)
Definition written_product : Type :=
  (string * list (TokenType * string))%type.

Definition written_sum : Type :=
  (written_product * list (TokenType * written_product))%type.

Definition product_tokens (t : written_product)
    : list (TokenType * string) :=
  (IDENTIFIER, fst t)
  :: flat_map (fun ox : TokenType * string =>
                 [(fst ox, op_text (fst ox)); (IDENTIFIER, snd ox)]) (snd t).

Definition sum_tokens (s : written_sum) : list (TokenType * string) :=
  (product_tokens (fst s)
   ++ flat_map (fun ot : TokenType * written_product =>
                  (fst ot, op_text (fst ot)) :: product_tokens (snd ot))
        (snd s))%list.

(** The tree of a product, and of a sum: the operators nest to the left,
    and every product is an operand of the sum. *)
Definition product_tree (t : written_product) : ASTNode :=
  fold_left (fun acc (ox : TokenType * string) =>
               BinaryOp acc (fst ox) (Identifier (snd ox)))
    (snd t) (Identifier (fst t)).

Definition sum_tree (s : written_sum) : ASTNode :=
  fold_left (fun acc (ot : TokenType * written_product) =>
               BinaryOp acc (fst ot) (product_tree (snd ot)))
    (snd s) (product_tree (fst s)).

(** The operators of a product are [*] and [/], those of a sum [+] and
    [-]. *)
Definition product_ok (t : written_product) : bool :=
  forallb (fun ox : TokenType * string =>
             existsb (TokenType_eqb (fst ox)) [MULTIPLY; DIVIDE]) (snd t).

Definition sum_ok (s : written_sum) : bool :=
  product_ok (fst s)
  && forallb (fun ot : TokenType * written_product =>
                existsb (TokenType_eqb (fst ot)) [PLUS; MINUS]
                && product_ok (snd ot)) (snd s).

(** A parser about to read [a - b * c - d], and the parser after it. *)
Definition sample_sum_parser : Parser :=
  mkParser (mkLexer " - b * c - d PROGRAM" 1 2) (mkToken IDENTIFIER "a" 1 1).

Definition sample_sum_parser_end : Parser :=
  mkParser (mkLexer "" 1 22) (mkToken PROGRAM "PROGRAM" 1 15).

(** The metadata of a program as they are written: keys and values. *)
Definition metadata_tokens (kvs : list (string * string))
    : list (TokenType * string) :=
  flat_map (fun kv : string * string =>
              [(IDENTIFIER, fst kv); (STRING, snd kv)]) kvs.

(** The value of the last pair whose key is [key] in upper case. *)
Definition metadata_value (key : string) (kvs : list (string * string))
    : option string :=
  fold_left (fun acc (kv : string * string) =>
               if upper_is (fst kv) key then Some (snd kv) else acc)
    kvs None.

(** A parser about to read a program of three metadata pairs, and the
    parser after it. *)
Definition sample_metadata_parser : Parser :=
  mkParser
    (mkLexer (" BEGIN Author " ++ String DQUOTE "a" ++ String DQUOTE " note "
              ++ String DQUOTE "n" ++ String DQUOTE " AUTHOR "
              ++ String DQUOTE "b" ++ String DQUOTE " PROGRAM END") 1 8)
    (mkToken PROGRAM "PROGRAM" 1 1).

Definition sample_metadata_parser_end : Parser :=
  mkParser (mkLexer "" 1 57) (mkToken EOF "" 1 57).

(** The kinds of token that begin a factor. *)
Definition factor_head (token_type : TokenType) : bool :=
  existsb (TokenType_eqb token_type)
    [NUMBER; STRING; TRUE; FALSE; IDENTIFIER; LPAREN].

(** The kinds of token that begin no statement and do not end the body of
    the program. *)
Definition unsupported_head (token_type : TokenType) : bool :=
  negb (existsb (TokenType_eqb token_type)
          [COMMENT; FUNC; NUM; STR; BOOL; LIST; IDENTIFIER; DISPLAY;
           PROGRAM; EOF]).

(** The tokens of comments. *)
Definition comment_tokens (comments : list string)
    : list (TokenType * string) :=
  map (fun text => (COMMENT, text)) comments.

(** A parser about to read a program of two comments, and the parser
    after it. *)
Definition sample_comment_parser : Parser :=
  mkParser (mkLexer " BEGIN /* a */ /* b */ PROGRAM END" 1 8)
    (mkToken PROGRAM "PROGRAM" 1 1).

Definition sample_comment_parser_end : Parser :=
  mkParser (mkLexer "" 1 42) (mkToken EOF "" 1 42).

(** A parser about to read a function whose parameter is annotated with
    a built-in type. *)
Definition sample_annotation_parser : Parser :=
  mkParser (mkLexer " f(a: num) END" 1 5) (mkToken FUNC "func" 1 1).


(* ------------------------------------------------------------------ *)
(** * Properties of the lexer *)

Lemma TokenType_value_inj (a b : TokenType) :
  TokenType_value a = TokenType_value b -> a = b.
Proof.
  destruct a; destruct b; intros H; try reflexivity; discriminate H.
Qed.

Lemma TokenType_eqb_eq (a b : TokenType) :
  TokenType_eqb a b = true <-> a = b.
Proof.
  unfold TokenType_eqb. rewrite N.eqb_eq. split.
  - apply TokenType_value_inj.
  - intros ->. reflexivity.
Qed.

Lemma TokenType_eqb_refl (a : TokenType) : TokenType_eqb a a = true.
Proof. apply TokenType_eqb_eq. reflexivity. Qed.

Lemma TokenType_eqb_neq (a b : TokenType) :
  TokenType_eqb a b = false <-> a <> b.
Proof.
  rewrite <- TokenType_eqb_eq. destruct (TokenType_eqb a b); split; intros;
    congruence.
Qed.

Lemma skip_whitespace_from_length (rest : string) (line column : N) :
  (remaining (skip_whitespace_from rest line column) <= String.length rest)%nat.
Proof.
  revert line column. induction rest as [|c rest IH]; intros line column;
    simpl.
  - apply Nat.le_refl.
  - destruct (isspace c); [|apply Nat.le_refl].
    destruct (Ascii.eqb c LF); apply Nat.le_trans with (1 := IH _ _); lia.
Qed.

(** [skip_whitespace] stops at the end of the input or on a character that
    is not white space. *)
Lemma skip_whitespace_stops (l : Lexer) (c : ascii) :
  current_char (skip_whitespace l) = Some c -> isspace c = false.
Proof.
  unfold skip_whitespace.
  generalize (lex_line l), (lex_column l).
  induction (lex_rest l) as [|c' rest IH]; intros line column; simpl.
  - discriminate.
  - destruct (isspace c') eqn:Hc'.
    + destruct (Ascii.eqb c' LF); apply IH.
    + unfold current_char. simpl. intros [= <-]. exact Hc'.
Qed.

Lemma scan_from_length keep rest result line column :
  (remaining (snd (scan_from keep rest result line column))
   <= String.length rest)%nat.
Proof.
  revert result column. induction rest as [|c rest IH]; intros; simpl.
  - apply Nat.le_refl.
  - destruct (keep c); simpl; [|apply Nat.le_refl].
    apply Nat.le_trans with (1 := IH _ _). lia.
Qed.

Lemma scan_length keep result l :
  (remaining (snd (scan keep result l)) <= remaining l)%nat.
Proof. apply scan_from_length. Qed.

(** A scan that keeps the current character consumes it. *)
Lemma scan_length_lt keep result l c :
  current_char l = Some c -> keep c = true ->
  (remaining (snd (scan keep result l)) < remaining l)%nat.
Proof.
  unfold scan, current_char, remaining.
  destruct (lex_rest l) as [|c' rest]; [discriminate|].
  intros [= ->] Hk. simpl. rewrite Hk.
  apply Nat.le_lt_trans with (1 := scan_from_length _ _ _ _ _). lia.
Qed.

Lemma block_comment_from_length rest comment line column :
  (remaining (snd (block_comment_from rest comment line column))
   <= String.length rest)%nat.
Proof.
  revert comment line column.
  induction rest as [|c rest IH]; intros; cbn [block_comment_from].
  - apply Nat.le_refl.
  - destruct (Ascii.eqb c "*" && char_is _ "/").
    + unfold remaining, advance. cbn [snd lex_rest].
      destruct rest; simpl; lia.
    + destruct (Ascii.eqb c LF);
        (eapply Nat.le_trans; [apply IH|simpl; lia]).
Qed.

Lemma advance_length l c :
  current_char l = Some c -> remaining l = S (remaining (advance l)).
Proof.
  unfold current_char, remaining, advance.
  destruct (lex_rest l); [discriminate|reflexivity].
Qed.

Lemma advance_length_le l : (remaining (advance l) <= remaining l)%nat.
Proof.
  unfold remaining, advance. destruct (lex_rest l); simpl; lia.
Qed.

Lemma isalpha_isalnum c : isalpha c = true -> isalnum c = true.
Proof. unfold isalnum. intros ->. reflexivity. Qed.

(** A comment token consumes at least its first character. *)
Lemma read_comment_length l t l' :
  read_comment l = (Some t, l') -> (remaining l' < remaining l)%nat.
Proof.
  unfold read_comment.
  destruct (char_is (current_char l) "#") eqn:Hhash.
  - unfold char_is in Hhash.
    destruct (current_char l) as [c|] eqn:Hc; [|discriminate].
    apply Ascii.eqb_eq in Hhash. subst c.
    pose proof (scan_length_lt (fun c => negb (Ascii.eqb c LF)) "" l "#"
                  Hc eq_refl) as Hlt.
    destruct (scan _ "" l) as [cm lx]. cbn [snd] in Hlt.
    intros [= _ <-]. exact Hlt.
  - destruct (char_is (current_char l) "/" && char_is (peek l) "*") eqn:Hb;
      [|discriminate].
    apply andb_true_iff in Hb. destruct Hb as [Hb _].
    unfold char_is in Hb.
    destruct (current_char l) as [c|] eqn:Hc; [|discriminate].
    pose proof (block_comment_from_length (lex_rest (advance (advance l))) ""
                  (lex_line (advance (advance l)))
                  (lex_column (advance (advance l)))) as Hle.
    destruct (block_comment_from _ _ _ _) as [cm lx]. cbn [snd] in Hle.
    intros [= _ <-].
    pose proof (advance_length l c Hc).
    pose proof (advance_length_le (advance l)).
    unfold remaining in *. lia.
Qed.

Lemma read_comment_none l l' : read_comment l = (None, l') -> l' = l.
Proof.
  unfold read_comment.
  destruct (char_is (current_char l) "#").
  - destruct (scan _ _ _); discriminate.
  - destruct (char_is (current_char l) "/" && char_is (peek l) "*").
    + destruct (block_comment_from _ _ _ _); discriminate.
    + intros [= <-]. reflexivity.
Qed.

(** A token read by [scan_token] consumes at least one character, and
    reading a token never runs out of fuel. *)
Lemma scan_token_length c l o l' :
  current_char l = Some c -> scan_token c l = (o, l') ->
  o <> OutOfFuel /\ (forall t, o = Ok t -> (remaining l' < remaining l)%nat).
Proof.
  intros Hc. unfold scan_token.
  destruct (read_comment l) as [[ct|] lc] eqn:Hrc.
  - intros [= <- <-]. split; [discriminate|]. intros _ _.
    eapply read_comment_length; eassumption.
  - apply read_comment_none in Hrc. subst lc.
    destruct (isdigit c) eqn:Hd.
    { unfold read_number.
      pose proof (scan_length_lt (fun c => isdigit c || Ascii.eqb c ".") "" l
                    c Hc) as Hlt.
      cbv beta in Hlt. rewrite Hd in Hlt. specialize (Hlt eq_refl).
      destruct (scan _ "" l) as [r lx]. intros [= <- <-].
      split; [discriminate|]. intros _ _. exact Hlt. }
    destruct (isalpha c || Ascii.eqb c "_") eqn:Ha.
    { unfold read_identifier.
      pose proof (scan_length_lt (fun c => isalnum c || Ascii.eqb c "_") "" l
                    c Hc) as Hlt.
      cbv beta in Hlt.
      assert (Hk : isalnum c || Ascii.eqb c "_" = true).
      { apply orb_true_iff in Ha. apply orb_true_iff.
        destruct Ha as [Ha|Ha]; [left; apply isalpha_isalnum|right]; exact Ha. }
      specialize (Hlt Hk).
      destruct (scan _ "" l) as [r lx]. intros [= <- <-].
      split; [discriminate|]. intros _ _. exact Hlt. }
    pose proof (advance_length l c Hc) as Hadv.
    destruct (Ascii.eqb c DQUOTE).
    { unfold read_string.
      pose proof (scan_length (fun c => negb (Ascii.eqb c DQUOTE)) ""
                    (advance l)) as Hle.
      destruct (scan _ "" (advance l)) as [r lx]. cbn [snd] in Hle.
      intros [= <- <-]. split; [discriminate|]. intros _ _.
      destruct (char_is (current_char lx) DQUOTE);
        try pose proof (advance_length_le lx); lia. }
    destruct (Ascii.eqb c "=").
    { pose proof (advance_length_le (advance l)).
      destruct (char_is (current_char (advance l)) "=");
        intros [= <- <-]; (split; [discriminate|]); intros _ _; lia. }
    destruct (punctuation_get punctuation c).
    + intros [= <- <-]. split; [discriminate|]. intros _ _. lia.
    + intros [= <- <-]. split; [discriminate|]. intros t Ht. discriminate Ht.
Qed.

Lemma get_next_token_no_fuel l : fst (get_next_token l) <> OutOfFuel.
Proof.
  unfold get_next_token.
  match goal with
  | |- context [match current_char ?x with Some _ => _ | None => _ end] =>
      set (l1 := x)
  end.
  destruct (current_char l1) as [c|] eqn:Hc; [|discriminate].
  destruct (scan_token c l1) as [o l'] eqn:Hs.
  apply (scan_token_length c l1 o l' Hc Hs).
Qed.

Lemma get_next_token_length l t l' :
  get_next_token l = (Ok t, l') ->
  (remaining l' + (if is_eof t then 0 else 1) <= remaining l)%nat.
Proof.
  unfold get_next_token.
  match goal with
  | |- context [match current_char ?x with Some _ => _ | None => _ end] =>
      set (l1 := x)
  end.
  assert (Hl1 : (remaining l1 <= remaining l)%nat).
  { subst l1. destruct (current_char l) as [c|]; [|apply Nat.le_refl].
    destruct (isspace c); [|apply Nat.le_refl].
    apply skip_whitespace_from_length. }
  destruct (current_char l1) as [c|] eqn:Hc.
  - intros Hs.
    destruct (scan_token_length c l1 _ _ Hc Hs) as [_ Hlt].
    specialize (Hlt t eq_refl). destruct (is_eof t); lia.
  - intros [= <- <-]. unfold is_eof. simpl. lia.
Qed.

(* ------------------------------------------------------------------ *)
(** * A weakest-precondition calculus for the parser *)

Lemma wp_ret {St A} (a : A) (Q : A -> St -> Prop) s : Q a s -> wp (ret a) Q s.
Proof. intros H. exact H. Qed.

Lemma wp_raise {St A} e (Q : A -> St -> Prop) s : wp (raise e) Q s.
Proof. exact I. Qed.

Lemma wp_bind {St A B} (m : M St A) (f : A -> M St B) (Q : B -> St -> Prop) s :
  wp m (fun a s' => wp (f a) Q s') s -> wp (bind m f) Q s.
Proof.
  unfold wp, bind. destruct (m s) as [[a| |] s']; auto.
Qed.

Lemma wp_mono {St A} (m : M St A) (Q Q' : A -> St -> Prop) s :
  wp m Q s -> (forall a s', Q a s' -> Q' a s') -> wp m Q' s.
Proof.
  unfold wp. destruct (m s) as [[a| |] s']; auto.
Qed.

Lemma wp_ok {St A} (m : M St A) (Q : A -> St -> Prop) s a s' :
  wp m Q s -> m s = (Ok a, s') -> Q a s'.
Proof. unfold wp. intros H E. rewrite E in H. exact H. Qed.

Lemma wp_no_fuel {St A} (m : M St A) (Q : A -> St -> Prop) s :
  wp m Q s -> fst (m s) <> OutOfFuel.
Proof.
  unfold wp. destruct (m s) as [[a| |] s']; simpl; intros H; try discriminate.
  contradiction.
Qed.

Lemma wp_when {St} (b : bool) (m : M St unit) (Q : unit -> St -> Prop) s :
  (b = true -> wp m Q s) -> (b = false -> Q tt s) -> wp (when b m) Q s.
Proof.
  destruct b; intros H1 H2; [apply H1|apply wp_ret, H2]; reflexivity.
Qed.

Lemma wp_error {A} msg (Q : A -> Parser -> Prop) p : wp (error msg) Q p.
Proof. exact I. Qed.

Lemma wp_current (Q : Token -> Parser -> Prop) p :
  Q (current_token p) p -> wp current Q p.
Proof. intros H. exact H. Qed.

(** [eat] never lets the measure grow, and decreases it unless the token
    eaten is EOF; the token eaten is the current one. *)
Lemma wp_eat token_type (Q : unit -> Parser -> Prop) p :
  (forall p',
     tok_type (current_token p) = token_type ->
     (measure p' <= measure p)%nat ->
     (token_type <> EOF -> (measure p' < measure p)%nat) ->
     Q tt p') ->
  wp (eat token_type) Q p.
Proof.
  intros H. unfold wp, eat.
  destruct (TokenType_eqb (tok_type (current_token p)) token_type) eqn:E;
    [|exact I].
  apply TokenType_eqb_eq in E.
  pose proof (get_next_token_no_fuel (lexer p)) as Hnf.
  destruct (get_next_token (lexer p)) as [[t| |] l'] eqn:Hg;
    [|exact I|contradiction Hnf; reflexivity].
  apply get_next_token_length in Hg.
  apply H; [exact E| |]; unfold measure; cbn [lexer current_token].
  - destruct (is_eof (current_token p)) eqn:E1; [|lia].
    destruct (is_eof t); lia.
  - intros Hne. unfold is_eof at 2. rewrite E.
    destruct (TokenType_eqb token_type EOF) eqn:E2.
    + apply TokenType_eqb_eq in E2. contradiction.
    + lia.
Qed.

(** The rule of the loop: an invariant [Inv], a body that decreases the
    measure, and more fuel than the measure. *)
Lemma wp_while {A} (cond : Parser -> bool) (body : A -> M Parser A)
    (Inv : A -> Prop) (n : nat) :
  (forall acc p, (measure p <= n)%nat -> cond p = true -> Inv acc ->
     wp (body acc) (fun a p' => Inv a /\ (measure p' < measure p)%nat) p) ->
  forall fuel acc p,
    (measure p < fuel)%nat -> (measure p <= n)%nat -> Inv acc ->
    wp (while fuel cond body acc)
       (fun a p' => Inv a /\ cond p' = false
                    /\ (measure p' <= measure p)%nat) p.
Proof.
  intros Hbody. induction fuel as [|fuel IH]; intros acc p Hf Hn Hi.
  - lia.
  - unfold wp. simpl. destruct (cond p) eqn:Hc.
    + fold (wp (a <- body acc ;; while fuel cond body a)
              (fun a p' => Inv a /\ cond p' = false
                           /\ (measure p' <= measure p)%nat) p).
      apply wp_bind.
      apply wp_mono with (1 := Hbody acc p Hn Hc Hi).
      intros a p' [Hi' Hlt].
      eapply wp_mono; [apply IH; [lia|lia|exact Hi']|].
      cbv beta. intros a' p'' (? & ? & ?). repeat split; auto. lia.
    + repeat split; auto.
Qed.

(* ------------------------------------------------------------------ *)
(** * What the parser returns *)

Ltac wp_lia := cbv beta in *; lia.

Ltac wp_eat_step :=
  apply wp_bind, wp_eat;
  let p' := fresh "p" in
  let Ht := fresh "Ht" in
  let Hle := fresh "Hle" in
  let Hlt := fresh "Hlt" in
  intros p' Ht Hle Hlt;
  try (assert (measure p' < measure _)%nat by (apply Hlt; discriminate);
       clear Hlt).

Lemma current_in_arith types p :
  current_in types p = true ->
  forallb is_arith types = true ->
  is_arith (tok_type (current_token p)) = true.
Proof.
  unfold current_in. intros Hin Hall.
  apply existsb_exists in Hin. destruct Hin as (t & Hin & Heq).
  apply TokenType_eqb_eq in Heq. rewrite Heq.
  rewrite forallb_forall in Hall. apply Hall, Hin.
Qed.

Lemma parse_factor_spec PE n p :
  (forall q, (measure q < n)%nat -> wp PE (parsed expr_ok q) q) ->
  (measure p <= n)%nat ->
  wp (parse_factor PE) (parsed expr_ok p) p.
Proof.
  intros HPE Hn. unfold parse_factor. apply wp_bind, wp_current.
  destruct (tok_type (current_token p)) eqn:E; try apply wp_error.
  - (* NUMBER *)
    wp_eat_step. destruct (py_float _); [|apply wp_raise].
    apply wp_ret. split; [reflexivity|assumption].
  - (* STRING *)
    wp_eat_step. apply wp_ret. split; [reflexivity|assumption].
  - (* TRUE *)
    wp_eat_step. apply wp_ret. split; [reflexivity|assumption].
  - (* FALSE *)
    wp_eat_step. apply wp_ret. split; [reflexivity|assumption].
  - (* LPAREN *)
    wp_eat_step. apply wp_bind.
    eapply wp_mono; [apply HPE; wp_lia|].
    intros node q [Hok Hlt]. wp_eat_step.
    apply wp_ret. split; [exact Hok|wp_lia].
  - (* IDENTIFIER *)
    wp_eat_step. apply wp_ret. split; [reflexivity|assumption].
Qed.

(** The loop of a left-associative chain of binary operators. *)
Lemma binary_loop_spec (operand : M Parser ASTNode) types n :
  forallb is_arith types = true ->
  (forall q, (measure q <= n)%nat -> wp operand (parsed expr_ok q) q) ->
  forall fuel node p,
    (measure p < fuel)%nat -> (measure p <= n)%nat ->
    expr_ok node = true ->
    wp (while fuel (current_in types)
          (fun node =>
             token <- current ;;
             let operator := tok_type token in
             eat operator ;;;
             right <- operand ;;
             ret (BinaryOp node operator right))
          node)
       (fun node' p' => expr_ok node' = true
                        /\ (measure p' <= measure p)%nat) p.
Proof.
  intros Htypes Hop fuel node p Hf Hn Hok.
  eapply wp_mono.
  - apply wp_while with (Inv := fun node => expr_ok node = true)
                        (n := n); [|exact Hf|exact Hn|exact Hok].
    intros acc q Hq Hc Hi. apply wp_bind, wp_current. cbv zeta.
    apply wp_bind, wp_eat. intros q' _ Hle _. apply wp_bind.
    eapply wp_mono; [apply Hop; wp_lia|].
    intros right q'' [Hr Hlt]. apply wp_ret. split; [|wp_lia].
    simpl. rewrite Hi, Hr, (current_in_arith types q Hc Htypes). reflexivity.
  - cbv beta. intros a p' (? & _ & ?). split; assumption.
Qed.

Lemma parse_term_spec PE n fuel p :
  (forall q, (measure q < n)%nat -> wp PE (parsed expr_ok q) q) ->
  (measure p <= n)%nat -> (measure p <= fuel)%nat ->
  wp (parse_term fuel PE) (parsed expr_ok p) p.
Proof.
  intros HPE Hn Hf. unfold parse_term. apply wp_bind.
  eapply wp_mono; [apply (parse_factor_spec PE n p HPE Hn)|].
  intros node p1 [Hok Hlt].
  eapply wp_mono.
  - apply binary_loop_spec with (n := n); [reflexivity| |wp_lia|wp_lia|exact Hok].
    intros q Hq. apply (parse_factor_spec PE n q HPE Hq).
  - cbv beta. intros node' p' [Hok' Hle]. split; [exact Hok'|wp_lia].
Qed.

Lemma parse_expression_spec fuel p :
  (measure p < fuel)%nat -> wp (parse_expression fuel) (parsed expr_ok p) p.
Proof.
  revert p. induction fuel as [|fuel IH]; intros p Hf; [wp_lia|].
  cbn [parse_expression]. apply wp_bind.
  assert (Hterm : forall q, (measure q <= fuel)%nat ->
            wp (parse_term fuel (parse_expression fuel)) (parsed expr_ok q) q).
  { intros q Hq. apply parse_term_spec with (n := fuel); auto. }
  eapply wp_mono; [apply Hterm; wp_lia|].
  intros node p1 [Hok Hlt].
  eapply wp_mono.
  - apply binary_loop_spec with (n := fuel);
      [reflexivity|exact Hterm|wp_lia|wp_lia|exact Hok].
  - cbv beta. intros node' p' [Hok' Hle]. split; [exact Hok'|wp_lia].
Qed.

Lemma parse_display_spec fuel p :
  (measure p <= fuel)%nat -> wp (parse_display fuel) (parsed stmt_ok p) p.
Proof.
  intros Hf. unfold parse_display. wp_eat_step. apply wp_bind.
  eapply wp_mono; [apply parse_expression_spec; wp_lia|].
  intros node q [Hok Hlt]. apply wp_ret. split; [exact Hok|wp_lia].
Qed.

Lemma parse_assignment_spec fuel p :
  (measure p <= fuel)%nat -> wp (parse_assignment fuel) (parsed stmt_ok p) p.
Proof.
  intros Hf. unfold parse_assignment. apply wp_bind, wp_current. cbv zeta.
  wp_eat_step. wp_eat_step. apply wp_bind.
  eapply wp_mono; [apply parse_expression_spec; wp_lia|].
  intros node q [Hok Hlt]. apply wp_ret. split; [exact Hok|wp_lia].
Qed.

Lemma parse_variable_declaration_spec fuel p :
  (measure p <= fuel)%nat ->
  wp (parse_variable_declaration fuel) (parsed stmt_ok p) p.
Proof.
  intros Hf. unfold parse_variable_declaration.
  apply wp_bind, wp_current. cbv zeta.
  apply wp_bind, wp_eat. intros p1 _ Hle1 _.
  apply wp_bind, wp_current. cbv zeta.
  wp_eat_step. wp_eat_step. apply wp_bind.
  eapply wp_mono; [apply parse_expression_spec; wp_lia|].
  intros node q [Hok Hlt]. apply wp_ret. split; [exact Hok|wp_lia].
Qed.

Lemma parse_function_params_spec fuel p :
  (measure p < fuel)%nat ->
  wp (parse_function_params fuel)
     (fun _ p' => (measure p' <= measure p)%nat) p.
Proof.
  intros Hf. unfold parse_function_params.
  eapply wp_mono.
  - apply wp_while with (Inv := fun _ => True) (n := measure p);
      [|exact Hf|apply Nat.le_refl|exact I].
    intros acc q Hq Hc _. unfold parse_param.
    apply wp_bind, wp_current. cbv zeta.
    wp_eat_step. apply wp_bind, wp_current. apply wp_bind.
    apply wp_mono with (Q := fun _ q' => (measure q' <= measure p0)%nat).
    + destruct (TokenType_eqb (tok_type (current_token p0)) COLON).
      * wp_eat_step. apply wp_bind, wp_current. wp_eat_step.
        apply wp_ret. wp_lia.
      * apply wp_ret. apply Nat.le_refl.
    + intros param_type q1 Hq1. apply wp_bind, wp_current. apply wp_bind.
      apply wp_mono with (Q := fun _ q' => (measure q' <= measure q1)%nat).
      * destruct (TokenType_eqb (tok_type (current_token q1)) COMMA).
        -- apply wp_eat. intros; assumption.
        -- apply wp_ret. apply Nat.le_refl.
      * intros _ q2 Hq2. apply wp_ret. split; [exact I|wp_lia].
  - cbv beta. intros a p' (_ & _ & ?). assumption.
Qed.

Lemma append_statement_ok body statement :
  forallb stmt_ok body = true ->
  (forall node, statement = Some node -> stmt_ok node = true) ->
  forallb stmt_ok (append_statement body statement) = true.
Proof.
  intros Hb Hs. destruct statement as [node|]; [|exact Hb].
  simpl. rewrite forallb_app, Hb. simpl. rewrite (Hs node eq_refl).
  reflexivity.
Qed.

Lemma parse_function_spec fuel PS n p :
  (forall q, (measure q < n)%nat -> wp PS (parsed_statement q) q) ->
  (measure p <= n)%nat -> (measure p <= fuel)%nat ->
  wp (parse_function fuel PS) (parsed stmt_ok p) p.
Proof.
  intros HPS Hn Hf. unfold parse_function.
  wp_eat_step. apply wp_bind, wp_current. cbv zeta.
  wp_eat_step. wp_eat_step. apply wp_bind.
  eapply wp_mono; [apply parse_function_params_spec; wp_lia|].
  intros params p3 Hp3. wp_eat_step.
  apply wp_bind, wp_current. apply wp_bind.
  apply wp_mono with (Q := fun _ q' => (measure q' <= measure p4)%nat).
  { destruct (TokenType_eqb (tok_type (current_token p4)) RETURN).
    - wp_eat_step. apply wp_bind, wp_current. wp_eat_step. apply wp_ret. wp_lia.
    - apply wp_ret. apply Nat.le_refl. }
  intros return_type p5 Hp5. apply wp_bind.
  eapply wp_mono.
  - apply wp_while with (Inv := fun body => forallb stmt_ok body = true)
                        (n := measure p5);
      [|wp_lia|apply Nat.le_refl|reflexivity].
    intros acc q Hq Hc Hi. apply wp_bind.
    eapply wp_mono; [apply HPS; wp_lia|].
    intros statement q' [Hs Hlt]. apply wp_ret. split; [|exact Hlt].
    apply append_statement_ok; assumption.
  - cbv beta. intros body p6 (Hbody & _ & Hp6). wp_eat_step.
    apply wp_ret. split; [exact Hbody|wp_lia].
Qed.

Lemma parse_statement_spec fuel p :
  (measure p < fuel)%nat ->
  wp (parse_statement fuel) (parsed_statement p) p.
Proof.
  revert p. induction fuel as [|fuel IH]; intros p Hf; [wp_lia|].
  cbn [parse_statement]. apply wp_bind, wp_current.
  assert (Hsome : forall (m : M Parser ASTNode),
            wp m (parsed stmt_ok p) p ->
            wp (node <- m ;; ret (Some node)) (parsed_statement p) p).
  { intros m Hm. apply wp_bind. eapply wp_mono; [exact Hm|].
    intros node q [Hok Hlt]. apply wp_ret. split; [|exact Hlt].
    intros node' [= <-]. exact Hok. }
  destruct (tok_type (current_token p)) eqn:E; try apply wp_error.
  - (* FUNC *)
    apply Hsome. apply parse_function_spec with (n := fuel); auto; wp_lia.
  - (* DISPLAY *) apply Hsome, parse_display_spec. wp_lia.
  - (* NUM *) apply Hsome, parse_variable_declaration_spec. wp_lia.
  - (* STR *) apply Hsome, parse_variable_declaration_spec. wp_lia.
  - (* BOOL *) apply Hsome, parse_variable_declaration_spec. wp_lia.
  - (* LIST *) apply Hsome, parse_variable_declaration_spec. wp_lia.
  - (* IDENTIFIER *) apply Hsome, parse_assignment_spec. wp_lia.
  - (* COMMENT *)
    wp_eat_step. apply wp_ret. split; [discriminate|assumption].
Qed.

(** [parse_program] never runs out of fuel when it is given more than the
    measure, and the tree it returns is a program of the grammar. *)
Lemma parse_program_spec fuel p :
  (measure p < fuel)%nat ->
  wp (parse_program fuel)
     (fun node _ => program_ok node = true) p.
Proof.
  intros Hf. unfold parse_program. wp_eat_step. wp_eat_step. apply wp_bind.
  eapply wp_mono.
  - apply wp_while with (Inv := fun _ => True) (n := measure p1);
      [|wp_lia|apply Nat.le_refl|exact I].
    intros md q Hq Hc _. apply wp_bind, wp_current. cbv zeta.
    wp_eat_step. apply wp_bind, wp_current. cbv zeta. wp_eat_step.
    apply wp_ret. split; [exact I|wp_lia].
  - cbv beta. intros md p2 (_ & _ & Hp2). apply wp_bind.
    eapply wp_mono.
    + apply wp_while with (Inv := fun body => forallb stmt_ok body = true)
                          (n := measure p2);
        [|wp_lia|apply Nat.le_refl|reflexivity].
      intros acc q Hq Hc Hi. apply wp_bind, wp_current. apply wp_bind.
      apply wp_mono with (Q := fun _ q' => q' = q).
      { destruct (TokenType_eqb (tok_type (current_token q)) EOF);
          [apply wp_error|apply wp_ret; reflexivity]. }
      intros _ q' ->. apply wp_bind.
      eapply wp_mono; [apply parse_statement_spec; wp_lia|].
      intros statement q' [Hs Hlt]. apply wp_ret. split; [|exact Hlt].
      apply append_statement_ok; assumption.
    + cbv beta. intros body p3 (Hbody & _ & Hp3). wp_eat_step. wp_eat_step.
      apply wp_ret. exact Hbody.
Qed.

(* ------------------------------------------------------------------ *)
(** * What the code generator emits *)

Lemma visit_Program description author date body :
  visit (Program description author date body) =
  (emit "# Generated Python code" ;;;
   when (truthy description)
     (emit ("# Description: " ++ some_str description)) ;;;
   when (truthy author) (emit ("# Author: " ++ some_str author)) ;;;
   when (truthy date) (emit ("# Date: " ++ some_str date)) ;;;
   emit "" ;;;
   visit_all body ;;;
   (fun g => (Ok (PyStr (String.concat nl (output g))), g))).
Proof. reflexivity. Qed.

Lemma visit_FunctionDecl name params return_type body :
  visit (FunctionDecl name params return_type body) =
  (emit ("def " ++ name ++ "(" ++ String.concat ", " (map fst params) ++ "):")
   ;;;
   indent ;;;
   emit_params params ;;;
   when (truthy return_type) (emit ("# Returns: " ++ some_str return_type)) ;;;
   visit_all body ;;;
   dedent ;;;
   emit "" ;;;
   ret PyNone).
Proof. reflexivity. Qed.

Lemma is_arith_op_map operator :
  is_arith operator = true -> op_map operator = Some (op_text operator).
Proof.
  unfold op_text. destruct operator; try discriminate; reflexivity.
Qed.

(** An expression of the grammar is rendered without touching the
    generator. *)
Lemma visit_expr node :
  expr_ok node = true ->
  forall g, visit node g = (Ok (PyStr (expr_text node)), g).
Proof.
  induction node; try discriminate; intros Hok g; try reflexivity.
  cbn [expr_ok] in Hok.
  apply andb_true_iff in Hok. destruct Hok as [Hok H2].
  apply andb_true_iff in Hok. destruct Hok as [Hop H1].
  cbn [visit]. unfold bind.
  rewrite (IHnode1 H1 g), (IHnode2 H2 g), (is_arith_op_map _ Hop).
  reflexivity.
Qed.

Lemma emit_params_lines params g :
  emit_params params g =
  (Ok tt,
   mkCodeGenerator (symbol_table g)
     (output g ++ param_lines (indent_level g) params) (indent_level g)).
Proof.
  revert g. induction params as [|[name param_type] params IH]; intros g.
  - simpl. unfold ret. rewrite app_nil_r. destruct g; reflexivity.
  - cbn [emit_params param_lines]. unfold bind at 1.
    destruct (truthy param_type); cbn [when].
    + unfold emit at 1. rewrite IH. cbn [symbol_table output indent_level].
      rewrite <- app_assoc. reflexivity.
    + unfold ret at 1. rewrite IH. reflexivity.
Qed.

Lemma visit_all_lines body :
  Forall (fun statement =>
            stmt_ok statement = true ->
            forall g,
              visit statement g =
              (Ok PyNone,
               mkCodeGenerator (stmt_symbols statement (symbol_table g))
                 (output g ++ stmt_lines (indent_level g) statement)
                 (indent_level g))) body ->
  forallb stmt_ok body = true ->
  forall g,
    visit_all body g =
    (Ok tt,
     mkCodeGenerator
       (fold_left (fun t statement => stmt_symbols statement t) body
          (symbol_table g))
       (output g ++ flat_map (stmt_lines (indent_level g)) body)
       (indent_level g)).
Proof.
  induction 1 as [|statement body Hs _ IH]; intros Hok g.
  - simpl. unfold ret. rewrite app_nil_r. destruct g; reflexivity.
  - cbn [forallb] in Hok. apply andb_true_iff in Hok.
    destruct Hok as [Hok1 Hok2].
    cbn [visit_all]. unfold bind. rewrite (Hs Hok1 g), (IH Hok2).
    cbn [symbol_table output indent_level fold_left flat_map].
    rewrite <- app_assoc. reflexivity.
Qed.

(** A statement of the grammar returns [None]; it appends its lines at the
    current depth and leaves the depth as it found it. *)
Lemma visit_stmt node :
  stmt_ok node = true ->
  forall g,
    visit node g =
    (Ok PyNone,
     mkCodeGenerator (stmt_symbols node (symbol_table g))
       (output g ++ stmt_lines (indent_level g) node) (indent_level g)).
Proof.
  induction node using ASTNode_nested_ind; try discriminate; intros Hok g.
  - (* FunctionDecl *)
    cbn [stmt_ok] in Hok. rewrite visit_FunctionDecl.
    unfold bind at 1. unfold emit at 1.
    unfold bind at 1. unfold indent at 1.
    unfold bind at 1. rewrite emit_params_lines.
    cbn [symbol_table output indent_level].
    unfold bind at 1.
    assert (Hret : forall g0,
      when (truthy return_type)
        (emit ("# Returns: " ++ some_str return_type)) g0 =
      (Ok tt,
       mkCodeGenerator (symbol_table g0)
         (output g0 ++
          (if truthy return_type
           then [indented (indent_level g0)
                   ("# Returns: " ++ some_str return_type)]
           else []))
         (indent_level g0))).
    { intros g0. destruct (truthy return_type); cbn [when].
      - reflexivity.
      - unfold ret. rewrite app_nil_r. destruct g0; reflexivity. }
    rewrite Hret. cbn [symbol_table output indent_level].
    unfold bind at 1. rewrite (visit_all_lines body H Hok).
    cbn [symbol_table output indent_level].
    unfold bind, dedent, emit, ret. cbn [symbol_table output indent_level].
    rewrite Z.add_simpl_r. cbn [stmt_symbols stmt_lines].
    unfold indented. repeat rewrite <- app_assoc. reflexivity.
  - (* VariableDecl *)
    cbn [stmt_ok] in Hok. cbn [visit]. unfold bind.
    rewrite (visit_expr node Hok g). reflexivity.
  - (* Assignment *)
    cbn [stmt_ok] in Hok. cbn [visit]. unfold bind.
    rewrite (visit_expr node Hok g). destruct g; reflexivity.
  - (* Display *)
    cbn [stmt_ok] in Hok. cbn [visit]. unfold bind.
    rewrite (visit_expr node Hok g). destruct g; reflexivity.
Qed.

(** A program of the grammar is generated whole: the value returned is
    the text of all the lines put out so far. *)
Lemma visit_program node :
  program_ok node = true ->
  forall g,
    exists t,
      visit node g =
      (Ok (PyStr (String.concat nl
                    (output g ++ program_lines_at (indent_level g) node))),
       mkCodeGenerator t
         (output g ++ program_lines_at (indent_level g) node)
         (indent_level g)).
Proof.
  destruct node as [description author date body| | | | | | | | |];
    try discriminate.
  intros Hok g. cbn [program_ok] in Hok. rewrite visit_Program.
  assert (Hwhen : forall b code g0,
    when b (emit code) g0 =
    (Ok tt,
     mkCodeGenerator (symbol_table g0)
       (output g0 ++ (if b then [indented (indent_level g0) code] else []))
       (indent_level g0))).
  { intros b code g0. destruct b; cbn [when].
    - reflexivity.
    - unfold ret. rewrite app_nil_r. destruct g0; reflexivity. }
  unfold bind at 1. unfold emit at 1.
  unfold bind at 1. rewrite Hwhen.
  unfold bind at 1. rewrite Hwhen.
  unfold bind at 1. rewrite Hwhen.
  unfold bind at 1. unfold emit at 1.
  cbn [symbol_table output indent_level].
  unfold bind at 1.
  rewrite visit_all_lines; [|apply Forall_forall; intros s _; apply visit_stmt
                            |exact Hok].
  cbn [symbol_table output indent_level program_lines_at].
  fold (indented (indent_level g) "# Generated Python code").
  fold (indented (indent_level g) "").
  repeat rewrite <- app_assoc. eexists. reflexivity.
Qed.

(* ------------------------------------------------------------------ *)
(** * Unterminated literals *)

Lemma append_assoc (a b c : string) : (a ++ b) ++ c = a ++ (b ++ c).
Proof. induction a as [|x a IH]; simpl; [|rewrite IH]; reflexivity. Qed.

Lemma append_nil_r (a : string) : a ++ "" = a.
Proof. induction a as [|x a IH]; simpl; [|rewrite IH]; reflexivity. Qed.

(** A scan over a text it keeps entirely. *)
Lemma scan_from_keeps (stop : ascii) s result line column :
  contains_char stop s = false ->
  scan_from (fun c => negb (Ascii.eqb c stop)) s result line column =
  (result ++ s,
   mkLexer "" line (column + N.of_nat (String.length s))).
Proof.
  revert result column.
  induction s as [|c s IH]; intros result column Hs.
  - simpl. rewrite append_nil_r, N.add_0_r. reflexivity.
  - cbn [contains_char] in Hs. apply orb_false_iff in Hs.
    destruct Hs as [Hc Hs].
    cbn [scan_from]. rewrite Hc. cbn [negb]. rewrite (IH _ _ Hs).
    rewrite append_assoc. cbn [append String.length].
    rewrite Nat2N.inj_succ, <- N.add_1_l, N.add_assoc. reflexivity.
Qed.

Lemma block_comment_from_unterminated s comment line column :
  contains_comment_end s = false ->
  block_comment_from s comment line column =
  (comment ++ s,
   mkLexer "" (fst (end_position s line column))
     (snd (end_position s line column))).
Proof.
  revert comment line column.
  induction s as [|c s IH]; intros comment line column Hs.
  - simpl. rewrite append_nil_r. reflexivity.
  - cbn [contains_comment_end] in Hs. apply orb_false_iff in Hs.
    destruct Hs as [Hc Hs].
    cbn [block_comment_from end_position].
    replace (char_is (peek (mkLexer (String c s) line column)) "/")
      with (match s with
            | String c' _ => Ascii.eqb c' "/"
            | EmptyString => false
            end) by (destruct s; reflexivity).
    rewrite Hc.
    destruct (Ascii.eqb c LF); rewrite (IH _ _ _ Hs), append_assoc;
      reflexivity.
Qed.

(** C7.  A string literal without its closing quote, and a block comment
    without its closing star-slash, are read to the end of the input: the
    lexer returns the STRING token, or the COMMENT token, holding all the
    remaining text, raises nothing, and then reports the end of file. *)
Theorem unterminated_literal_reads_to_end (body : string) (line column : N) :
  (contains_char DQUOTE body = false ->
   exists l',
     get_next_token (mkLexer (String DQUOTE body) line column) =
     (Ok (mkToken STRING body line column), l')
     /\ lex_rest l' = ""
     /\ fst (get_next_token l') =
        Ok (mkToken EOF "" (lex_line l') (lex_column l')))
  /\ (contains_comment_end body = false ->
      exists l',
        get_next_token (mkLexer ("/*" ++ body) line column) =
        (Ok (mkToken COMMENT body
               (fst (end_position body line (column + 1 + 1))) column), l')
        /\ lex_rest l' = ""
        /\ fst (get_next_token l') =
           Ok (mkToken EOF "" (lex_line l') (lex_column l'))).
Proof.
  split; intros Hbody.
  - eexists. split; [|split].
    + unfold get_next_token, current_char. cbn [lex_rest].
      change (isspace DQUOTE) with false. cbv iota.
      unfold scan_token, read_comment, current_char, peek. cbn [lex_rest].
      change (char_is (Some DQUOTE) "#") with false.
      change (char_is (Some DQUOTE) "/") with false.
      cbn [andb]. cbv iota.
      change (isdigit DQUOTE) with false.
      change (isalpha DQUOTE || Ascii.eqb DQUOTE "_") with false.
      change (Ascii.eqb DQUOTE DQUOTE) with true. cbv iota.
      unfold read_string, scan, advance. cbn [lex_rest lex_line lex_column].
      rewrite (scan_from_keeps DQUOTE body "" line (column + 1) Hbody).
      unfold current_char. cbn [lex_rest char_is lex_line append].
      reflexivity.
    + reflexivity.
    + reflexivity.
  - eexists. split; [|split].
    + unfold get_next_token, current_char. cbn [append lex_rest].
      change (isspace "/") with false. cbv iota.
      unfold scan_token, read_comment, current_char, peek. cbn [lex_rest].
      change (char_is (Some "/"%char) "#") with false.
      change (char_is (Some "/"%char) "/") with true.
      change (char_is (Some "*"%char) "*") with true.
      cbn [andb]. cbv iota.
      unfold advance. cbn [lex_rest lex_line lex_column].
      rewrite (block_comment_from_unterminated body "" line _ Hbody).
      cbn [append lex_line]. reflexivity.
    + reflexivity.
    + reflexivity.
Qed.

Lemma unterminated_literal_reads_to_end_witness :
  (exists l',
     get_next_token (mkLexer (String DQUOTE ("abc" ++ nl ++ "d")) 1 1) =
     (Ok (mkToken STRING ("abc" ++ nl ++ "d") 1 1), l')
     /\ lex_rest l' = ""
     /\ fst (get_next_token l') =
        Ok (mkToken EOF "" (lex_line l') (lex_column l')))
  /\ (exists l',
        get_next_token (mkLexer ("/*" ++ ("a*" ++ nl ++ "/b*")) 1 1) =
        (Ok (mkToken COMMENT ("a*" ++ nl ++ "/b*") 2 1), l')
        /\ lex_rest l' = ""
        /\ fst (get_next_token l') =
           Ok (mkToken EOF "" (lex_line l') (lex_column l'))).
Proof.
  split.
  - apply (proj1 (unterminated_literal_reads_to_end ("abc" ++ nl ++ "d") 1 1)).
    reflexivity.
  - apply (proj2 (unterminated_literal_reads_to_end ("a*" ++ nl ++ "/b*") 1 1)).
    reflexivity.
Defined.

(* ------------------------------------------------------------------ *)
(** * The pipeline *)

Lemma Parser_init_measure source_code p0 l :
  Parser_init (Lexer_init source_code) = (Ok p0, l) ->
  (measure p0 < fuel_for source_code)%nat.
Proof.
  unfold Parser_init.
  destruct (get_next_token (Lexer_init source_code)) as [[t| |] l'] eqn:Hg;
    try discriminate.
  intros [= <- <-]. apply get_next_token_length in Hg.
  unfold measure, fuel_for. cbn [lexer current_token].
  unfold remaining in Hg at 2. cbn [Lexer_init lex_rest] in Hg. lia.
Qed.

(** The first two stages never run out of fuel, and what they return is a
    program of the grammar. *)
Lemma parse_source_total source_code :
  match parse_source source_code with
  | Ok ast => program_ok ast = true
  | Raise _ => True
  | OutOfFuel => False
  end.
Proof.
  unfold parse_source.
  pose proof (get_next_token_no_fuel (Lexer_init source_code)) as Hnf.
  destruct (Parser_init (Lexer_init source_code)) as [[p0| |] l] eqn:Hinit.
  - pose proof (parse_program_spec _ _
                  (Parser_init_measure _ _ _ Hinit)) as Hwp.
    unfold wp in Hwp.
    destruct (parse_program (fuel_for source_code) p0) as [[ast| |] p1];
      exact Hwp.
  - exact I.
  - unfold Parser_init in Hinit.
    destruct (get_next_token (Lexer_init source_code)) as [[t| |] l'];
      try discriminate.
    apply Hnf. reflexivity.
Qed.

(** What [compile] returns, in terms of the first two stages. *)
Lemma compile_result source_code self :
  fst (compile source_code self) =
  match parse_source source_code with
  | Ok ast => Ok (PyStr (String.concat nl (program_lines ast)))
  | Raise e => Ok (compilation_error e)
  | OutOfFuel => OutOfFuel
  end.
Proof.
  pose proof (parse_source_total source_code) as Htot.
  unfold compile, parse_source in *.
  destruct (Parser_init (Lexer_init source_code)) as [[p0| |] l];
    try reflexivity.
  destruct (parse_program (fuel_for source_code) p0) as [[ast| |] p1];
    try reflexivity.
  cbn [fst] in Htot.
  destruct (visit_program ast Htot CodeGenerator_init) as [t Hv].
  rewrite Hv. reflexivity.
Qed.

(** C1.  [compile] returns normally on every source text and every state
    of the compiler object: its value is a string, which is either
    the error string of the exception a stage raised, or the text of all
    the lines of the program that was parsed. *)
Theorem compile_returns_text_or_error (source_code : string)
    (self : NovaScriptCompiler) :
  exists text self',
    compile source_code self = (Ok (PyStr text), self')
    /\ ((exists e,
           parse_source source_code = Raise e
           /\ text = "Compilation error: " ++ exn_str e)
        \/ (exists ast,
              parse_source source_code = Ok ast
              /\ program_ok ast = true
              /\ fst (visit ast CodeGenerator_init) = Ok (PyStr text)
              /\ text = String.concat nl (program_lines ast))).
Proof.
  pose proof (compile_result source_code self) as Hres.
  pose proof (parse_source_total source_code) as Htot.
  destruct (compile source_code self) as [o self'].
  cbn [fst] in Hres. subst o.
  destruct (parse_source source_code) as [ast| e |] eqn:Hp.
  - exists (String.concat nl (program_lines ast)), self'.
    split; [reflexivity|]. right. exists ast.
    destruct (visit_program ast Htot CodeGenerator_init) as [t Hv].
    rewrite Hv. repeat split; auto.
  - exists ("Compilation error: " ++ exn_str e), self'.
    split; [reflexivity|]. left. exists e. split; reflexivity.
  - contradiction.
Qed.

(** C8.  The value [compile] returns depends on the source text only:
    two invocations on the same text return the same string, whatever
    earlier invocations left in the compiler object. *)
Theorem compile_deterministic (source_code : string)
    (self1 self2 : NovaScriptCompiler) :
  fst (compile source_code self1) = fst (compile source_code self2)
  /\ forall earlier,
       fst (compile source_code (snd (compile earlier self1)))
       = fst (compile source_code self1).
Proof.
  split; [|intros earlier]; rewrite !compile_result; reflexivity.
Qed.

(* ------------------------------------------------------------------ *)
(** * Operators of the parsed trees *)

Lemma operators_ok_node_in n ast :
  node_in n ast -> operators_ok ast = true -> operators_ok n = true.
Proof.
  induction 1 as [ |d a t body s Hin _ IH|nm ps rt body s Hin _ IH
                  |nm ty v _ IH|tg v _ IH|l op r _ IH|l op r _ IH|v _ IH];
    intros Hok; auto.
  - apply IH. cbn [operators_ok] in Hok.
    rewrite forallb_forall in Hok. apply Hok, Hin.
  - apply IH. cbn [operators_ok] in Hok.
    rewrite forallb_forall in Hok. apply Hok, Hin.
  - apply IH. cbn [operators_ok] in Hok.
    apply andb_true_iff in Hok. destruct Hok as [Hok _].
    apply andb_true_iff in Hok. apply Hok.
  - apply IH. cbn [operators_ok] in Hok.
    apply andb_true_iff in Hok. apply Hok.
Qed.

Lemma expr_ok_operators node : expr_ok node = true -> operators_ok node = true.
Proof.
  induction node; try discriminate; try reflexivity.
  cbn [expr_ok operators_ok]. intros H.
  apply andb_true_iff in H. destruct H as [H H2].
  apply andb_true_iff in H. destruct H as [Hop H1].
  rewrite Hop, IHnode1, IHnode2; auto.
Qed.

Lemma stmt_ok_operators node : stmt_ok node = true -> operators_ok node = true.
Proof.
  induction node using ASTNode_nested_ind; try discriminate;
    cbn [stmt_ok operators_ok]; try apply expr_ok_operators.
  intros Hok. rewrite forallb_forall in *. rewrite Forall_forall in H.
  intros s Hs. apply H; auto.
Qed.

Lemma program_ok_operators node :
  program_ok node = true -> operators_ok node = true.
Proof.
  destruct node; try discriminate. cbn [program_ok operators_ok].
  intros Hok. rewrite forallb_forall in *.
  intros s Hs. apply stmt_ok_operators; auto.
Qed.

Lemma is_arith_In operator :
  is_arith operator = true -> In operator [PLUS; MINUS; MULTIPLY; DIVIDE].
Proof.
  destruct operator; try discriminate; simpl; auto.
Qed.

(** C9.  In a tree that [parse_program] returns, every [BinaryOp] node
    carries one of PLUS, MINUS, MULTIPLY and DIVIDE, so the lookup in
    [op_map] finds its key, and visiting the tree raises nothing. *)
Theorem parsed_operators_are_arithmetic (fuel : nat) (p p' : Parser)
    (ast : ASTNode) :
  (measure p < fuel)%nat ->
  parse_program fuel p = (Ok ast, p') ->
  (forall left_node operator right_node,
     node_in (BinaryOp left_node operator right_node) ast ->
     In operator [PLUS; MINUS; MULTIPLY; DIVIDE]
     /\ op_map operator <> None)
  /\ (forall g, exists v g', visit ast g = (Ok v, g')).
Proof.
  intros Hf Hp.
  pose proof (wp_ok _ _ _ _ _ (parse_program_spec fuel p Hf) Hp) as Hok.
  cbv beta in Hok. split.
  - intros l op r Hin.
    pose proof (operators_ok_node_in _ _ Hin (program_ok_operators _ Hok))
      as Hn.
    cbn [operators_ok] in Hn.
    apply andb_true_iff in Hn. destruct Hn as [Hn _].
    apply andb_true_iff in Hn. destruct Hn as [Hop _].
    split; [apply is_arith_In, Hop|].
    rewrite (is_arith_op_map _ Hop). discriminate.
  - intros g. destruct (visit_program ast Hok g) as [t Hv].
    rewrite Hv. eauto.
Qed.

Lemma parsed_operators_are_arithmetic_witness :
  (forall left_node operator right_node,
     node_in (BinaryOp left_node operator right_node) sample_ast ->
     In operator [PLUS; MINUS; MULTIPLY; DIVIDE]
     /\ op_map operator <> None)
  /\ (forall g, exists v g', visit sample_ast g = (Ok v, g')).
Proof.
  apply (parsed_operators_are_arithmetic 40 sample_parser
           (mkParser (mkLexer "" 1 40) (mkToken EOF "" 1 40)) sample_ast).
  - apply Nat.ltb_lt. reflexivity.
  - reflexivity.
Defined.

(* ------------------------------------------------------------------ *)
(** * The indentation level *)

Lemma keeps_indent_ret {A} (a : A) : keeps_indent (ret a).
Proof. intros g. reflexivity. Qed.

Lemma keeps_indent_raise {A} e : keeps_indent (@raise CodeGenerator A e).
Proof. intros g. exact I. Qed.

Lemma keeps_indent_emit code : keeps_indent (emit code).
Proof. intros g. reflexivity. Qed.

Lemma keeps_indent_define name type value :
  keeps_indent (symbol_table_define name type value).
Proof. intros g. reflexivity. Qed.

Lemma keeps_indent_bind {A B} (m : M CodeGenerator A)
    (f : A -> M CodeGenerator B) :
  keeps_indent m -> (forall a, keeps_indent (f a)) -> keeps_indent (bind m f).
Proof.
  intros Hm Hf g. apply wp_bind. eapply wp_mono; [apply Hm|].
  intros a g1 H1. cbv beta. eapply wp_mono; [apply Hf|].
  intros b g2 H2. cbv beta in *. congruence.
Qed.

Lemma keeps_indent_when b (m : M CodeGenerator unit) :
  keeps_indent m -> keeps_indent (when b m).
Proof. destruct b; [auto|intros _; apply keeps_indent_ret]. Qed.

Lemma keeps_indent_emit_params params : keeps_indent (emit_params params).
Proof.
  induction params as [|[name param_type] params IH]; cbn [emit_params].
  - apply keeps_indent_ret.
  - apply keeps_indent_bind; [|intros _; exact IH].
    apply keeps_indent_when, keeps_indent_emit.
Qed.

Lemma keeps_indent_visit_all body :
  Forall (fun statement => keeps_indent (visit statement)) body ->
  keeps_indent (visit_all body).
Proof.
  induction 1 as [|s body Hs _ IH]; cbn [visit_all].
  - apply keeps_indent_ret.
  - apply keeps_indent_bind; [exact Hs|intros _; exact IH].
Qed.

(** The body of a function is bracketed by [indent] and [dedent]. *)
Lemma keeps_indent_bracket {A} (m : M CodeGenerator A) :
  keeps_indent m -> keeps_indent (indent ;;; x <- m ;; dedent ;;; ret x).
Proof.
  intros Hm g. apply wp_bind. unfold wp at 1, indent.
  apply wp_bind. eapply wp_mono; [apply Hm|].
  intros a g1 H1. cbv beta. apply wp_bind. unfold wp at 1, dedent.
  apply wp_ret. cbn [indent_level] in *. rewrite H1. apply Z.add_simpl_r.
Qed.

Lemma keeps_indent_visit node : keeps_indent (visit node).
Proof.
  induction node using ASTNode_nested_ind.
  - (* Program *)
    rewrite visit_Program.
    repeat (apply keeps_indent_bind;
            [first [apply keeps_indent_emit
                   |apply keeps_indent_when, keeps_indent_emit
                   |apply keeps_indent_visit_all; assumption]
            |intros _]).
    intros g. reflexivity.
  - (* FunctionDecl *)
    rewrite visit_FunctionDecl.
    apply keeps_indent_bind; [apply keeps_indent_emit|intros _].
    intros g.
    pose proof (keeps_indent_bracket
                  (emit_params params ;;;
                   when (truthy return_type)
                     (emit ("# Returns: " ++ some_str return_type)) ;;;
                   visit_all body)) as Hb.
    assert (Hinner : keeps_indent
                       (emit_params params ;;;
                        when (truthy return_type)
                          (emit ("# Returns: " ++ some_str return_type)) ;;;
                        visit_all body)).
    { apply keeps_indent_bind; [apply keeps_indent_emit_params|intros _].
      apply keeps_indent_bind;
        [apply keeps_indent_when, keeps_indent_emit|intros _].
      apply keeps_indent_visit_all; assumption. }
    specialize (Hb Hinner g).
    unfold wp, bind in *. unfold indent in *.
    destruct (emit_params params _) as [[[]| |] g1]; auto.
    destruct (when (truthy return_type) _ g1) as [[[]| |] g2]; auto.
    destruct (visit_all body g2) as [[[]| |] g3]; auto.
  - (* VariableDecl *)
    cbn [visit].
    apply keeps_indent_bind; [exact IHnode|intros v].
    apply keeps_indent_bind; [apply keeps_indent_define|intros _].
    apply keeps_indent_bind; [apply keeps_indent_emit|intros _].
    apply keeps_indent_ret.
  - (* Assignment *)
    cbn [visit].
    apply keeps_indent_bind; [exact IHnode|intros v].
    apply keeps_indent_bind; [apply keeps_indent_emit|intros _].
    apply keeps_indent_ret.
  - (* BinaryOp *)
    cbn [visit].
    apply keeps_indent_bind; [exact IHnode1|intros v1].
    apply keeps_indent_bind; [exact IHnode2|intros v2].
    destruct (op_map operator);
      [apply keeps_indent_ret|apply keeps_indent_raise].
  - apply keeps_indent_ret.
  - apply keeps_indent_ret.
  - apply keeps_indent_ret.
  - apply keeps_indent_ret.
  - (* Display *)
    cbn [visit].
    apply keeps_indent_bind; [exact IHnode|intros v].
    apply keeps_indent_bind; [apply keeps_indent_emit|intros _].
    apply keeps_indent_ret.
Qed.

(** C10.  A visit that completes leaves [indent_level] at the value it
    had before the visit, for every kind of node; and a statement of the
    grammar puts out exactly its lines at the depth of its nesting, the
    body of a function one level deeper than its header. *)
Theorem visit_restores_indent_level (node : ASTNode) (g g' : CodeGenerator)
    (v : pyval) :
  visit node g = (Ok v, g') ->
  indent_level g' = indent_level g
  /\ (stmt_ok node = true ->
      v = PyNone
      /\ output g' = (output g ++ stmt_lines (indent_level g) node)%list).
Proof.
  intros Hv. split.
  - exact (wp_ok _ _ _ _ _ (keeps_indent_visit node g) Hv).
  - intros Hok. rewrite (visit_stmt node Hok g) in Hv.
    injection Hv as <- <-. split; reflexivity.
Qed.

Lemma visit_restores_indent_level_witness :
  indent_level
    (snd (visit (FunctionDecl "f" [("a", Some "int")] None
                   [Display (Identifier "a")]) CodeGenerator_init)) = 0%Z
  /\ (stmt_ok (FunctionDecl "f" [("a", Some "int")] None
                 [Display (Identifier "a")]) = true ->
      PyNone = PyNone
      /\ output
           (snd (visit (FunctionDecl "f" [("a", Some "int")] None
                          [Display (Identifier "a")]) CodeGenerator_init))
         = ([] ++ stmt_lines 0
                    (FunctionDecl "f" [("a", Some "int")] None
                       [Display (Identifier "a")]))%list).
Proof.
  apply (visit_restores_indent_level
           (FunctionDecl "f" [("a", Some "int")] None
              [Display (Identifier "a")])
           CodeGenerator_init _ PyNone).
  reflexivity.
Defined.

(* ------------------------------------------------------------------ *)
(** * Invalid characters *)


Lemma skip_whitespace_id l :
  match current_char l with
  | Some c => isspace c = false
  | None => True
  end ->
  skip_whitespace l = l.
Proof.
  unfold skip_whitespace, current_char. destruct l as [rest line column].
  cbn [lex_rest lex_line lex_column].
  destruct rest as [|c rest]; [reflexivity|].
  intros Hc. simpl. rewrite Hc. reflexivity.
Qed.

(** The first pass of [get_next_token] amounts to [skip_whitespace]. *)
Lemma get_next_token_skip l :
  get_next_token l =
  match current_char (skip_whitespace l) with
  | Some c => scan_token c (skip_whitespace l)
  | None =>
      (Ok (mkToken EOF "" (lex_line (skip_whitespace l))
             (lex_column (skip_whitespace l))), skip_whitespace l)
  end.
Proof.
  unfold get_next_token.
  destruct (current_char l) as [c|] eqn:Hc.
  - destruct (isspace c) eqn:Hs; [reflexivity|].
    rewrite skip_whitespace_id; [reflexivity|]. rewrite Hc. exact Hs.
  - rewrite skip_whitespace_id; [reflexivity|]. rewrite Hc. exact I.
Qed.

(** [get_next_token] satisfies the equation of its [while] loop: on white
    space it skips and starts over. *)
Lemma get_next_token_loop l :
  get_next_token l =
  match current_char l with
  | Some c =>
      if isspace c then get_next_token (skip_whitespace l)
      else scan_token c l
  | None => (Ok (mkToken EOF "" (lex_line l) (lex_column l)), l)
  end.
Proof.
  destruct (current_char l) as [c|] eqn:Hc.
  - destruct (isspace c) eqn:Hs.
    + rewrite (get_next_token_skip (skip_whitespace l)).
      rewrite (skip_whitespace_id (skip_whitespace l)).
      * rewrite get_next_token_skip. reflexivity.
      * destruct (current_char (skip_whitespace l)) as [c'|] eqn:Hc';
          [|exact I].
        apply (skip_whitespace_stops l c' Hc').
    + unfold get_next_token. rewrite Hc, Hs, Hc. reflexivity.
  - unfold get_next_token. rewrite Hc, Hc. reflexivity.
Qed.







(* ------------------------------------------------------------------ *)
(** * Expressions *)

(** C6.  Multiplication binds tighter than addition, parentheses are
    kept, and number literals are rendered as floats: the trees and the
    texts of the two expressions, alone and in a display statement. *)
Theorem precedence_and_parentheses :
  (py_float "2" = Some two /\ py_float "3" = Some three
   /\ py_float "4" = Some four)
  /\ (py_str_float two = "2.0" /\ py_str_float three = "3.0"
      /\ py_str_float four = "4.0")
  /\ parse_expression_source "2 + 3 * 4" =
    Ok (BinaryOp (Number two) PLUS
          (BinaryOp (Number three) MULTIPLY (Number four)))
  /\ generate_expression "2 + 3 * 4" = Ok (PyStr "(2.0 + (3.0 * 4.0))")
  /\ parse_expression_source "(2 + 3) * 4" =
       Ok (BinaryOp (BinaryOp (Number two) PLUS (Number three)) MULTIPLY
             (Number four))
  /\ generate_expression "(2 + 3) * 4" = Ok (PyStr "((2.0 + 3.0) * 4.0)")
  /\ fst (compile "PROGRAM BEGIN display 2 + 3 * 4 PROGRAM END"
            NovaScriptCompiler_init) =
     Ok (PyStr ("# Generated Python code" ++ nl ++ nl
                ++ "print((2.0 + (3.0 * 4.0)))"))
  /\ fst (compile "PROGRAM BEGIN display (2 + 3) * 4 PROGRAM END"
            NovaScriptCompiler_init) =
     Ok (PyStr ("# Generated Python code" ++ nl ++ nl
                ++ "print(((2.0 + 3.0) * 4.0))")).
Proof. repeat split; vm_compute; reflexivity. Qed.

(* ------------------------------------------------------------------ *)
(** * The metadata loop and the body loops *)

(** C3.  The metadata loop is entered on any IDENTIFIER: a program whose
    first statement is an assignment is rejected, the loop asking for a
    STRING after the name, while the same assignment after another
    statement is parsed. *)
Theorem assignment_first_is_rejected :
  fst (compile ("PROGRAM BEGIN" ++ nl ++ "x = 1" ++ nl ++ "PROGRAM END")
         NovaScriptCompiler_init) =
    Ok (PyStr "Compilation error: Expected TokenType.STRING, got TokenType.ASSIGN at line 2, column 3")
  /\ fst (compile ("PROGRAM BEGIN" ++ nl ++ "display 0" ++ nl ++ "x = 1" ++ nl
                   ++ "PROGRAM END") NovaScriptCompiler_init) =
     Ok (PyStr ("# Generated Python code" ++ nl ++ nl ++ "print(0.0)" ++ nl
                ++ "x = 1.0")).
Proof. split; vm_compute; reflexivity. Qed.

(** C5.  The loop of the program body tests for EOF and reports an
    unexpected end of file; the loop of a function body does not, and a
    function cut short at the end of the input is reported by
    [parse_statement] as an unexpected token. *)
Theorem truncated_bodies :
  fst (compile ("PROGRAM BEGIN" ++ nl ++ "display 0" ++ nl)
         NovaScriptCompiler_init) =
    Ok (PyStr "Compilation error: Unexpected end of file at line 3, column 1")
  /\ fst (compile ("PROGRAM BEGIN" ++ nl ++ "func f()" ++ nl ++ "display 0"
                   ++ nl) NovaScriptCompiler_init) =
     Ok (PyStr "Compilation error: Unexpected token TokenType.EOF at line 4, column 1").
Proof. split; vm_compute; reflexivity. Qed.

(* ------------------------------------------------------------------ *)
(** * Parameter lists *)

Lemma tokens_ahead_cons token_type text ts p p' :
  tokens_ahead ((token_type, text) :: ts) p = Some p' ->
  tok_type (current_token p) = token_type
  /\ tok_value (current_token p) = text
  /\ exists p1, eat token_type p = (Ok tt, p1) /\ tokens_ahead ts p1 = Some p'.
Proof.
  cbn [tokens_ahead].
  destruct (TokenType_eqb (tok_type (current_token p)) token_type) eqn:Ht;
    [|discriminate].
  destruct (String.eqb (tok_value (current_token p)) text) eqn:Hv;
    [|discriminate].
  cbn [andb]. apply TokenType_eqb_eq in Ht. apply String.eqb_eq in Hv.
  destruct (eat token_type p) as [[[]| |] p1]; try discriminate.
  intros H. repeat split; auto. exists p1. auto.
Qed.

Lemma tokens_ahead_app ts1 ts2 p p' :
  tokens_ahead (ts1 ++ ts2) p = Some p' ->
  exists p1, tokens_ahead ts1 p = Some p1 /\ tokens_ahead ts2 p1 = Some p'.
Proof.
  revert p. induction ts1 as [|[token_type text] ts1 IH]; intros p H.
  - exists p. split; [reflexivity|exact H].
  - cbn [app tokens_ahead] in *.
    destruct (TokenType_eqb (tok_type (current_token p)) token_type
              && String.eqb (tok_value (current_token p)) text);
      [|discriminate].
    destruct (eat token_type p) as [[[]| |] p1]; try discriminate.
    apply IH, H.
Qed.

(** Before a list of parameters the current token is an IDENTIFIER, or
    the list is empty. *)
Lemma params_ahead_head ps p p' :
  tokens_ahead (flat_map param_tokens ps) p = Some p' ->
  tok_type (current_token p) = IDENTIFIER \/ (ps = [] /\ p = p').
Proof.
  destruct ps as [|[[name param_type] comma] ps].
  - intros [= <-]. right. split; reflexivity.
  - cbn [flat_map param_tokens app]. intros H.
    apply tokens_ahead_cons in H. left. apply H.
Qed.

Lemma parse_param_written x acc p p1 :
  tokens_ahead (param_tokens x) p = Some p1 ->
  tok_type (current_token p1) = IDENTIFIER
  \/ tok_type (current_token p1) = RPAREN ->
  parse_param acc p = (Ok (acc ++ [param_pair x])%list, p1).
Proof.
  destruct x as [[name param_type] comma]. intros H Hnext.
  assert (Hcolon : TokenType_eqb (tok_type (current_token p1)) COLON = false)
    by (destruct Hnext as [-> | ->]; reflexivity).
  assert (Hcomma : TokenType_eqb (tok_type (current_token p1)) COMMA = false)
    by (destruct Hnext as [-> | ->]; reflexivity).
  cbn [param_tokens app] in H.
  apply tokens_ahead_cons in H.
  destruct H as (_ & Hname & pa & Ha & H).
  unfold parse_param. unfold bind at 1. unfold current at 1.
  unfold bind at 1. rewrite Ha. unfold bind at 1. unfold current at 1.
  rewrite Hname.
  destruct param_type as [t|]; cbn [app] in H.
  - apply tokens_ahead_cons in H. destruct H as (Hty & _ & pb & Hb & H).
    apply tokens_ahead_cons in H. destruct H as (_ & Htv & pc & Hc & H).
    rewrite Hty. cbn [TokenType_eqb TokenType_value N.eqb Pos.eqb].
    unfold bind at 1. unfold bind at 1. rewrite Hb.
    unfold bind at 1. unfold current at 1. unfold bind at 1. rewrite Hc.
    unfold ret at 1. rewrite Htv.
    unfold bind at 1. unfold current at 1.
    destruct comma; cbn [app] in H.
    + apply tokens_ahead_cons in H. destruct H as (Hty2 & _ & pd & Hd & H).
      injection H as ->. rewrite Hty2.
      cbn [TokenType_eqb TokenType_value N.eqb Pos.eqb].
      unfold bind. rewrite Hd. reflexivity.
    + injection H as ->. rewrite Hcomma. reflexivity.
  - destruct comma; cbn [app] in H.
    + apply tokens_ahead_cons in H. destruct H as (Hty2 & _ & pd & Hd & H).
      injection H as ->. rewrite Hty2.
      cbn [TokenType_eqb TokenType_value N.eqb Pos.eqb].
      unfold bind at 1. unfold ret at 1.
      unfold bind at 1. unfold current at 1. unfold bind at 1.
      rewrite Hty2. cbn [TokenType_eqb TokenType_value N.eqb Pos.eqb].
      rewrite Hd. reflexivity.
    + injection H as ->. rewrite Hcolon.
      unfold bind at 1. unfold ret at 1.
      unfold bind at 1. unfold current at 1. unfold bind at 1.
      rewrite Hcomma. reflexivity.
Qed.

(** The parameter loop on written parameters followed by RPAREN. *)
Lemma parse_params_written ps :
  forall fuel acc p p',
    tokens_ahead (flat_map param_tokens ps) p = Some p' ->
    tok_type (current_token p') = RPAREN ->
    (List.length ps <= fuel)%nat ->
    while fuel (fun p => negb (current_in [RPAREN] p)) parse_param acc p =
    (Ok (acc ++ map param_pair ps)%list, p').
Proof.
  induction ps as [|x ps IH]; intros fuel acc p p' H Hend Hfuel.
  - injection H as ->. rewrite app_nil_r.
    assert (Hc : negb (current_in [RPAREN] p') = false).
    { unfold current_in. cbn [existsb]. rewrite Hend. reflexivity. }
    destruct fuel; cbn [while]; rewrite Hc; reflexivity.
  - cbn [flat_map] in H. apply tokens_ahead_app in H.
    destruct H as (p1 & Hx & Hps).
    assert (Hhead : tok_type (current_token p) = IDENTIFIER).
    { destruct x as [[name param_type] comma].
      cbn [param_tokens app] in Hx. apply tokens_ahead_cons in Hx.
      apply Hx. }
    assert (Hc : negb (current_in [RPAREN] p) = true).
    { unfold current_in. cbn [existsb]. rewrite Hhead. reflexivity. }
    destruct fuel as [|fuel]; [cbn [List.length] in Hfuel; lia|].
    cbn [while]. rewrite Hc. unfold bind at 1.
    rewrite (parse_param_written x acc p p1 Hx).
    + rewrite (IH fuel _ p1 p' Hps Hend).
      * cbn [map]. rewrite <- app_assoc. reflexivity.
      * cbn [List.length] in Hfuel. lia.
    + destruct (params_ahead_head ps p1 p' Hps) as [Hi|[_ ->]]; auto.
Qed.

(** C4, amended.  The comma after a parameter is optional.  For a
    function written [func name ( params )], each parameter with or
    without a type and with or without a comma after it, every tree
    [parse_function] returns holds the parameter pairs in the order they
    are written; and when END follows at once, it returns the function of
    these parameters with no return type and an empty body. *)
Theorem parameters_in_source_order (fuel : nat) (name : string)
    (ps : list written_param) (p p1 : Parser)
    (parse_stmt : M Parser (option ASTNode)) :
  tokens_ahead
    ((FUNC, "func") :: (IDENTIFIER, name) :: (LPAREN, "(")
     :: flat_map param_tokens ps) p = Some p1 ->
  tok_type (current_token p1) = RPAREN ->
  (List.length ps <= fuel)%nat ->
  (forall node p',
     parse_function fuel parse_stmt p = (Ok node, p') ->
     exists return_type body,
       node = FunctionDecl name (map param_pair ps) return_type body)
  /\ (forall p2,
        tokens_ahead [(RPAREN, ")"); (END, "END")] p1 = Some p2 ->
        parse_function fuel parse_stmt p =
        (Ok (FunctionDecl name (map param_pair ps) None []), p2)).
Proof.
  intros H Hend Hfuel.
  apply tokens_ahead_cons in H. destruct H as (_ & _ & pa & Ha & H).
  apply tokens_ahead_cons in H. destruct H as (_ & Hname & pb & Hb & H).
  apply tokens_ahead_cons in H. destruct H as (_ & _ & pc & Hc & H).
  pose proof (parse_params_written ps fuel [] pc p1 H Hend Hfuel) as Hloop.
  cbn [app] in Hloop.
  assert (Hstart :
    parse_function fuel parse_stmt p =
    (eat RPAREN ;;;
     token <- current ;;
     return_type <-
       (if TokenType_eqb (tok_type token) RETURN then
          eat RETURN ;;;
          token <- current ;;
          eat IDENTIFIER ;;;
          ret (Some (tok_value token))
        else ret None) ;;
     body <-
       while fuel (fun p => negb (current_in [END] p))
         (fun body =>
            statement <- parse_stmt ;;
            ret (append_statement body statement))
         [] ;;
     eat END ;;;
     ret (FunctionDecl name (map param_pair ps) return_type body)) p1).
  { unfold parse_function. unfold bind at 1. rewrite Ha.
    unfold bind at 1. unfold current at 1. unfold bind at 1. rewrite Hb.
    unfold bind at 1. rewrite Hc. unfold bind at 1.
    unfold parse_function_params. rewrite Hloop. rewrite Hname.
    reflexivity. }
  split.
  - intros node p' Hp. rewrite Hstart in Hp.
    unfold bind in Hp.
    repeat match type of Hp with
           | context [match ?m ?s with (_, _) => _ end] =>
               destruct (m s) as [[?| |] ?]; try discriminate Hp
           | context [if ?b then _ else _] => destruct b
           end;
      try (unfold ret in Hp; injection Hp as <- <-; eauto).
  - intros p2 H2.
    apply tokens_ahead_cons in H2. destruct H2 as (_ & _ & pd & Hd & H2).
    apply tokens_ahead_cons in H2. destruct H2 as (Hty & _ & pe & He & H2).
    injection H2 as ->.
    rewrite Hstart. unfold bind at 1. rewrite Hd.
    unfold bind at 1. unfold current at 1. rewrite Hty.
    cbn [TokenType_eqb TokenType_value N.eqb Pos.eqb].
    unfold bind at 1. unfold ret at 1. unfold bind at 1.
    assert (Hcond : negb (current_in [END] pd) = false).
    { unfold current_in. cbn [existsb]. rewrite Hty. reflexivity. }
    destruct fuel; cbn [while]; rewrite Hcond; unfold bind; rewrite He;
      reflexivity.
Qed.

Lemma parameters_in_source_order_witness :
  parse_function 3 (parse_statement 3) sample_function_parser =
  (Ok (FunctionDecl "f" [("a", Some "int"); ("b", None); ("c", None)] None []),
   sample_function_parser_end).
Proof.
  apply (proj2 (parameters_in_source_order 3 "f"
                  [("a", Some "int", false); ("b", None, true);
                   ("c", None, false)]
                  sample_function_parser sample_function_parser_rparen
                  (parse_statement 3) eq_refl eq_refl
                  (proj1 (Nat.leb_le 3 3) eq_refl))
           sample_function_parser_end).
  reflexivity.
Defined.

(** C4 as stated does not hold: two parameters without a comma between
    them are parsed, and give the same tree as with the comma. *)
Lemma parameters_without_comma_are_parsed :
  parse_source "PROGRAM BEGIN func f(a b) END PROGRAM END" =
    Ok (Program None None None
          [FunctionDecl "f" [("a", None); ("b", None)] None []])
  /\ ~ (exists e,
          parse_source "PROGRAM BEGIN func f(a b) END PROGRAM END" = Raise e)
  /\ parse_source "PROGRAM BEGIN func f(a b) END PROGRAM END" =
     parse_source "PROGRAM BEGIN func f(a, b) END PROGRAM END".
Proof.
  split; [vm_compute; reflexivity|]. split.
  - intros [e He]. vm_compute in He. discriminate He.
  - vm_compute. reflexivity.
Qed.

(* ------------------------------------------------------------------ *)
(** * The loops of [parse_program] and [parse_function], in general *)

(** After PROGRAM BEGIN, an IDENTIFIER that is not followed by a STRING is
    eaten by the metadata loop, which then fails: no such program is
    parsed. *)
Lemma metadata_loop_requires_string fuel name p p1 :
  tokens_ahead
    [(PROGRAM, "PROGRAM"); (BEGIN, "BEGIN"); (IDENTIFIER, name)] p = Some p1 ->
  tok_type (current_token p1) <> STRING ->
  parse_program (S fuel) p =
  (Raise (SyntaxError
            ("Expected TokenType.STRING, got "
             ++ TokenType_str (tok_type (current_token p1)) ++ " at line "
             ++ str_of_N (tok_line (current_token p1)) ++ ", column "
             ++ str_of_N (tok_column (current_token p1)))), p1).
Proof.
  intros H Hns.
  apply tokens_ahead_cons in H. destruct H as (_ & _ & pa & Ha & H).
  apply tokens_ahead_cons in H. destruct H as (_ & _ & pb & Hb & H).
  apply tokens_ahead_cons in H. destruct H as (Hty & _ & pc & Hc & H).
  injection H as ->.
  unfold parse_program. unfold bind at 1. rewrite Ha.
  unfold bind at 1. rewrite Hb. unfold bind at 1.
  cbn [while]. unfold current_in at 1. cbn [existsb]. rewrite Hty.
  cbn [TokenType_eqb TokenType_value N.eqb Pos.eqb orb].
  unfold bind at 1. unfold bind at 1. unfold current at 1.
  unfold bind at 1. rewrite Hc.
  unfold bind at 1. unfold current at 1. unfold bind at 1.
  unfold eat at 1.
  apply TokenType_eqb_neq in Hns. rewrite Hns. reflexivity.
Qed.

(** A function whose body meets the end of the input: the loop of the
    body has no test for EOF and [parse_statement] reports the token. *)
Lemma function_body_at_eof fuel fuel' name p p1 :
  tokens_ahead
    [(FUNC, "func"); (IDENTIFIER, name); (LPAREN, "("); (RPAREN, ")")] p
  = Some p1 ->
  tok_type (current_token p1) = EOF ->
  parse_function (S fuel) (parse_statement (S fuel')) p =
  (Raise (SyntaxError
            ("Unexpected token TokenType.EOF at line "
             ++ str_of_N (tok_line (current_token p1)) ++ ", column "
             ++ str_of_N (tok_column (current_token p1)))), p1).
Proof.
  intros H Heof.
  apply tokens_ahead_cons in H. destruct H as (_ & _ & pa & Ha & H).
  apply tokens_ahead_cons in H. destruct H as (_ & _ & pb & Hb & H).
  apply tokens_ahead_cons in H. destruct H as (_ & _ & pc & Hc & H).
  apply tokens_ahead_cons in H. destruct H as (Hty & _ & pd & Hd & H).
  injection H as ->.
  unfold parse_function. unfold bind at 1. rewrite Ha.
  unfold bind at 1. unfold current at 1. unfold bind at 1. rewrite Hb.
  unfold bind at 1. rewrite Hc. unfold bind at 1.
  unfold parse_function_params. cbn [while].
  unfold current_in at 1. cbn [existsb]. rewrite Hty.
  cbn [TokenType_eqb TokenType_value N.eqb Pos.eqb orb negb].
  unfold bind at 1. rewrite Hd.
  unfold bind at 1. unfold current at 1. rewrite Heof.
  cbn [TokenType_eqb TokenType_value N.eqb Pos.eqb].
  unfold bind at 1. unfold ret at 1. unfold bind at 1.
  cbn [while]. unfold current_in at 1. cbn [existsb]. rewrite Heof.
  cbn [TokenType_eqb TokenType_value N.eqb Pos.eqb orb negb].
  unfold bind at 1. unfold bind at 1.
  cbn [parse_statement]. unfold bind at 1. unfold current at 1.
  rewrite Heof. reflexivity.
Qed.

(** The program body at the end of the input: the loop tests for EOF. *)
Lemma program_body_at_eof fuel p p1 :
  tokens_ahead [(PROGRAM, "PROGRAM"); (BEGIN, "BEGIN")] p = Some p1 ->
  tok_type (current_token p1) = EOF ->
  parse_program (S fuel) p =
  (Raise (SyntaxError
            ("Unexpected end of file at line "
             ++ str_of_N (tok_line (current_token p1)) ++ ", column "
             ++ str_of_N (tok_column (current_token p1)))), p1).
Proof.
  intros H Heof.
  apply tokens_ahead_cons in H. destruct H as (_ & _ & pa & Ha & H).
  apply tokens_ahead_cons in H. destruct H as (_ & _ & pb & Hb & H).
  injection H as ->.
  unfold parse_program. unfold bind at 1. rewrite Ha.
  unfold bind at 1. rewrite Hb. unfold bind at 1.
  cbn [while]. unfold current_in at 1. cbn [existsb]. rewrite Heof.
  cbn [TokenType_eqb TokenType_value N.eqb Pos.eqb orb].
  unfold bind at 1.
  unfold current_in at 1. cbn [existsb]. rewrite Heof.
  cbn [TokenType_eqb TokenType_value N.eqb Pos.eqb orb negb].
  unfold bind at 1. unfold bind at 1. unfold current at 1.
  unfold bind at 1. rewrite Heof.
  cbn [TokenType_eqb TokenType_value N.eqb Pos.eqb]. reflexivity.
Qed.

(* ------------------------------------------------------------------ *)
(** * The symbol table *)

Lemma dict_find_set_same {V} (d : list (string * V)) k v :
  dict_find (dict_set d k v) k = Some v.
Proof.
  induction d as [|[k' v'] d IH]; simpl.
  - rewrite String.eqb_refl. reflexivity.
  - destruct (String.eqb k k') eqn:E; simpl.
    + rewrite String.eqb_refl. reflexivity.
    + rewrite E. exact IH.
Qed.

Lemma dict_find_set_other {V} (d : list (string * V)) k k' v :
  k' <> k -> dict_find (dict_set d k v) k' = dict_find d k'.
Proof.
  intros Hne. apply String.eqb_neq in Hne.
  induction d as [|[k0 v0] d IH]; simpl.
  - rewrite Hne. reflexivity.
  - destruct (String.eqb k k0) eqn:E; simpl.
    + apply String.eqb_eq in E. subst k0. rewrite Hne. reflexivity.
    + destruct (String.eqb k' k0); [reflexivity|exact IH].
Qed.

(** X1.  [lookup] after [define]: the name just defined is found with the
    type and value given, whatever the table and its parents held under
    that name, and every other name is looked up as before. *)
Theorem lookup_define (name : string) (symbol_type : option string)
    (value : pyval) (t : SymbolTable) :
  lookup name (define name symbol_type value t)
  = Some (mkSymbol symbol_type value)
  /\ (forall other, other <> name ->
        lookup other (define name symbol_type value t) = lookup other t).
Proof.
  destruct t as [s p]. split.
  - unfold define. cbn [symbols parent lookup].
    rewrite dict_find_set_same. destruct p; reflexivity.
  - intros other Hne. unfold define. cbn [symbols parent lookup].
    rewrite (dict_find_set_other s name other _ Hne). reflexivity.
Qed.

(** X2.  Along a chain of tables, each the parent of the one before,
    [lookup] returns the entry of the innermost table that holds the
    name, and nothing when none does; [define] writes to the innermost
    table only and leaves the parents as they were. *)
Theorem lookup_innermost (scopes : list (list (string * symbol)))
    (t : SymbolTable) (name : string) :
  table_chain scopes = Some t ->
  lookup name t = innermost scopes name
  /\ forall symbol_type value,
       parent (define name symbol_type value t) = parent t.
Proof.
  intros Ht. split; [|reflexivity].
  revert t Ht. induction scopes as [|s up IH]; intros t Ht; [discriminate|].
  cbn [table_chain] in Ht. injection Ht as <-.
  cbn [lookup innermost].
  destruct (dict_find s name) as [x|]; [destruct (table_chain up); reflexivity|].
  destruct (table_chain up) as [t'|] eqn:Hup.
  - apply IH. reflexivity.
  - destruct up; [reflexivity|discriminate Hup].
Qed.

Lemma lookup_innermost_witness :
  lookup "x" sample_child_table
  = Some (mkSymbol (Some "num") (PyStr "1.0")).
Proof.
  apply (proj1 (lookup_innermost
                  [[("y", mkSymbol (Some "str") PyNone)];
                   [("x", mkSymbol (Some "num") (PyStr "1.0"))]]
                  sample_child_table "x" eq_refl)).
Defined.

(* ------------------------------------------------------------------ *)
(** * The generator: output and symbol table *)

Lemma appends_output_bind {A B} (m : M CodeGenerator A)
    (f : A -> M CodeGenerator B) :
  appends_output m -> (forall a, appends_output (f a)) ->
  appends_output (bind m f).
Proof.
  intros Hm Hf g. unfold bind. destruct (Hm g) as [l1 H1].
  destruct (m g) as [[a| |] g1]; cbn [snd] in *.
  - destruct (Hf a g1) as [l2 H2]. exists (l1 ++ l2)%list.
    rewrite H2, H1, app_assoc. reflexivity.
  - exists l1. exact H1.
  - exists l1. exact H1.
Qed.

Lemma appends_output_same {A} (m : M CodeGenerator A) :
  (forall g, output (snd (m g)) = output g) -> appends_output m.
Proof. intros H g. exists []. rewrite H, app_nil_r. reflexivity. Qed.

Lemma appends_output_emit code : appends_output (emit code).
Proof. intros g. eexists. reflexivity. Qed.

Lemma appends_output_when b (m : M CodeGenerator unit) :
  appends_output m -> appends_output (when b m).
Proof.
  destruct b; [auto|]. intros _. apply appends_output_same. reflexivity.
Qed.

Lemma appends_output_emit_params params : appends_output (emit_params params).
Proof.
  induction params as [|[name param_type] params IH]; cbn [emit_params].
  - apply appends_output_same. reflexivity.
  - apply appends_output_bind; [|intros _; exact IH].
    apply appends_output_when, appends_output_emit.
Qed.

Lemma appends_output_visit_all body :
  Forall (fun statement => appends_output (visit statement)) body ->
  appends_output (visit_all body).
Proof.
  induction 1 as [|s body Hs _ IH]; cbn [visit_all].
  - apply appends_output_same. reflexivity.
  - apply appends_output_bind; [exact Hs|intros _; exact IH].
Qed.

(** X3.  A visit never changes or removes a line that was put out
    before: for every tree, and whether the visit returns or raises, the
    output afterwards is the output before followed by new lines. *)
Theorem visit_appends_output (node : ASTNode) (g : CodeGenerator) :
  exists lines, output (snd (visit node g)) = (output g ++ lines)%list.
Proof.
  revert g. change (appends_output (visit node)).
  induction node using ASTNode_nested_ind.
  - rewrite visit_Program.
    repeat (apply appends_output_bind;
            [first [apply appends_output_emit
                   |apply appends_output_when, appends_output_emit
                   |apply appends_output_visit_all; assumption]
            |intros _]).
    apply appends_output_same. reflexivity.
  - rewrite visit_FunctionDecl.
    repeat (apply appends_output_bind;
            [first [apply appends_output_emit
                   |apply appends_output_emit_params
                   |apply appends_output_when, appends_output_emit
                   |apply appends_output_visit_all; assumption
                   |apply appends_output_same; reflexivity]
            |intros _]).
    apply appends_output_same. reflexivity.
  - cbn [visit].
    apply appends_output_bind; [exact IHnode|intros v].
    apply appends_output_bind;
      [apply appends_output_same; reflexivity|intros _].
    apply appends_output_bind; [apply appends_output_emit|intros _].
    apply appends_output_same. reflexivity.
  - cbn [visit].
    apply appends_output_bind; [exact IHnode|intros v].
    apply appends_output_bind; [apply appends_output_emit|intros _].
    apply appends_output_same. reflexivity.
  - cbn [visit].
    apply appends_output_bind; [exact IHnode1|intros v1].
    apply appends_output_bind; [exact IHnode2|intros v2].
    destruct (op_map operator); apply appends_output_same; reflexivity.
  - apply appends_output_same. reflexivity.
  - apply appends_output_same. reflexivity.
  - apply appends_output_same. reflexivity.
  - apply appends_output_same. reflexivity.
  - cbn [visit].
    apply appends_output_bind; [exact IHnode|intros v].
    apply appends_output_bind; [apply appends_output_emit|intros _].
    apply appends_output_same. reflexivity.
Qed.

(** X4.  A declaration of a variable with an expression of the grammar
    records the name with its declared type and the generated text of the
    expression, and changes no other entry; an assignment and a display
    leave the symbol table as it was. *)
Theorem declaration_is_recorded (name : string) (type : option string)
    (value : ASTNode) (g : CodeGenerator) :
  expr_ok value = true ->
  (lookup name (symbol_table (snd (visit (VariableDecl name type value) g)))
   = Some (mkSymbol type (PyStr (expr_text value)))
   /\ forall other, other <> name ->
        lookup other
          (symbol_table (snd (visit (VariableDecl name type value) g)))
        = lookup other (symbol_table g))
  /\ symbol_table (snd (visit (Assignment name value) g)) = symbol_table g
  /\ symbol_table (snd (visit (Display value) g)) = symbol_table g.
Proof.
  intros Hok.
  rewrite (visit_stmt (VariableDecl name type value) Hok g).
  rewrite (visit_stmt (Assignment name value) Hok g).
  rewrite (visit_stmt (Display value) Hok g).
  cbn [snd symbol_table stmt_symbols]. split; [|split; reflexivity].
  destruct (symbol_table g) as [s p]. unfold define.
  cbn [symbols parent lookup]. split.
  - rewrite dict_find_set_same. destruct p; reflexivity.
  - intros other Hne.
    rewrite (dict_find_set_other s name other _ Hne). reflexivity.
Qed.

Lemma declaration_is_recorded_witness :
  lookup "x"
    (symbol_table
       (snd (visit (VariableDecl "x" (Some "num") (Identifier "y"))
               CodeGenerator_init)))
  = Some (mkSymbol (Some "num") (PyStr "y")).
Proof.
  apply (proj1 (proj1 (declaration_is_recorded "x" (Some "num")
                         (Identifier "y") CodeGenerator_init eq_refl))).
Defined.

(** X5.  The symbol table has no scopes: visiting a function of the
    grammar leaves the table that visiting the statements of its body
    one after the other, outside any function, would leave. *)
Theorem function_body_shares_symbol_table (name : string)
    (params : list (string * option string)) (return_type : option string)
    (body : list ASTNode) (g : CodeGenerator) :
  forallb stmt_ok body = true ->
  symbol_table (snd (visit (FunctionDecl name params return_type body) g))
  = symbol_table (snd (visit_all body g)).
Proof.
  intros Hok.
  rewrite (visit_stmt (FunctionDecl name params return_type body) Hok g).
  rewrite (visit_all_lines body); [reflexivity| |exact Hok].
  apply Forall_forall. intros s _. apply visit_stmt.
Qed.

Lemma function_body_shares_symbol_table_witness :
  symbol_table
    (snd (visit (FunctionDecl "f" [] None
                   [VariableDecl "x" (Some "num") (Identifier "y")])
            CodeGenerator_init))
  = symbol_table
      (snd (visit_all [VariableDecl "x" (Some "num") (Identifier "y")]
              CodeGenerator_init)).
Proof.
  apply (function_body_shares_symbol_table "f" [] None
           [VariableDecl "x" (Some "num") (Identifier "y")]
           CodeGenerator_init eq_refl).
Defined.

(** X6.  An operator outside [op_map] is a missing key: on a [BinaryOp]
    with such an operator and operands of the grammar, [visit] raises the
    [KeyError] of the operator and puts nothing out; inside the body of a
    function, after statements of the grammar, the exception leaves
    [indent_level] one above its value before the visit, [dedent] being
    skipped. *)
Theorem missing_operator_raises (left_node right_node : ASTNode)
    (operator : TokenType) (g : CodeGenerator) :
  expr_ok left_node = true -> expr_ok right_node = true ->
  is_arith operator = false ->
  visit (BinaryOp left_node operator right_node) g
  = (Raise (KeyError operator), g)
  /\ forall name params return_type before after,
       forallb stmt_ok before = true ->
       exists g',
         visit (FunctionDecl name params return_type
                  (before
                   ++ Display (BinaryOp left_node operator right_node)
                      :: after)%list) g
         = (Raise (KeyError operator), g')
         /\ indent_level g' = (indent_level g + 1)%Z.
Proof.
  intros Hl Hr Hop.
  assert (Hmap : op_map operator = None)
    by (destruct operator; try reflexivity; discriminate Hop).
  assert (Hbin : forall g0, visit (BinaryOp left_node operator right_node) g0
                            = (Raise (KeyError operator), g0)).
  { intros g0. cbn [visit]. unfold bind.
    rewrite (visit_expr _ Hl g0), (visit_expr _ Hr g0), Hmap. reflexivity. }
  split; [apply Hbin|].
  intros name params return_type before after Hbefore.
  assert (Hall : forall g0, exists g1,
    visit_all (before ++ Display (BinaryOp left_node operator right_node)
               :: after) g0 = (Raise (KeyError operator), g1)
    /\ indent_level g1 = indent_level g0).
  { clear g.
    assert (Hd : forall g0,
      visit (Display (BinaryOp left_node operator right_node)) g0
      = (Raise (KeyError operator), g0)).
    { intros g0.
      change (visit (Display (BinaryOp left_node operator right_node)) g0)
        with ((value <- visit (BinaryOp left_node operator right_node) ;;
               emit ("print(" ++ format value ++ ")") ;;; ret PyNone) g0).
      unfold bind at 1. rewrite Hbin. reflexivity. }
    induction before as [|s before IH]; intros g0.
    - cbn [app visit_all]. unfold bind. rewrite Hd. eauto.
    - cbn [forallb] in Hbefore. apply andb_true_iff in Hbefore.
      destruct Hbefore as [Hs Hrest].
      cbn [app visit_all]. unfold bind at 1. rewrite (visit_stmt s Hs g0).
      destruct (IH Hrest (mkCodeGenerator (stmt_symbols s (symbol_table g0))
                            (output g0 ++ stmt_lines (indent_level g0) s)
                            (indent_level g0))) as (g1 & H1 & H2).
      exists g1. split; [exact H1|exact H2]. }
  rewrite visit_FunctionDecl.
  unfold bind at 1. unfold emit at 1.
  unfold bind at 1. unfold indent at 1.
  unfold bind at 1. rewrite emit_params_lines.
  unfold bind at 1.
  match goal with
  | |- context [when ?b ?m ?s] =>
      assert (Hw : exists g2, when b m s = (Ok tt, g2)
                              /\ indent_level g2 = (indent_level g + 1)%Z)
  end.
  { destruct (truthy return_type); cbn [when]; eexists;
      (split; [reflexivity|reflexivity]). }
  destruct Hw as (g2 & Hw & Hlevel). rewrite Hw.
  unfold bind at 1. destruct (Hall g2) as (g3 & H3 & Hlevel3).
  rewrite H3. exists g3. split; [reflexivity|congruence].
Qed.

Lemma missing_operator_raises_witness :
  visit (BinaryOp (Identifier "a") EQUALS (Identifier "b")) CodeGenerator_init
  = (Raise (KeyError EQUALS), CodeGenerator_init).
Proof.
  apply (proj1 (missing_operator_raises (Identifier "a") (Identifier "b")
                  EQUALS CodeGenerator_init eq_refl eq_refl eq_refl)).
Defined.

(* ------------------------------------------------------------------ *)
(** * The lexer moves forward *)

Lemma forward_refl l : forward l l.
Proof. split; [exists ""; reflexivity|apply N.le_refl]. Qed.

Lemma forward_trans l1 l2 l3 : forward l1 l2 -> forward l2 l3 -> forward l1 l3.
Proof.
  intros [[a Ha] H12] [[b Hb] H23]. split.
  - exists (a ++ b). rewrite Ha, Hb, append_assoc. reflexivity.
  - eapply N.le_trans; eassumption.
Qed.

Lemma forward_advance l : forward l (advance l).
Proof.
  split; [|apply N.le_refl]. unfold advance. cbn [lex_rest].
  destruct (lex_rest l) as [|c r].
  - exists "". reflexivity.
  - exists (String c ""). reflexivity.
Qed.

Lemma forward_cons c rest line column l' :
  forward (mkLexer rest line column) l' ->
  forward (mkLexer (String c rest) line column) l'.
Proof.
  intros [[pre Hpre] Hline]. split; [|exact Hline].
  exists (String c pre). cbn [lex_rest append] in *. rewrite Hpre. reflexivity.
Qed.

Lemma forward_line rest line line' column column' l' :
  (line <= line')%N ->
  forward (mkLexer rest line' column') l' ->
  forward (mkLexer rest line column) l'.
Proof.
  intros Hle [Hpre Hline]. split; [exact Hpre|].
  cbn [lex_line] in *. eapply N.le_trans; eassumption.
Qed.

Lemma forward_skip_whitespace_from rest line column :
  forward (mkLexer rest line column) (skip_whitespace_from rest line column).
Proof.
  revert line column. induction rest as [|c rest IH]; intros line column;
    cbn [skip_whitespace_from].
  - apply forward_refl.
  - destruct (isspace c); [|apply forward_refl].
    apply forward_cons.
    destruct (Ascii.eqb c LF).
    + apply forward_line with (line' := (line + 1)%N) (column' := (0 + 1)%N);
        [lia|apply IH].
    + apply forward_line with (line' := line) (column' := (column + 1)%N);
        [lia|apply IH].
Qed.

Lemma forward_skip_whitespace l : forward l (skip_whitespace l).
Proof.
  destruct l as [rest line column]. apply forward_skip_whitespace_from.
Qed.

Lemma forward_scan_from keep rest result line column :
  forward (mkLexer rest line column)
    (snd (scan_from keep rest result line column)).
Proof.
  revert result column. induction rest as [|c rest IH]; intros result column;
    cbn [scan_from].
  - apply forward_refl.
  - destruct (keep c); [|apply forward_refl].
    apply forward_cons.
    apply forward_line with (line' := line) (column' := (column + 1)%N);
      [lia|apply IH].
Qed.

Lemma forward_scan keep result l : forward l (snd (scan keep result l)).
Proof.
  destruct l as [rest line column]. apply forward_scan_from.
Qed.

Lemma forward_block_comment_from rest comment line column :
  forward (mkLexer rest line column)
    (snd (block_comment_from rest comment line column)).
Proof.
  revert comment line column.
  induction rest as [|c rest IH]; intros comment line column;
    cbn [block_comment_from].
  - apply forward_refl.
  - destruct (Ascii.eqb c "*" && char_is _ "/").
    + cbn [snd]. eapply forward_trans; apply forward_advance.
    + apply forward_cons. destruct (Ascii.eqb c LF).
      * apply forward_line with (line' := (line + 1)%N)
                                (column' := (0 + 1)%N); [lia|apply IH].
      * apply forward_line with (line' := line)
                                (column' := (column + 1)%N); [lia|apply IH].
Qed.

Lemma forward_read_comment l : forward l (snd (read_comment l)).
Proof.
  unfold read_comment.
  destruct (char_is (current_char l) "#").
  - pose proof (forward_scan (fun c => negb (Ascii.eqb c LF)) "" l) as H.
    destruct (scan _ "" l). exact H.
  - destruct (char_is (current_char l) "/" && char_is (peek l) "*");
      [|apply forward_refl].
    pose proof (forward_block_comment_from (lex_rest (advance (advance l))) ""
                  (lex_line (advance (advance l)))
                  (lex_column (advance (advance l)))) as H.
    destruct (block_comment_from _ _ _ _) as [cm lx]. cbn [snd] in *.
    eapply forward_trans; [apply forward_advance|].
    eapply forward_trans; [apply forward_advance|].
    destruct (advance (advance l)). exact H.
Qed.

Lemma forward_scan_token c l : forward l (snd (scan_token c l)).
Proof.
  unfold scan_token.
  pose proof (forward_read_comment l) as Hrc.
  destruct (read_comment l) as [[ct|] lc] eqn:E; [exact Hrc|].
  apply read_comment_none in E. subst lc.
  destruct (isdigit c).
  { unfold read_number.
    pose proof (forward_scan (fun c => isdigit c || Ascii.eqb c ".") "" l).
    destruct (scan _ "" l). assumption. }
  destruct (isalpha c || Ascii.eqb c "_").
  { unfold read_identifier.
    pose proof (forward_scan (fun c => isalnum c || Ascii.eqb c "_") "" l).
    destruct (scan _ "" l). assumption. }
  destruct (Ascii.eqb c DQUOTE).
  { unfold read_string.
    pose proof (forward_scan (fun c => negb (Ascii.eqb c DQUOTE)) ""
                  (advance l)) as H.
    destruct (scan _ "" (advance l)) as [r lx]. cbn [snd] in *.
    eapply forward_trans; [apply forward_advance|].
    eapply forward_trans; [exact H|].
    destruct (char_is (current_char lx) DQUOTE);
      [apply forward_advance|apply forward_refl]. }
  destruct (Ascii.eqb c "=").
  { destruct (char_is (current_char (advance l)) "="); cbn [snd].
    - eapply forward_trans; apply forward_advance.
    - apply forward_advance. }
  destruct (punctuation_get punctuation c); cbn [snd].
  - apply forward_advance.
  - apply forward_refl.
Qed.

(** X7.  Whatever it returns or raises, [get_next_token] leaves the lexer
    further on in the same text: the unread input afterwards is a suffix
    of the unread input before, and the line count has not gone down. *)
Theorem get_next_token_moves_forward (l : Lexer) :
  (exists consumed,
     lex_rest l = consumed ++ lex_rest (snd (get_next_token l)))
  /\ (lex_line l <= lex_line (snd (get_next_token l)))%N.
Proof.
  change (forward l (snd (get_next_token l))).
  rewrite get_next_token_skip.
  eapply forward_trans; [apply forward_skip_whitespace|].
  destruct (current_char (skip_whitespace l)) as [c|].
  - apply forward_scan_token.
  - apply forward_refl.
Qed.

(* ------------------------------------------------------------------ *)
(** * The kinds of token the lexer returns *)

Lemma dict_get_In {V} (d : list (string * V)) k default :
  In (dict_get d k default) (default :: map snd d).
Proof.
  induction d as [|[k' v] d IH]; simpl; [auto|].
  destruct (String.eqb k k'); [auto|].
  destruct IH as [IH|IH]; auto.
Qed.

Lemma punctuation_get_In d c t :
  punctuation_get d c = Some t -> In t (map snd d).
Proof.
  induction d as [|[c' t'] d IH]; simpl; [discriminate|].
  destruct (Ascii.eqb c c'); [intros [= ->]; auto|auto].
Qed.

Lemma scan_token_kind c l t l' :
  scan_token c l = (Ok t, l') ->
  In (tok_type t) lexed_kinds /\ tok_type t <> EOF.
Proof.
  unfold scan_token.
  assert (Hcomment : forall o lx, read_comment l = (Some o, lx) ->
                                  tok_type o = COMMENT).
  { unfold read_comment. intros o lx.
    destruct (char_is (current_char l) "#").
    - destruct (scan _ "" l). intros [= <- _]. reflexivity.
    - destruct (char_is (current_char l) "/" && char_is (peek l) "*");
        [|discriminate].
      destruct (block_comment_from _ _ _ _). intros [= <- _]. reflexivity. }
  destruct (read_comment l) as [[ct|] lc] eqn:E.
  { intros [= <- _]. rewrite (Hcomment _ _ eq_refl).
    split; [simpl; auto|discriminate]. }
  destruct (isdigit c).
  { unfold read_number. destruct (scan _ "" lc). intros [= <- _].
    split; [simpl; auto|discriminate]. }
  destruct (isalpha c || Ascii.eqb c "_").
  { unfold read_identifier. destruct (scan _ "" lc) as [r lx]. cbv zeta.
    pose proof (dict_get_In keywords r IDENTIFIER) as Hin.
    set (k := dict_get keywords r IDENTIFIER) in *. clearbody k.
    intros [= <- _]. cbn [tok_type]. split.
    - unfold lexed_kinds.
      destruct Hin as [Hin|Hin]; [subst k; simpl; auto 10|].
      apply in_or_app. right. apply in_or_app. left. exact Hin.
    - intros ->. simpl in Hin.
      repeat (destruct Hin as [Hin|Hin]; [discriminate Hin|]).
      exact Hin. }
  destruct (Ascii.eqb c DQUOTE).
  { unfold read_string. destruct (scan _ "" (advance lc)).
    intros [= <- _]. split; [simpl; auto|discriminate]. }
  destruct (Ascii.eqb c "=").
  { destruct (char_is (current_char (advance lc)) "="); intros [= <- _];
      (split; [simpl; auto 10|discriminate]). }
  destruct (punctuation_get punctuation c) as [t'|] eqn:Hp; [|discriminate].
  intros [= <- _]. cbn [tok_type].
  pose proof (punctuation_get_In _ _ _ Hp) as Hin. split.
  - unfold lexed_kinds. apply in_or_app. right. apply in_or_app. right.
    exact Hin.
  - intros Heq. rewrite Heq in Hin. simpl in Hin.
    repeat (destruct Hin as [Hin|Hin]; [discriminate Hin|]).
    exact Hin.
Qed.

(** X8.  No rule of the lexer returns NOT_EQUALS, GREATER, LESS,
    GREATER_EQUAL or LESS_EQUAL, and the characters of these operators
    other than the equals sign start no token. *)
Theorem comparison_tokens_are_never_lexed (l l' : Lexer) (t : Token) :
  get_next_token l = (Ok t, l') ->
  In (tok_type t) lexed_kinds
  /\ ~ In (tok_type t) dead_kinds
  /\ no_rule "<" = true /\ no_rule ">" = true /\ no_rule "!" = true.
Proof.
  intros H.
  assert (Hin : In (tok_type t) lexed_kinds).
  { rewrite get_next_token_skip in H.
    destruct (current_char (skip_whitespace l)) as [c|].
    - apply (scan_token_kind _ _ _ _ H).
    - injection H as <- _. simpl. auto 10. }
  split; [exact Hin|]. split; [|repeat split; reflexivity].
  intros Hdead. unfold dead_kinds in Hdead. simpl in Hin, Hdead.
  repeat (destruct Hdead as [Hdead|Hdead];
          [rewrite <- Hdead in Hin;
           repeat (destruct Hin as [Hin|Hin]; [discriminate Hin|]);
           exact Hin|]).
  exact Hdead.
Qed.

Lemma comparison_tokens_are_never_lexed_witness :
  In EQUALS lexed_kinds /\ ~ In EQUALS dead_kinds
  /\ no_rule "<" = true /\ no_rule ">" = true /\ no_rule "!" = true.
Proof.
  apply (comparison_tokens_are_never_lexed (Lexer_init "== 1")
           (mkLexer " 1" 1 3) (mkToken EQUALS "==" 1 1)).
  reflexivity.
Defined.

(** X9.  The EOF token is returned at the end of the input and nowhere
    else, and from then on every call returns the same EOF token and
    leaves the lexer as it is. *)
Theorem eof_is_final (l l' : Lexer) (t : Token) :
  get_next_token l = (Ok t, l') ->
  tok_type t = EOF ->
  lex_rest l' = "" /\ get_next_token l' = (Ok t, l').
Proof.
  intros H Heof. rewrite get_next_token_skip in H.
  destruct (current_char (skip_whitespace l)) as [c|] eqn:Hc.
  - destruct (scan_token_kind _ _ _ _ H) as [_ Hne]. contradiction.
  - injection H as <- <-.
    unfold current_char in Hc.
    destruct (lex_rest (skip_whitespace l)) eqn:Hrest; [|discriminate].
    split; [reflexivity|].
    rewrite get_next_token_loop. unfold current_char. rewrite Hrest.
    reflexivity.
Qed.

Lemma eof_is_final_witness :
  lex_rest (mkLexer "" 2 1) = ""
  /\ get_next_token (mkLexer "" 2 1)
     = (Ok (mkToken EOF "" 2 1), mkLexer "" 2 1).
Proof.
  apply (eof_is_final (mkLexer (" " ++ nl) 1 1) (mkLexer "" 2 1)
           (mkToken EOF "" 2 1)); reflexivity.
Defined.

(* ------------------------------------------------------------------ *)
(** * The tokens of identifiers, numbers, strings and comments *)

Lemma scan_from_run keep s rest result line column :
  all_chars keep s = true -> stops keep rest = true ->
  scan_from keep (s ++ rest) result line column =
  (result ++ s, mkLexer rest line (column + N.of_nat (String.length s))).
Proof.
  revert result column. induction s as [|c s IH]; intros result column Hs Hr.
  - cbn [append String.length]. rewrite append_nil_r, N.add_0_r.
    destruct rest as [|r rest]; [reflexivity|].
    cbn [stops] in Hr. apply negb_true_iff in Hr.
    cbn [scan_from]. rewrite Hr. reflexivity.
  - cbn [all_chars] in Hs. apply andb_true_iff in Hs. destruct Hs as [Hc Hs].
    cbn [append scan_from]. rewrite Hc, (IH _ _ Hs Hr), append_assoc.
    cbn [append String.length].
    rewrite Nat2N.inj_succ, <- N.add_1_l, N.add_assoc. reflexivity.
Qed.

Lemma ident_start_class c :
  ident_start c = true ->
  isspace c = false /\ isdigit c = false /\ Ascii.eqb c "#" = false
  /\ Ascii.eqb c "/" = false /\ ident_char c = true.
Proof.
  destruct c as [[] [] [] [] [] [] [] []]; vm_compute; intros H;
    try discriminate H; repeat split.
Qed.

Lemma digit_class c :
  isdigit c = true ->
  isspace c = false /\ Ascii.eqb c "#" = false /\ Ascii.eqb c "/" = false.
Proof.
  destruct c as [[] [] [] [] [] [] [] []]; vm_compute; intros H;
    try discriminate H; repeat split.
Qed.

(** X10.  An identifier is read whole: a letter or underscore followed by
    letters, digits and underscores, up to the first character that is
    none of these, gives one token with that text at the position of its
    first character; its kind is the keyword of exactly that spelling, and
    IDENTIFIER when there is none. *)
Theorem identifier_is_read_whole (c : ascii) (name rest : string)
    (line column : N) :
  ident_start c = true -> all_chars ident_char name = true ->
  stops ident_char rest = true ->
  get_next_token (mkLexer (String c name ++ rest) line column) =
  (Ok (mkToken (dict_get keywords (String c name) IDENTIFIER) (String c name)
         line column),
   mkLexer rest line (column + N.of_nat (String.length (String c name)))).
Proof.
  intros Hc Hname Hrest.
  destruct (ident_start_class c Hc) as (Hsp & Hdg & Hh & Hsl & Hic).
  rewrite get_next_token_loop. unfold current_char. cbn [lex_rest append].
  rewrite Hsp. unfold scan_token, read_comment, current_char.
  cbn [lex_rest char_is]. rewrite Hh, Hsl. cbn [andb]. rewrite Hdg.
  fold (ident_start c). rewrite Hc.
  unfold read_identifier, scan. cbn [lex_rest lex_line lex_column].
  change (String c (name ++ rest)) with (String c name ++ rest).
  fold ident_char.
  rewrite (scan_from_run ident_char (String c name) rest "" line column);
    [reflexivity| |exact Hrest].
  cbn [all_chars]. rewrite Hic, Hname. reflexivity.
Qed.

Lemma identifier_is_read_whole_witness :
  get_next_token (mkLexer ("display_2" ++ "(x") 3 7) =
  (Ok (mkToken IDENTIFIER "display_2" 3 7), mkLexer "(x" 3 16).
Proof.
  apply (identifier_is_read_whole "d" "isplay_2" "(x" 3 7); reflexivity.
Defined.

(** X11.  A number is read whole and unchecked: a digit followed by
    digits and dots, up to the first character that is neither, gives one
    NUMBER token with that text, however many dots it holds. *)
Theorem number_is_read_whole (c : ascii) (digits rest : string)
    (line column : N) :
  isdigit c = true -> all_chars number_char digits = true ->
  stops number_char rest = true ->
  get_next_token (mkLexer (String c digits ++ rest) line column) =
  (Ok (mkToken NUMBER (String c digits) line column),
   mkLexer rest line (column + N.of_nat (String.length (String c digits)))).
Proof.
  intros Hc Hdigits Hrest.
  destruct (digit_class c Hc) as (Hsp & Hh & Hsl).
  rewrite get_next_token_loop. unfold current_char. cbn [lex_rest append].
  rewrite Hsp. unfold scan_token, read_comment, current_char.
  cbn [lex_rest char_is]. rewrite Hh, Hsl. cbn [andb]. rewrite Hc.
  unfold read_number, scan. cbn [lex_rest lex_line lex_column].
  change (String c (digits ++ rest)) with (String c digits ++ rest).
  fold number_char.
  rewrite (scan_from_run number_char (String c digits) rest "" line column);
    [reflexivity| |exact Hrest].
  cbn [all_chars]. unfold number_char at 1. rewrite Hc, Hdigits. reflexivity.
Qed.

Lemma number_is_read_whole_witness :
  get_next_token (mkLexer ("1.2.3" ++ " + x") 1 1) =
  (Ok (mkToken NUMBER "1.2.3" 1 1), mkLexer " + x" 1 6).
Proof.
  apply (number_is_read_whole "1" ".2.3" " + x" 1 1); reflexivity.
Defined.

Lemma all_chars_not stop s :
  contains_char stop s = false ->
  all_chars (fun c => negb (Ascii.eqb c stop)) s = true.
Proof.
  induction s as [|c s IH]; [reflexivity|]. cbn [contains_char all_chars].
  intros H. apply orb_false_iff in H. destruct H as [Hc Hs].
  rewrite Hc, (IH Hs). reflexivity.
Qed.

(** X12.  A string literal is read up to the next double quote, which is
    consumed with it; its value is the text between the quotes as it
    stands (a backslash or a line feed is a character like any other,
    and the line count is not advanced), and reading goes on after the
    closing quote. *)
Theorem string_literal_is_read_verbatim (body rest : string)
    (line column : N) :
  contains_char DQUOTE body = false ->
  get_next_token
    (mkLexer (String DQUOTE (body ++ String DQUOTE rest)) line column) =
  (Ok (mkToken STRING body line column),
   mkLexer rest line (column + 1 + N.of_nat (String.length body) + 1)).
Proof.
  intros Hbody.
  rewrite get_next_token_loop. unfold current_char. cbn [lex_rest].
  change (isspace DQUOTE) with false. cbv iota.
  unfold scan_token, read_comment, current_char, peek. cbn [lex_rest].
  change (char_is (Some DQUOTE) "#") with false.
  change (char_is (Some DQUOTE) "/") with false.
  cbn [andb]. cbv iota.
  change (isdigit DQUOTE) with false.
  change (isalpha DQUOTE || Ascii.eqb DQUOTE "_") with false.
  change (Ascii.eqb DQUOTE DQUOTE) with true. cbv iota.
  unfold read_string, scan, advance. cbn [lex_rest lex_line lex_column].
  rewrite (scan_from_run (fun c => negb (Ascii.eqb c DQUOTE)) body
             (String DQUOTE rest) "" line (column + 1));
    [|apply all_chars_not, Hbody|reflexivity].
  unfold current_char. cbn [lex_rest char_is].
  change (Ascii.eqb DQUOTE DQUOTE) with true. cbv iota.
  cbn [lex_rest lex_line lex_column append]. reflexivity.
Qed.

Lemma string_literal_is_read_verbatim_witness :
  get_next_token
    (mkLexer (String DQUOTE ("a\n@" ++ String DQUOTE " + 1")) 1 9) =
  (Ok (mkToken STRING "a\n@" 1 9), mkLexer " + 1" 1 15).
Proof.
  apply (string_literal_is_read_verbatim "a\n@" " + 1" 1 9). reflexivity.
Defined.

Lemma block_comment_from_closed body rest comment line column :
  contains_comment_end body = false ->
  block_comment_from (body ++ "*/" ++ rest) comment line column =
  (comment ++ body,
   mkLexer rest (fst (end_position body line column))
     (snd (end_position body line column) + 1 + 1)).
Proof.
  revert comment line column.
  induction body as [|c body IH]; intros comment line column Hb.
  - cbn [append block_comment_from peek lex_rest char_is].
    change (Ascii.eqb "*" "*" && Ascii.eqb "/" "/") with true. cbv iota.
    rewrite append_nil_r. reflexivity.
  - cbn [contains_comment_end] in Hb. apply orb_false_iff in Hb.
    destruct Hb as [Hc Hb].
    cbn [append block_comment_from end_position].
    match goal with
    | |- context [Ascii.eqb c "*" && char_is ?x "/"] =>
        assert (Hpeek : Ascii.eqb c "*" && char_is x "/" = false)
    end.
    { destruct (Ascii.eqb c "*"); [|reflexivity]. cbn [andb] in *.
      unfold peek. cbn [lex_rest].
      destruct body as [|c' body]; [reflexivity|exact Hc]. }
    rewrite Hpeek.
    destruct (Ascii.eqb c LF); rewrite (IH _ _ _ Hb), append_assoc;
      reflexivity.
Qed.

(** X13.  A block comment is read up to the first star-slash and gives a
    COMMENT token that holds the text between the delimiters, with the
    line count advanced by the line feeds inside; a line comment is read
    up to the end of its line and gives a COMMENT token that holds the
    hash sign and the text, the line feed being left unread. *)
Theorem comments_are_read_as_tokens (body rest : string) (line column : N) :
  (contains_comment_end body = false ->
   get_next_token (mkLexer ("/*" ++ body ++ "*/" ++ rest) line column) =
   (Ok (mkToken COMMENT body
          (fst (end_position body line (column + 1 + 1))) column),
    mkLexer rest (fst (end_position body line (column + 1 + 1)))
      (snd (end_position body line (column + 1 + 1)) + 1 + 1)))
  /\ (contains_char LF body = false ->
      stops (fun c => negb (Ascii.eqb c LF)) rest = true ->
      get_next_token (mkLexer ("#" ++ body ++ rest) line column) =
      (Ok (mkToken COMMENT ("#" ++ body) line column),
       mkLexer rest line
         (column + N.of_nat (String.length ("#" ++ body))))).
Proof.
  split.
  - intros Hbody.
    rewrite get_next_token_loop. unfold current_char. cbn [append lex_rest].
    change (isspace "/") with false. cbv iota.
    unfold scan_token, read_comment, current_char, peek. cbn [lex_rest].
    change (char_is (Some "/"%char) "#") with false.
    change (char_is (Some "/"%char) "/") with true.
    change (char_is (Some "*"%char) "*") with true.
    cbn [andb]. cbv iota.
    unfold advance. cbn [lex_rest lex_line lex_column].
    change (String "*" (String "/" rest)) with ("*/" ++ rest).
    rewrite (block_comment_from_closed body rest "" line _ Hbody).
    cbn [append lex_line]. reflexivity.
  - intros Hbody Hrest.
    rewrite get_next_token_loop. unfold current_char. cbn [append lex_rest].
    change (isspace "#") with false. cbv iota.
    unfold scan_token, read_comment, current_char. cbn [lex_rest].
    change (char_is (Some "#"%char) "#") with true. cbv iota.
    unfold scan. cbn [lex_rest lex_line lex_column].
    change (String "#" (body ++ rest)) with (String "#" body ++ rest).
    rewrite (scan_from_run (fun c => negb (Ascii.eqb c LF)) (String "#" body)
               rest "" line column); [reflexivity| |exact Hrest].
    cbn [all_chars]. change (negb (Ascii.eqb "#" LF)) with true.
    cbn [andb]. apply all_chars_not, Hbody.
Qed.

Lemma comments_are_read_as_tokens_witness :
  get_next_token (mkLexer ("/*" ++ ("a" ++ nl ++ "*b") ++ "*/" ++ " x") 1 1) =
  (Ok (mkToken COMMENT ("a" ++ nl ++ "*b") 2 1), mkLexer " x" 2 5)
  /\ get_next_token (mkLexer ("#" ++ " note" ++ (nl ++ "x")) 4 2) =
     (Ok (mkToken COMMENT "# note" 4 2), mkLexer (nl ++ "x") 4 8).
Proof.
  split.
  - apply (proj1 (comments_are_read_as_tokens ("a" ++ nl ++ "*b") " x" 1 1)).
    reflexivity.
  - apply (proj2 (comments_are_read_as_tokens " note" (nl ++ "x") 4 2));
      reflexivity.
Defined.

(* ------------------------------------------------------------------ *)
(** * Malformed numbers *)

Lemma read_digits_no_dot s acc v :
  read_digits s acc = Some v -> count_char "." s = O.
Proof.
  revert acc. induction s as [|c s IH]; intros acc; [reflexivity|].
  cbn [read_digits count_char].
  destruct (decimal_digit c) as [d|] eqn:Hd; [|discriminate].
  intros H. rewrite (IH _ H).
  destruct (Ascii.eqb_spec c ".") as [->|_]; [discriminate Hd|reflexivity].
Qed.

Lemma count_char_app c a b :
  count_char c (a ++ b) = (count_char c a + count_char c b)%nat.
Proof.
  induction a as [|x a IH]; [reflexivity|].
  cbn [append count_char]. rewrite IH. lia.
Qed.

Lemma split_dot_count s :
  count_char "." s =
  (count_char "." (fst (split_dot s))
   + match snd (split_dot s) with
     | Some f => S (count_char "." f)
     | None => 0
     end)%nat.
Proof.
  induction s as [|c s IH]; [reflexivity|].
  cbn [split_dot count_char].
  destruct (Ascii.eqb c ".") eqn:E; cbn [fst snd count_char]; [lia|].
  destruct (split_dot s) as [a b]. cbn [fst snd count_char] in *.
  rewrite E, IH. lia.
Qed.

Lemma py_float_dots s x : py_float s = Some x -> (count_char "." s <= 1)%nat.
Proof.
  unfold py_float. rewrite (split_dot_count s).
  destruct (split_dot s) as [i f]. cbn [fst snd].
  destruct (Nat.eqb _ 0); [discriminate|].
  destruct (read_digits (i ++ _) 0) as [P|] eqn:Hr; [|discriminate].
  intros _. apply read_digits_no_dot in Hr. rewrite count_char_app in Hr.
  destruct f as [f|]; lia.
Qed.

(** X14.  A NUMBER token with two dots or more is refused by
    [parse_factor] with the [ValueError] of [float], and only after the
    token that follows it has been read: if reading that token fails, its
    lexical error is the one raised. *)
Theorem malformed_number_is_refused (PE : M Parser ASTNode) (p : Parser) :
  tok_type (current_token p) = NUMBER ->
  (2 <= count_char "." (tok_value (current_token p)))%nat ->
  (forall p1, eat NUMBER p = (Ok tt, p1) ->
     parse_factor PE p
     = (Raise (float_error (tok_value (current_token p))), p1))
  /\ (forall e p1, eat NUMBER p = (Raise e, p1) ->
        parse_factor PE p = (Raise e, p1)).
Proof.
  intros Hty Hdots.
  assert (Hnone : py_float (tok_value (current_token p)) = None).
  { destruct (py_float (tok_value (current_token p))) as [x|] eqn:E;
      [|reflexivity].
    apply py_float_dots in E. lia. }
  split; intros.
  - unfold parse_factor, bind, current. rewrite Hty, H, Hnone. reflexivity.
  - unfold parse_factor, bind, current. rewrite Hty, H. reflexivity.
Qed.

Lemma malformed_number_is_refused_witness :
  parse_factor (parse_expression 0)
    (mkParser (mkLexer " + x" 1 6) (mkToken NUMBER "1.2.3" 1 1))
  = (Raise (ValueError "could not convert string to float: '1.2.3'"),
     mkParser (mkLexer " x" 1 8) (mkToken PLUS "+" 1 7)).
Proof.
  apply (proj1 (malformed_number_is_refused (parse_expression 0)
                  (mkParser (mkLexer " + x" 1 6)
                     (mkToken NUMBER "1.2.3" 1 1))
                  eq_refl (proj1 (Nat.leb_le 2 2) eq_refl))).
  reflexivity.
Defined.

(* ------------------------------------------------------------------ *)
(** * Precedence and associativity *)

Lemma while_done {St A} fuel (cond : St -> bool) (body : A -> M St A) acc s :
  cond s = false -> while fuel cond body acc s = (Ok acc, s).
Proof. intros H. destruct fuel; cbn [while]; rewrite H; reflexivity. Qed.

Lemma while_step {St A} fuel (cond : St -> bool) (body : A -> M St A) acc s :
  cond s = true ->
  while (S fuel) cond body acc s
  = (a <- body acc ;; while fuel cond body a) s.
Proof. intros H. cbn [while]. rewrite H. reflexivity. Qed.

Lemma parse_factor_identifier PE name p p1 :
  tokens_ahead [(IDENTIFIER, name)] p = Some p1 ->
  parse_factor PE p = (Ok (Identifier name), p1).
Proof.
  intros H. apply tokens_ahead_cons in H.
  destruct H as (Hty & Hv & q & Hq & H). injection H as ->.
  unfold parse_factor, bind, current. rewrite Hty, Hq, Hv. reflexivity.
Qed.

Lemma current_in_head types token_type text ts p p' :
  tokens_ahead ((token_type, text) :: ts) p = Some p' ->
  current_in types p = existsb (TokenType_eqb token_type) types.
Proof.
  intros H. apply tokens_ahead_cons in H. destruct H as (Hty & _).
  unfold current_in. rewrite Hty. reflexivity.
Qed.

(** The loop of [parse_term] on operators and identifiers. *)
Lemma term_loop_written PE (l : list (TokenType * string)) :
  forall fuel acc p p',
    tokens_ahead
      (flat_map (fun ox : TokenType * string =>
                   [(fst ox, op_text (fst ox)); (IDENTIFIER, snd ox)]) l) p
    = Some p' ->
    forallb (fun ox : TokenType * string =>
               existsb (TokenType_eqb (fst ox)) [MULTIPLY; DIVIDE]) l = true ->
    current_in [MULTIPLY; DIVIDE] p' = false ->
    (List.length l <= fuel)%nat ->
    while fuel (current_in [MULTIPLY; DIVIDE])
      (fun node =>
         token <- current ;;
         let operator := tok_type token in
         eat operator ;;;
         right <- parse_factor PE ;;
         ret (BinaryOp node operator right))
      acc p
    = (Ok (fold_left (fun acc (ox : TokenType * string) =>
                        BinaryOp acc (fst ox) (Identifier (snd ox))) l acc),
       p').
Proof.
  induction l as [|[op x] l IH]; intros fuel acc p p' H Hops Hend Hfuel.
  - injection H as ->. apply while_done, Hend.
  - cbn [forallb fst] in Hops. apply andb_true_iff in Hops.
    destruct Hops as [Hop Hops].
    cbn [flat_map app fst snd] in H.
    pose proof (current_in_head [MULTIPLY; DIVIDE] _ _ _ _ _ H) as Hcond.
    rewrite Hop in Hcond.
    apply tokens_ahead_cons in H. destruct H as (Hty & _ & p1 & H1 & H).
    change ((IDENTIFIER, x) :: ?l) with ([(IDENTIFIER, x)] ++ l)%list in H.
    apply tokens_ahead_app in H. destruct H as (p2 & H2 & H).
    destruct fuel as [|fuel]; [cbn [List.length] in Hfuel; lia|].
    rewrite (while_step _ _ _ _ _ Hcond).
    unfold bind at 1. unfold bind at 1. unfold current at 1.
    unfold bind at 1. rewrite Hty, H1.
    unfold bind at 1. rewrite (parse_factor_identifier PE x p1 p2 H2).
    unfold ret at 1.
    rewrite (IH fuel _ p2 p' H Hops Hend); [reflexivity|].
    cbn [List.length] in Hfuel. lia.
Qed.

Lemma parse_term_written PE (t : written_product) fuel p p' :
  tokens_ahead (product_tokens t) p = Some p' ->
  product_ok t = true ->
  current_in [MULTIPLY; DIVIDE] p' = false ->
  (List.length (snd t) <= fuel)%nat ->
  parse_term fuel PE p = (Ok (product_tree t), p').
Proof.
  destruct t as [x l]. unfold product_tokens, product_ok, product_tree.
  cbn [fst snd]. intros H Hops Hend Hfuel.
  change ((IDENTIFIER, x) :: ?l) with ([(IDENTIFIER, x)] ++ l)%list in H.
  apply tokens_ahead_app in H. destruct H as (p1 & H1 & H).
  unfold parse_term. unfold bind at 1.
  rewrite (parse_factor_identifier PE x p p1 H1).
  apply (term_loop_written PE l fuel _ p1 p' H Hops Hend Hfuel).
Qed.

(** After a product of a sum the current token is no [*] and no [/]. *)
Lemma after_product (rest : list (TokenType * written_product)) p p' :
  tokens_ahead
    (flat_map (fun ot : TokenType * written_product =>
                 (fst ot, op_text (fst ot)) :: product_tokens (snd ot)) rest) p
  = Some p' ->
  forallb (fun ot : TokenType * written_product =>
             existsb (TokenType_eqb (fst ot)) [PLUS; MINUS]
             && product_ok (snd ot)) rest = true ->
  current_in [PLUS; MINUS; MULTIPLY; DIVIDE] p' = false ->
  current_in [MULTIPLY; DIVIDE] p = false.
Proof.
  destruct rest as [|[op t] rest]; intros H Hops Hend.
  - injection H as ->. unfold current_in in *. cbn [existsb] in *.
    destruct (TokenType_eqb _ PLUS); [discriminate|].
    destruct (TokenType_eqb _ MINUS); [discriminate|]. exact Hend.
  - cbn [flat_map app fst snd] in H.
    rewrite (current_in_head [MULTIPLY; DIVIDE] _ _ _ _ _ H).
    cbn [forallb fst] in Hops. apply andb_true_iff in Hops.
    destruct Hops as [Hop _]. apply andb_true_iff in Hop.
    destruct Hop as [Hop _].
    destruct op; try discriminate Hop; reflexivity.
Qed.

Lemma expression_loop_written PE fuel'
    (rest : list (TokenType * written_product)) :
  forall fuel acc p p',
    tokens_ahead
      (flat_map (fun ot : TokenType * written_product =>
                   (fst ot, op_text (fst ot)) :: product_tokens (snd ot))
         rest) p = Some p' ->
    forallb (fun ot : TokenType * written_product =>
               existsb (TokenType_eqb (fst ot)) [PLUS; MINUS]
               && product_ok (snd ot)) rest = true ->
    current_in [PLUS; MINUS; MULTIPLY; DIVIDE] p' = false ->
    (List.length rest <= fuel)%nat ->
    Forall (fun ot : TokenType * written_product =>
              (List.length (snd (snd ot)) <= fuel')%nat) rest ->
    while fuel (current_in [PLUS; MINUS])
      (fun node =>
         token <- current ;;
         let operator := tok_type token in
         eat operator ;;;
         right <- parse_term fuel' PE ;;
         ret (BinaryOp node operator right))
      acc p
    = (Ok (fold_left (fun acc (ot : TokenType * written_product) =>
                        BinaryOp acc (fst ot) (product_tree (snd ot)))
             rest acc), p').
Proof.
  induction rest as [|[op t] rest IH];
    intros fuel acc p p' H Hops Hend Hfuel Hsizes.
  - injection H as ->. apply while_done.
    unfold current_in in *. cbn [existsb] in *.
    destruct (TokenType_eqb _ PLUS); [discriminate|].
    destruct (TokenType_eqb _ MINUS); [discriminate|]. reflexivity.
  - cbn [forallb fst snd] in Hops. apply andb_true_iff in Hops.
    destruct Hops as [Hop Hops]. apply andb_true_iff in Hop.
    destruct Hop as [Hop Ht].
    cbn [flat_map app fst snd] in H.
    pose proof (current_in_head [PLUS; MINUS] _ _ _ _ _ H) as Hcond.
    rewrite Hop in Hcond.
    apply tokens_ahead_cons in H. destruct H as (Hty & _ & p1 & H1 & H).
    apply tokens_ahead_app in H. destruct H as (p2 & H2 & H).
    apply Forall_cons_iff in Hsizes. destruct Hsizes as [Hsize Hsizes'].
    cbn [snd] in Hsize.
    destruct fuel as [|fuel]; [cbn [List.length] in Hfuel; lia|].
    rewrite (while_step _ _ _ _ _ Hcond).
    unfold bind at 1. unfold bind at 1. unfold current at 1.
    unfold bind at 1. rewrite Hty, H1.
    unfold bind at 1.
    rewrite (parse_term_written PE t fuel' p1 p2 H2 Ht
               (after_product rest p2 p' H Hops Hend) Hsize).
    unfold ret at 1.
    rewrite (IH fuel _ p2 p' H Hops Hend); [reflexivity| |exact Hsizes'].
    cbn [List.length] in Hfuel. lia.
Qed.

(** X15.  [parse_expression] on a sum of products of identifiers: the
    operators [*] and [/] bind tighter than [+] and [-], and operators of
    the same level nest to the left, so that [a - b - c] is
    [(a - b) - c]. *)
Theorem sums_of_products_nest_left (fuel : nat) (s : written_sum)
    (p p' : Parser) :
  tokens_ahead (sum_tokens s) p = Some p' ->
  sum_ok s = true ->
  current_in [PLUS; MINUS; MULTIPLY; DIVIDE] p' = false ->
  (List.length (sum_tokens s) <= fuel)%nat ->
  parse_expression (S fuel) p = (Ok (sum_tree s), p').
Proof.
  destruct s as [t rest]. unfold sum_tokens, sum_ok, sum_tree.
  cbn [fst snd]. intros H Hok Hend Hfuel.
  apply andb_true_iff in Hok. destruct Hok as [Ht Hrest].
  rewrite length_app in Hfuel.
  assert (Hlen : forall l : list (TokenType * string),
    (List.length l
     <= List.length
          (flat_map (fun ox : TokenType * string =>
                       [(fst ox, op_text (fst ox)); (IDENTIFIER, snd ox)])
             l))%nat).
  { induction l as [|x l IHl]; cbn [flat_map app List.length]; lia. }
  assert (Hprod : forall t0 : written_product,
    (List.length (snd t0) <= List.length (product_tokens t0))%nat).
  { intros [x l]. unfold product_tokens. cbn [fst snd List.length].
    specialize (Hlen l). lia. }
  assert (Hsum : (List.length rest
                  <= List.length
                       (flat_map (fun ot : TokenType * written_product =>
                                    (fst ot, op_text (fst ot))
                                    :: product_tokens (snd ot)) rest))%nat
                 /\ Forall (fun ot : TokenType * written_product =>
                      (List.length (snd (snd ot))
                       <= List.length
                            (flat_map
                               (fun ot : TokenType * written_product =>
                                  (fst ot, op_text (fst ot))
                                  :: product_tokens (snd ot)) rest))%nat)
                      rest).
  { clear. induction rest as [|[op t] rest [IH1 IH2]].
    - split; [apply Nat.le_refl|constructor].
    - cbn [flat_map app List.length]. rewrite length_app. split; [lia|].
      constructor.
      + cbn [snd]. destruct t as [x l]. unfold product_tokens.
        cbn [fst snd List.length].
        assert (List.length l
                <= List.length
                     (flat_map (fun ox : TokenType * string =>
                                  [(fst ox, op_text (fst ox));
                                   (IDENTIFIER, snd ox)]) l))%nat.
        { clear. induction l as [|y l IHl]; cbn [flat_map app List.length];
            lia. }
        lia.
      + eapply Forall_impl; [|exact IH2]. cbv beta. intros a Ha. lia. }
  destruct Hsum as [Hsum1 Hsum2].
  apply tokens_ahead_app in H. destruct H as (p1 & H1 & H).
  cbn [parse_expression]. unfold bind at 1.
  rewrite (parse_term_written (parse_expression fuel) t fuel p p1 H1 Ht
             (after_product rest p1 p' H Hrest Hend));
    [|specialize (Hprod t); lia].
  apply (expression_loop_written (parse_expression fuel) fuel rest fuel _ p1 p'
           H Hrest Hend); [lia|].
  eapply Forall_impl; [|exact Hsum2]. cbv beta. intros a Ha. lia.
Qed.

Lemma sums_of_products_nest_left_witness :
  parse_expression 8 sample_sum_parser =
  (Ok (BinaryOp
         (BinaryOp (Identifier "a") MINUS
            (BinaryOp (Identifier "b") MULTIPLY (Identifier "c")))
         MINUS (Identifier "d")),
   sample_sum_parser_end).
Proof.
  apply (sums_of_products_nest_left 7
           (("a", []), [(MINUS, ("b", [(MULTIPLY, "c")])); (MINUS, ("d", []))])
           sample_sum_parser sample_sum_parser_end
           eq_refl eq_refl eq_refl (proj1 (Nat.leb_le 7 7) eq_refl)).
Defined.

(* ------------------------------------------------------------------ *)
(** * Metadata *)

Lemma upper_is_exclusive s a b :
  code_points a <> code_points b ->
  upper_is s a = true -> upper_is s b = false.
Proof.
  unfold upper_is. intros Hne.
  destruct (list_eq_dec N.eq_dec (upper s) (code_points a)) as [Ha|];
    [|discriminate].
  intros _.
  destruct (list_eq_dec N.eq_dec (upper s) (code_points b)) as [Hb|];
    [|reflexivity].
  contradiction Hne. congruence.
Qed.

(** The update of one pass of the metadata loop. *)
Lemma metadata_fields k v md :
  let md' :=
    if upper_is k "DESCRIPTION"
    then mkMetadata (Some v) (md_author md) (md_date md)
    else if upper_is k "AUTHOR"
    then mkMetadata (md_description md) (Some v) (md_date md)
    else if upper_is k "DATE"
    then mkMetadata (md_description md) (md_author md) (Some v)
    else md in
  md_description md'
  = (if upper_is k "DESCRIPTION" then Some v else md_description md)
  /\ md_author md' = (if upper_is k "AUTHOR" then Some v else md_author md)
  /\ md_date md' = (if upper_is k "DATE" then Some v else md_date md).
Proof.
  cbv zeta.
  destruct (upper_is k "DESCRIPTION") eqn:Hd.
  - rewrite (upper_is_exclusive k "DESCRIPTION" "AUTHOR"),
      (upper_is_exclusive k "DESCRIPTION" "DATE"); try exact Hd;
      try discriminate.
    repeat split.
  - destruct (upper_is k "AUTHOR") eqn:Ha.
    + rewrite (upper_is_exclusive k "AUTHOR" "DATE"); try exact Ha;
        try discriminate.
      repeat split.
    + destruct (upper_is k "DATE"); repeat split.
Qed.

Lemma metadata_loop_written (kvs : list (string * string)) :
  forall fuel md p p',
    tokens_ahead (metadata_tokens kvs) p = Some p' ->
    current_in [IDENTIFIER] p' = false ->
    (List.length kvs <= fuel)%nat ->
    exists md',
      while fuel (current_in [IDENTIFIER])
        (fun md =>
           token <- current ;;
           let metadata_type := tok_value token in
           eat IDENTIFIER ;;;
           token <- current ;;
           let value := tok_value token in
           eat STRING ;;;
           ret (if upper_is metadata_type "DESCRIPTION"
                then mkMetadata (Some value) (md_author md) (md_date md)
                else if upper_is metadata_type "AUTHOR"
                then mkMetadata (md_description md) (Some value) (md_date md)
                else if upper_is metadata_type "DATE"
                then mkMetadata (md_description md) (md_author md) (Some value)
                else md))
        md p = (Ok md', p')
      /\ md_description md'
         = fold_left (fun acc (kv : string * string) =>
                        if upper_is (fst kv) "DESCRIPTION"
                        then Some (snd kv) else acc) kvs (md_description md)
      /\ md_author md'
         = fold_left (fun acc (kv : string * string) =>
                        if upper_is (fst kv) "AUTHOR"
                        then Some (snd kv) else acc) kvs (md_author md)
      /\ md_date md'
         = fold_left (fun acc (kv : string * string) =>
                        if upper_is (fst kv) "DATE"
                        then Some (snd kv) else acc) kvs (md_date md).
Proof.
  induction kvs as [|[k v] kvs IH]; intros fuel md p p' H Hend Hfuel.
  - injection H as ->. exists md. split; [apply while_done, Hend|].
    repeat split.
  - unfold metadata_tokens in H. cbn [flat_map app fst snd] in H.
    fold (metadata_tokens kvs) in H.
    pose proof (current_in_head [IDENTIFIER] _ _ _ _ _ H) as Hcond.
    cbn [existsb TokenType_eqb TokenType_value N.eqb Pos.eqb orb] in Hcond.
    apply tokens_ahead_cons in H. destruct H as (_ & Hk & p1 & H1 & H).
    apply tokens_ahead_cons in H. destruct H as (_ & Hv & p2 & H2 & H).
    destruct fuel as [|fuel]; [cbn [List.length] in Hfuel; lia|].
    rewrite (while_step _ _ _ _ _ Hcond).
    unfold bind at 1. unfold bind at 1. unfold current at 1.
    unfold bind at 1. rewrite H1.
    unfold bind at 1. unfold current at 1.
    unfold bind at 1. rewrite H2. unfold ret at 1. rewrite Hk, Hv.
    match goal with
    | |- context [while fuel _ _ ?m p2] =>
        destruct (IH fuel m p2 p' H Hend) as (md' & Hw & Hd & Ha & Ht);
          [cbn [List.length] in Hfuel; lia|]
    end.
    exists md'. split; [exact Hw|].
    destruct (metadata_fields k v md) as (Fd & Fa & Ft). cbv zeta in *.
    cbn [fold_left fst snd].
    rewrite Hd, Ha, Ht, Fd, Fa, Ft. repeat split.
Qed.

(** X16.  The metadata of a program: the keys are compared in upper case
    with DESCRIPTION, AUTHOR and DATE, a pair with any other key is read
    and dropped, and when a key comes more than once the last value is
    kept. *)
Theorem metadata_last_value_wins (fuel : nat) (kvs : list (string * string))
    (p p' : Parser) :
  tokens_ahead
    ((PROGRAM, "PROGRAM") :: (BEGIN, "BEGIN")
     :: metadata_tokens kvs ++ [(PROGRAM, "PROGRAM"); (END, "END")]) p
  = Some p' ->
  (List.length kvs <= fuel)%nat ->
  parse_program fuel p =
  (Ok (Program (metadata_value "DESCRIPTION" kvs)
         (metadata_value "AUTHOR" kvs) (metadata_value "DATE" kvs) []), p').
Proof.
  intros H Hfuel.
  apply tokens_ahead_cons in H. destruct H as (_ & _ & p1 & H1 & H).
  apply tokens_ahead_cons in H. destruct H as (_ & _ & p2 & H2 & H).
  apply tokens_ahead_app in H. destruct H as (p3 & H3 & H).
  pose proof (current_in_head [IDENTIFIER] _ _ _ _ _ H) as Hend.
  pose proof (current_in_head [PROGRAM] _ _ _ _ _ H) as Hbody.
  cbn [existsb TokenType_eqb TokenType_value N.eqb Pos.eqb orb] in Hend, Hbody.
  apply tokens_ahead_cons in H. destruct H as (_ & _ & p4 & H4 & H).
  apply tokens_ahead_cons in H. destruct H as (_ & _ & p5 & H5 & H).
  injection H as ->.
  destruct (metadata_loop_written kvs fuel (mkMetadata None None None) p2 p3
              H3 Hend Hfuel) as (md & Hw & Hd & Ha & Ht).
  unfold parse_program. unfold bind at 1. rewrite H1.
  unfold bind at 1. rewrite H2. unfold bind at 1.
  cbv zeta in Hw. rewrite Hw.
  unfold bind at 1. rewrite while_done; [|rewrite Hbody; reflexivity].
  unfold bind at 1. rewrite H4. unfold bind at 1. rewrite H5.
  unfold ret. rewrite Hd, Ha, Ht. reflexivity.
Qed.

Lemma metadata_last_value_wins_witness :
  parse_program 3 sample_metadata_parser =
  (Ok (Program None (Some "b") None []), sample_metadata_parser_end).
Proof.
  apply (metadata_last_value_wins 3 [("Author", "a"); ("note", "n");
                                     ("AUTHOR", "b")]
           sample_metadata_parser sample_metadata_parser_end eq_refl
           (proj1 (Nat.leb_le 3 3) eq_refl)).
Defined.

(* ------------------------------------------------------------------ *)
(** * Sources that are not programs *)

Lemma skip_whitespace_from_all ws line column :
  all_chars isspace ws = true ->
  skip_whitespace_from ws line column =
  mkLexer "" (fst (end_position ws line column))
    (snd (end_position ws line column)).
Proof.
  revert line column. induction ws as [|w ws IH]; intros line column Hws.
  - reflexivity.
  - cbn [all_chars] in Hws. apply andb_true_iff in Hws.
    destruct Hws as [Hw Hws].
    cbn [skip_whitespace_from end_position]. rewrite Hw.
    destruct (Ascii.eqb w LF); apply IH; assumption.
Qed.

(** X17.  A source text must begin with the PROGRAM keyword: when its
    first token is of another kind, [compile] returns the error of the
    first [eat], which names that kind and the position of the token; an
    empty source text, or one of white space only, is refused in this way
    with EOF at the position of its end. *)
Theorem program_keyword_is_required (self : NovaScriptCompiler) :
  (forall source_code p0 l,
     Parser_init (Lexer_init source_code) = (Ok p0, l) ->
     tok_type (current_token p0) <> PROGRAM ->
     fst (compile source_code self) =
     Ok (PyStr ("Compilation error: Expected TokenType.PROGRAM, got "
                ++ TokenType_str (tok_type (current_token p0)) ++ " at line "
                ++ str_of_N (tok_line (current_token p0)) ++ ", column "
                ++ str_of_N (tok_column (current_token p0)))))
  /\ (forall ws,
        all_chars isspace ws = true ->
        fst (compile ws self) =
        Ok (PyStr ("Compilation error: Expected TokenType.PROGRAM, got "
                   ++ "TokenType.EOF at line "
                   ++ str_of_N (fst (end_position ws 1 1)) ++ ", column "
                   ++ str_of_N (snd (end_position ws 1 1))))).
Proof.
  assert (Hfirst : forall source_code p0 l,
     Parser_init (Lexer_init source_code) = (Ok p0, l) ->
     tok_type (current_token p0) <> PROGRAM ->
     fst (compile source_code self) =
     Ok (PyStr ("Compilation error: Expected TokenType.PROGRAM, got "
                ++ TokenType_str (tok_type (current_token p0)) ++ " at line "
                ++ str_of_N (tok_line (current_token p0)) ++ ", column "
                ++ str_of_N (tok_column (current_token p0))))).
  { intros source_code p0 l Hinit Hne.
    apply TokenType_eqb_neq in Hne.
    unfold compile. rewrite Hinit.
    unfold parse_program. unfold bind at 1. unfold eat at 1.
    rewrite Hne. reflexivity. }
  split; [exact Hfirst|].
  intros ws Hws.
  assert (Hinit : Parser_init (Lexer_init ws) =
                  (Ok (mkParser (mkLexer "" (fst (end_position ws 1 1))
                                   (snd (end_position ws 1 1)))
                         (mkToken EOF "" (fst (end_position ws 1 1))
                            (snd (end_position ws 1 1)))),
                   mkLexer "" (fst (end_position ws 1 1))
                     (snd (end_position ws 1 1)))).
  { unfold Parser_init. rewrite get_next_token_skip.
    unfold skip_whitespace. cbn [Lexer_init lex_rest lex_line lex_column].
    rewrite (skip_whitespace_from_all ws 1 1 Hws). reflexivity. }
  rewrite (Hfirst ws _ _ Hinit); [reflexivity|discriminate].
Qed.

Lemma program_keyword_is_required_witness :
  fst (compile "" NovaScriptCompiler_init) =
  Ok (PyStr "Compilation error: Expected TokenType.PROGRAM, got TokenType.EOF at line 1, column 1").
Proof.
  apply (proj2 (program_keyword_is_required NovaScriptCompiler_init) "").
  reflexivity.
Defined.

(** X18.  A word in the place of the first statement whose kind begins no
    statement (the keywords [if], [then], [else], [while], [for], [do],
    [in], [class], [try], [except], [use], [return], [true], [false],
    [BEGIN] and [END]) makes [compile] return the error of
    [parse_statement], which names the kind and the position of the
    word. *)
Theorem unsupported_keyword_is_rejected (c : ascii) (name rest : string)
    (self : NovaScriptCompiler) :
  ident_start c = true -> all_chars ident_char name = true ->
  stops ident_char rest = true ->
  unsupported_head (dict_get keywords (String c name) IDENTIFIER) = true ->
  fst (compile ("PROGRAM BEGIN " ++ String c name ++ rest) self) =
  Ok (PyStr ("Compilation error: Unexpected token "
             ++ TokenType_str (dict_get keywords (String c name) IDENTIFIER)
             ++ " at line 1, column 15")).
Proof.
  intros Hc Hname Hrest Hun.
  rewrite compile_result. unfold parse_source.
  change (Parser_init (Lexer_init ("PROGRAM BEGIN " ++ String c name ++ rest)))
    with (Ok (mkParser (mkLexer (" BEGIN " ++ String c name ++ rest) 1 8)
                (mkToken PROGRAM "PROGRAM" 1 1)),
          mkLexer (" BEGIN " ++ String c name ++ rest) 1 8).
  cbv iota beta.
  unfold parse_program. unfold bind at 1.
  change (eat PROGRAM
            (mkParser (mkLexer (" BEGIN " ++ String c name ++ rest) 1 8)
               (mkToken PROGRAM "PROGRAM" 1 1)))
    with (Ok tt,
          mkParser (mkLexer (" " ++ String c name ++ rest) 1 14)
            (mkToken BEGIN "BEGIN" 1 9)).
  cbv iota beta. unfold bind at 1.
  assert (Heat : eat BEGIN
                   (mkParser (mkLexer (" " ++ String c name ++ rest) 1 14)
                      (mkToken BEGIN "BEGIN" 1 9))
                 = (Ok tt,
                    mkParser
                      (mkLexer rest 1
                         (15 + N.of_nat (String.length (String c name))))
                      (mkToken (dict_get keywords (String c name) IDENTIFIER)
                         (String c name) 1 15))).
  { unfold eat. cbn [current_token tok_type lexer].
    change (TokenType_eqb BEGIN BEGIN) with true. cbv iota.
    rewrite get_next_token_loop. unfold current_char.
    cbn [lex_rest append]. change (isspace " ") with true. cbv iota.
    change (skip_whitespace (mkLexer (String " " (String c (name ++ rest)))
                               1 14))
      with (skip_whitespace_from (String c (name ++ rest)) 1 15).
    destruct (ident_start_class c Hc) as (Hsp & _).
    cbn [skip_whitespace_from]. rewrite Hsp.
    change (String c (name ++ rest)) with (String c name ++ rest).
    destruct (ident_start_class c Hc) as (_ & Hdg & Hh & Hsl & Hic).
    rewrite get_next_token_loop. unfold current_char. cbn [lex_rest append].
    rewrite Hsp. unfold scan_token, read_comment, current_char.
    cbn [lex_rest char_is]. rewrite Hh, Hsl. cbn [andb]. rewrite Hdg.
    fold (ident_start c). rewrite Hc.
    unfold read_identifier, scan. cbn [lex_rest lex_line lex_column].
    change (String c (name ++ rest)) with (String c name ++ rest).
    fold ident_char.
    rewrite (scan_from_run ident_char (String c name) rest "" 1 15);
      [reflexivity| |exact Hrest].
    cbn [all_chars]. rewrite Hic, Hname. reflexivity. }
  rewrite Heat.
  set (kind := dict_get keywords (String c name) IDENTIFIER) in *.
  clearbody kind. unfold fuel_for.
  unfold bind at 1.
  rewrite while_done.
  2:{ unfold current_in. cbn [current_token tok_type existsb].
      destruct kind; try reflexivity; discriminate Hun. }
  unfold bind at 1. rewrite while_step.
  2:{ unfold current_in. cbn [current_token tok_type existsb].
      destruct kind; try reflexivity; discriminate Hun. }
  unfold bind at 1. unfold bind at 1. unfold bind at 1. unfold current at 1.
  cbn [current_token tok_type].
  assert (Heof : TokenType_eqb kind EOF = false)
    by (destruct kind; try reflexivity; discriminate Hun).
  rewrite Heof. unfold ret at 1. unfold bind at 1.
  cbn [parse_statement]. unfold bind at 1. unfold current at 1.
  cbn [current_token tok_type tok_line tok_column].
  destruct kind; try discriminate Hun; reflexivity.
Qed.

Lemma unsupported_keyword_is_rejected_witness :
  fst (compile ("PROGRAM BEGIN " ++ "while" ++ " x PROGRAM END")
         NovaScriptCompiler_init) =
  Ok (PyStr "Compilation error: Unexpected token TokenType.WHILE at line 1, column 15").
Proof.
  apply (unsupported_keyword_is_rejected "w" "hile" " x PROGRAM END"
           NovaScriptCompiler_init); reflexivity.
Defined.

(** X19.  An expression must begin with a number, a string, [true],
    [false], an identifier or an opening parenthesis: on any other token
    (an operator such as the minus sign, a bracket, a comment, the end of
    the input) [parse_expression] raises and reads nothing. *)
Theorem expression_head_is_required (fuel : nat) (p : Parser) :
  factor_head (tok_type (current_token p)) = false ->
  parse_expression (S fuel) p =
  (Raise (SyntaxError
            ("Unexpected factor token: "
             ++ TokenType_str (tok_type (current_token p)) ++ " at line "
             ++ str_of_N (tok_line (current_token p)) ++ ", column "
             ++ str_of_N (tok_column (current_token p)))), p).
Proof.
  intros Hhead. cbn [parse_expression].
  unfold parse_term, parse_factor. unfold bind at 1. unfold bind at 1.
  unfold bind at 1. unfold current at 1.
  destruct (tok_type (current_token p)); try discriminate Hhead; reflexivity.
Qed.

Lemma expression_head_is_required_witness :
  parse_expression 1 (mkParser (mkLexer "1" 1 10) (mkToken MINUS "-" 1 9)) =
  (Raise (SyntaxError "Unexpected factor token: TokenType.MINUS at line 1, column 9"),
   mkParser (mkLexer "1" 1 10) (mkToken MINUS "-" 1 9)).
Proof.
  apply (expression_head_is_required 0
           (mkParser (mkLexer "1" 1 10) (mkToken MINUS "-" 1 9))).
  reflexivity.
Defined.

(* ------------------------------------------------------------------ *)
(** * Comments *)

Lemma comment_loop_written (comments : list string) :
  forall fuel fuel' p p',
    tokens_ahead (comment_tokens comments) p = Some p' ->
    tok_type (current_token p') = PROGRAM ->
    (List.length comments <= fuel)%nat ->
    while fuel (fun p => negb (current_in [PROGRAM] p))
      (fun body =>
         token <- current ;;
         (if TokenType_eqb (tok_type token) EOF
          then error "Unexpected end of file" else ret tt) ;;;
         statement <- parse_statement (S fuel') ;;
         ret (append_statement body statement))
      [] p = (Ok [], p').
Proof.
  induction comments as [|text comments IH]; intros fuel fuel' p p' H Hend Hf.
  - injection H as ->. apply while_done.
    unfold current_in. cbn [existsb]. rewrite Hend. reflexivity.
  - cbn [comment_tokens map] in H. fold (comment_tokens comments) in H.
    apply tokens_ahead_cons in H. destruct H as (Hty & _ & p1 & H1 & H).
    destruct fuel as [|fuel]; [cbn [List.length] in Hf; lia|].
    rewrite while_step.
    2:{ unfold current_in. cbn [existsb]. rewrite Hty. reflexivity. }
    unfold bind at 1. unfold bind at 1. unfold bind at 1. unfold current at 1.
    rewrite Hty.
    cbn [TokenType_eqb TokenType_value N.eqb Pos.eqb].
    unfold ret at 1. unfold bind at 1.
    cbn [parse_statement]. unfold bind at 1. unfold current at 1.
    rewrite Hty. unfold bind at 1. rewrite H1.
    unfold ret at 1. unfold ret at 1. cbn [append_statement].
    apply (IH fuel fuel' p1 p' H Hend).
    cbn [List.length] in Hf. lia.
Qed.

(** X20.  Comments in the body of a program are read and dropped: a
    program whose body holds comments only is parsed to a program with
    an empty body. *)
Theorem comments_are_dropped (fuel : nat) (comments : list string)
    (p p' : Parser) :
  tokens_ahead
    ((PROGRAM, "PROGRAM") :: (BEGIN, "BEGIN")
     :: comment_tokens comments ++ [(PROGRAM, "PROGRAM"); (END, "END")]) p
  = Some p' ->
  (List.length comments <= fuel)%nat ->
  parse_program (S fuel) p = (Ok (Program None None None []), p').
Proof.
  intros H Hfuel.
  apply tokens_ahead_cons in H. destruct H as (_ & _ & p1 & H1 & H).
  apply tokens_ahead_cons in H. destruct H as (_ & _ & p2 & H2 & H).
  assert (Hmeta : current_in [IDENTIFIER] p2 = false).
  { destruct comments as [|text comments]; cbn [comment_tokens map app] in H;
      rewrite (current_in_head [IDENTIFIER] _ _ _ _ _ H); reflexivity. }
  apply tokens_ahead_app in H. destruct H as (p3 & H3 & H).
  apply tokens_ahead_cons in H. destruct H as (Hty & _ & p4 & H4 & H).
  apply tokens_ahead_cons in H. destruct H as (_ & _ & p5 & H5 & H).
  injection H as ->.
  unfold parse_program. unfold bind at 1. rewrite H1.
  unfold bind at 1. rewrite H2. unfold bind at 1.
  rewrite (while_done _ _ _ _ _ Hmeta).
  unfold bind at 1.
  rewrite (comment_loop_written comments (S fuel) fuel p2 p3 H3 Hty);
    [|lia].
  unfold bind at 1. rewrite H4. unfold bind at 1. rewrite H5. reflexivity.
Qed.

Lemma comments_are_dropped_witness :
  parse_program 3 sample_comment_parser =
  (Ok (Program None None None []), sample_comment_parser_end).
Proof.
  apply (comments_are_dropped 2 [" a "; " b "] sample_comment_parser
           sample_comment_parser_end eq_refl (proj1 (Nat.leb_le 2 2) eq_refl)).
Defined.

(** X21.  Metadata must come before any comment: a comment between BEGIN
    and a metadata pair ends the metadata loop, the key is then read as
    the target of an assignment, and the program is refused for want of
    the equals sign. *)
Theorem comment_before_metadata_is_refused (fuel : nat) (text key : string)
    (p p1 : Parser) :
  tokens_ahead
    [(PROGRAM, "PROGRAM"); (BEGIN, "BEGIN"); (COMMENT, text);
     (IDENTIFIER, key)] p = Some p1 ->
  tok_type (current_token p1) = STRING ->
  parse_program (S (S fuel)) p =
  (Raise (SyntaxError
            ("Expected TokenType.ASSIGN, got TokenType.STRING at line "
             ++ str_of_N (tok_line (current_token p1)) ++ ", column "
             ++ str_of_N (tok_column (current_token p1)))), p1).
Proof.
  intros H Hstr.
  apply tokens_ahead_cons in H. destruct H as (_ & _ & pa & Ha & H).
  apply tokens_ahead_cons in H. destruct H as (_ & _ & pb & Hb & H).
  apply tokens_ahead_cons in H. destruct H as (Hc & _ & pc & Hpc & H).
  apply tokens_ahead_cons in H. destruct H as (Hi & _ & pd & Hpd & H).
  injection H as ->.
  unfold parse_program. unfold bind at 1. rewrite Ha.
  unfold bind at 1. rewrite Hb. unfold bind at 1.
  rewrite while_done.
  2:{ unfold current_in. cbn [existsb]. rewrite Hc. reflexivity. }
  unfold bind at 1. rewrite while_step.
  2:{ unfold current_in. cbn [existsb]. rewrite Hc. reflexivity. }
  unfold bind at 1. unfold bind at 1. unfold bind at 1. unfold current at 1.
  rewrite Hc. cbn [TokenType_eqb TokenType_value N.eqb Pos.eqb].
  unfold ret at 1. unfold bind at 1.
  cbn [parse_statement]. unfold bind at 1. unfold current at 1.
  rewrite Hc. unfold bind at 1. rewrite Hpc.
  unfold ret at 1. unfold ret at 1. cbn [append_statement].
  rewrite while_step.
  2:{ unfold current_in. cbn [existsb]. rewrite Hi. reflexivity. }
  unfold bind at 1. unfold bind at 1. unfold bind at 1. unfold current at 1.
  rewrite Hi. cbn [TokenType_eqb TokenType_value N.eqb Pos.eqb].
  unfold ret at 1. unfold bind at 1.
  cbn [parse_statement]. unfold bind at 1. unfold current at 1.
  rewrite Hi. unfold bind at 1. unfold parse_assignment.
  unfold bind at 1. unfold current at 1. unfold bind at 1. rewrite Hpd.
  unfold bind at 1. unfold eat at 1. rewrite Hstr. reflexivity.
Qed.

Lemma comment_before_metadata_is_refused_witness :
  parse_program 2
    (mkParser
       (mkLexer (" BEGIN # note" ++ nl ++ "description " ++ String DQUOTE "d"
                 ++ String DQUOTE " PROGRAM END") 1 8)
       (mkToken PROGRAM "PROGRAM" 1 1)) =
  (Raise (SyntaxError "Expected TokenType.ASSIGN, got TokenType.STRING at line 2, column 13"),
   mkParser (mkLexer " PROGRAM END" 2 16) (mkToken STRING "d" 2 13)).
Proof.
  apply (comment_before_metadata_is_refused 0 "# note" "description"
           (mkParser
              (mkLexer (" BEGIN # note" ++ nl ++ "description "
                        ++ String DQUOTE "d" ++ String DQUOTE " PROGRAM END")
                 1 8)
              (mkToken PROGRAM "PROGRAM" 1 1))
           (mkParser (mkLexer " PROGRAM END" 2 16) (mkToken STRING "d" 2 13))
           eq_refl eq_refl).
Defined.

(* ------------------------------------------------------------------ *)
(** * Declared types *)

(** X22.  The declared type of a variable is not generated: a
    declaration puts out the same line as the assignment of the same value
    to the same name, returns or raises as it does and leaves the same
    indentation level, whatever the type is. *)
Theorem declared_type_is_not_generated (name : string) (type : option string)
    (value : ASTNode) (g : CodeGenerator) :
  fst (visit (VariableDecl name type value) g)
  = fst (visit (Assignment name value) g)
  /\ output (snd (visit (VariableDecl name type value) g))
     = output (snd (visit (Assignment name value) g))
  /\ indent_level (snd (visit (VariableDecl name type value) g))
     = indent_level (snd (visit (Assignment name value) g)).
Proof.
  cbn [visit]. unfold bind.
  destruct (visit value g) as [[v| |] g1]; repeat split.
Qed.

(** X23.  The annotation of a parameter and the return type of a function
    must be IDENTIFIER tokens, so the built-in type names, which are lexed
    as the keywords NUM, STR, BOOL and LIST, are refused in both places. *)
Theorem type_keyword_is_no_annotation (fuel : nat)
    (PS : M Parser (option ASTNode)) (name : string) (p p1 : Parser) :
  tok_type (current_token p1) <> IDENTIFIER ->
  (forall param_name,
     tokens_ahead
       [(FUNC, "func"); (IDENTIFIER, name); (LPAREN, "(");
        (IDENTIFIER, param_name); (COLON, ":")] p = Some p1 ->
     parse_function (S fuel) PS p =
     (Raise (SyntaxError
               ("Expected TokenType.IDENTIFIER, got "
                ++ TokenType_str (tok_type (current_token p1)) ++ " at line "
                ++ str_of_N (tok_line (current_token p1)) ++ ", column "
                ++ str_of_N (tok_column (current_token p1)))), p1))
  /\ (tokens_ahead
        [(FUNC, "func"); (IDENTIFIER, name); (LPAREN, "("); (RPAREN, ")");
         (RETURN, "return")] p = Some p1 ->
      parse_function fuel PS p =
      (Raise (SyntaxError
                ("Expected TokenType.IDENTIFIER, got "
                 ++ TokenType_str (tok_type (current_token p1)) ++ " at line "
                 ++ str_of_N (tok_line (current_token p1)) ++ ", column "
                 ++ str_of_N (tok_column (current_token p1)))), p1))
  /\ map (fun word => dict_get keywords word IDENTIFIER)
       ["num"; "str"; "bool"; "list"] = [NUM; STR; BOOL; LIST].
Proof.
  intros Hne. apply TokenType_eqb_neq in Hne.
  split; [|split; [|reflexivity]].
  - intros param_name H.
    apply tokens_ahead_cons in H. destruct H as (_ & _ & pa & Ha & H).
    apply tokens_ahead_cons in H. destruct H as (_ & _ & pb & Hb & H).
    apply tokens_ahead_cons in H. destruct H as (_ & _ & pc & Hc & H).
    pose proof (current_in_head [RPAREN] _ _ _ _ _ H) as Hcond.
    cbn [existsb TokenType_eqb TokenType_value N.eqb Pos.eqb orb] in Hcond.
    apply tokens_ahead_cons in H. destruct H as (_ & _ & pd & Hd & H).
    apply tokens_ahead_cons in H. destruct H as (Hcol & _ & pe & He & H).
    injection H as ->.
    unfold parse_function. unfold bind at 1. rewrite Ha.
    unfold bind at 1. unfold current at 1. unfold bind at 1. rewrite Hb.
    unfold bind at 1. rewrite Hc. unfold bind at 1.
    unfold parse_function_params. rewrite while_step;
      [|rewrite Hcond; reflexivity].
    unfold bind at 1. unfold parse_param. unfold bind at 1.
    unfold current at 1. unfold bind at 1. rewrite Hd.
    unfold bind at 1. unfold current at 1. unfold bind at 1.
    rewrite Hcol. cbn [TokenType_eqb TokenType_value N.eqb Pos.eqb].
    unfold bind at 1. rewrite He. unfold bind at 1. unfold current at 1.
    unfold bind at 1. unfold eat at 1. rewrite Hne. reflexivity.
  - intros H.
    apply tokens_ahead_cons in H. destruct H as (_ & _ & pa & Ha & H).
    apply tokens_ahead_cons in H. destruct H as (_ & _ & pb & Hb & H).
    apply tokens_ahead_cons in H. destruct H as (_ & _ & pc & Hc & H).
    pose proof (current_in_head [RPAREN] _ _ _ _ _ H) as Hcond.
    cbn [existsb TokenType_eqb TokenType_value N.eqb Pos.eqb orb] in Hcond.
    apply tokens_ahead_cons in H. destruct H as (_ & _ & pd & Hd & H).
    apply tokens_ahead_cons in H. destruct H as (Hret & _ & pe & He & H).
    injection H as ->.
    unfold parse_function. unfold bind at 1. rewrite Ha.
    unfold bind at 1. unfold current at 1. unfold bind at 1. rewrite Hb.
    unfold bind at 1. rewrite Hc. unfold bind at 1.
    unfold parse_function_params. rewrite while_done;
      [|rewrite Hcond; reflexivity].
    unfold bind at 1. rewrite Hd. unfold bind at 1. unfold current at 1.
    unfold bind at 1. rewrite Hret.
    cbn [TokenType_eqb TokenType_value N.eqb Pos.eqb].
    unfold bind at 1. rewrite He. unfold bind at 1. unfold current at 1.
    unfold bind at 1. unfold eat at 1. rewrite Hne. reflexivity.
Qed.

Lemma type_keyword_is_no_annotation_witness :
  parse_function 1 (parse_statement 0) sample_annotation_parser =
  (Raise (SyntaxError "Expected TokenType.IDENTIFIER, got TokenType.NUM at line 1, column 11"),
   mkParser (mkLexer ") END" 1 14) (mkToken NUM "num" 1 11)).
Proof.
  refine (proj1 (type_keyword_is_no_annotation 0 (parse_statement 0) "f"
                   sample_annotation_parser
                   (mkParser (mkLexer ") END" 1 14) (mkToken NUM "num" 1 11))
                   _) "a" eq_refl).
  discriminate.
Defined.

(* ------------------------------------------------------------------ *)
(** * The end of a program *)



(* ------------------------------------------------------------------ *)
(** * The end of an expression *)

(** A loop that returns has left its condition false, and a property
    that every pass establishes holds after it. *)
Lemma while_returns {St A} (cond : St -> bool) (body : A -> M St A)
    (P : St -> Prop) :
  (forall acc s a s', cond s = true -> body acc s = (Ok a, s') -> P s') ->
  forall fuel acc s a s',
    P s -> while fuel cond body acc s = (Ok a, s') ->
    P s' /\ cond s' = false.
Proof.
  intros Hbody. induction fuel as [|fuel IH]; intros acc s a s' HP H;
    cbn [while] in H; destruct (cond s) eqn:Hc.
  - discriminate H.
  - injection H as _ <-. split; assumption.
  - unfold bind in H.
    destruct (body acc s) as [[a1| |] s1] eqn:Hb; try discriminate H.
    apply (IH a1 s1 a s'); [|exact H].
    exact (Hbody acc s a1 s1 Hc Hb).
  - injection H as _ <-. split; assumption.
Qed.

Lemma parse_term_stops fuel PE p p' e :
  parse_term fuel PE p = (Ok e, p') ->
  current_in [MULTIPLY; DIVIDE] p' = false.
Proof.
  unfold parse_term. unfold bind at 1. intros H.
  destruct (parse_factor PE p) as [[node| |] p1]; try discriminate H.
  apply (while_returns _ _ (fun _ => True)) in H; [apply H|auto|exact I].
Qed.

(** X25.  [parse_expression] reads as far as the operators go: when it
    returns, the current token is none of the four arithmetic operators,
    so no expression ends in front of an operator. *)
Theorem expression_is_read_to_its_end (fuel : nat) (p p' : Parser)
    (e : ASTNode) :
  parse_expression fuel p = (Ok e, p') ->
  current_in [PLUS; MINUS; MULTIPLY; DIVIDE] p' = false.
Proof.
  destruct fuel as [|fuel]; [discriminate|].
  cbn [parse_expression]. unfold bind at 1. intros H.
  destruct (parse_term fuel (parse_expression fuel) p) as [[node| |] p1]
    eqn:Hterm; try discriminate H.
  apply parse_term_stops in Hterm.
  apply (while_returns _ _
           (fun s => current_in [MULTIPLY; DIVIDE] s = false)) in H.
  - destruct H as [Hmul Hadd]. unfold current_in in *.
    cbn [existsb] in *.
    destruct (TokenType_eqb (tok_type (current_token p')) PLUS);
      [discriminate Hadd|].
    destruct (TokenType_eqb (tok_type (current_token p')) MINUS);
      [discriminate Hadd|].
    exact Hmul.
  - intros acc s a s' _ Hb. unfold bind at 1 in Hb. unfold current at 1 in Hb.
    unfold bind at 1 in Hb.
    destruct (eat (tok_type (current_token s)) s) as [[[]| |] s1];
      try discriminate Hb.
    unfold bind at 1 in Hb.
    destruct (parse_term fuel (parse_expression fuel) s1) as [[r| |] s2]
      eqn:Hr; try discriminate Hb.
    injection Hb as _ <-. exact (parse_term_stops _ _ _ _ _ Hr).
  - exact Hterm.
Qed.

Lemma expression_is_read_to_its_end_witness :
  current_in [PLUS; MINUS; MULTIPLY; DIVIDE]
    (mkParser (mkLexer " c" 1 9) (mkToken EQUALS "==" 1 7)) = false.
Proof.
  apply (expression_is_read_to_its_end 3
           (mkParser (mkLexer " + b == c" 1 2) (mkToken IDENTIFIER "a" 1 1))
           (mkParser (mkLexer " c" 1 9) (mkToken EQUALS "==" 1 7))
           (BinaryOp (Identifier "a") PLUS (Identifier "b")) eq_refl).
Defined.
